(** * Development-application register scraper (scraper.js): table
      reconstruction and record assembly.

    A shallow embedding of the pure core of [scraper.js]: the geometry
    helpers, the vector line extractor and grid builder of [parseCells],
    the per-page pipeline of [parsePdf], the address normaliser
    ([formatStreetName], [formatAddress]), the reading of the gazetteer
    ([readAddressInformation], from the texts of its three files) and the
    choice of the documents in [main] ([getRandom], with the value of
    [Math.random()] as an argument).

    Modelling conventions.
    - A JavaScript number is a rational [Q]: arithmetic is exact and
      finite, where the source rounds to doubles.  The one place where
      the source can produce [NaN] (a rectangle sub-operation reading
      past the end of its argument buffer) is modelled by the shape
      [NaNShape].
    - A JavaScript string is a [string] of 8-bit characters; [\s],
      [trim], [toLowerCase] and [toUpperCase] act on the ASCII range,
      where the source's white space also has the no-break space, the
      byte-order mark, the line and paragraph separators and the space
      separators of Unicode.
    - [undefined] is [None]; a thrown [TypeError] is the result [None]
      of a function whose result type is an [option].
    - [console.log] appends an entry to the log that is threaded through
      the page pipeline.
    - [Array.prototype.sort] is a stable insertion sort driven by the
      comparer.  For a comparer that is a consistent order (the line, row
      and row-cell comparers) every sort returns this result up to the
      order of equal elements; for [cellComparer] and [elementComparer],
      which are not transitive, the engine's sort may return another
      order.
    - A JavaScript object used as a table is the list of its entries in
      insertion order; the source lists keys that are array indices
      first.
    - The two library calls ([didyoumean2] with the fixed options of the
      source, and [moment] in strict mode) and the three gazetteer tables
      are section variables of the engine; executable instances follow
      the section. *)

From Stdlib Require Import List String Ascii Bool Arith ZArith Lia DecimalString.
From Stdlib Require Import QArith Qabs Qminmax Qround Lqa.
From Stdlib Require Import Permutation Sorted.
Import ListNotations.

Set Implicit Arguments.

Local Close Scope Q_scope.
Local Open Scope string_scope.
Local Open Scope list_scope.
Local Open Scope nat_scope.

(* ===================================================================== *)
(** ** Numbers *)
(* ===================================================================== *)

Module Num.

(** [a < b], [a > b], [a <= b], [a >= b] and [a === b] on numbers. *)
Definition ltb (a b : Q) : bool := negb (Qle_bool b a).
Definition gtb (a b : Q) : bool := negb (Qle_bool a b).
Definition leb (a b : Q) : bool := Qle_bool a b.
Definition geb (a b : Q) : bool := Qle_bool b a.
Definition eqb (a b : Q) : bool := Qeq_bool a b.

End Num.

(* ===================================================================== *)
(** ** Strings *)
(* ===================================================================== *)

Module Str.

(** The class [\s] on the ASCII range: tab, line feed, vertical tab,
    form feed, carriage return and space. *)
Definition isWhitespace (c : ascii) : bool :=
  let n := nat_of_ascii c in
  ((9 <=? n) && (n <=? 13)) || (n =? 32).

Definition isDigit (c : ascii) : bool :=
  let n := nat_of_ascii c in (48 <=? n) && (n <=? 57).

Definition lowerChar (c : ascii) : ascii :=
  let n := nat_of_ascii c in
  if (65 <=? n) && (n <=? 90) then ascii_of_nat (n + 32) else c.

Definition upperChar (c : ascii) : ascii :=
  let n := nat_of_ascii c in
  if (97 <=? n) && (n <=? 122) then ascii_of_nat (n - 32) else c.

Fixpoint mapChars (f : ascii -> ascii) (s : string) : string :=
  match s with
  | EmptyString => EmptyString
  | String c s' => String (f c) (mapChars f s')
  end.

Definition toLowerCase : string -> string := mapChars lowerChar.
Definition toUpperCase : string -> string := mapChars upperChar.

Definition isEmpty (s : string) : bool :=
  match s with EmptyString => true | _ => false end.

Fixpoint trimStart (s : string) : string :=
  match s with
  | EmptyString => EmptyString
  | String c s' => if isWhitespace c then trimStart s' else s
  end.

Fixpoint trimEnd (s : string) : string :=
  match s with
  | EmptyString => EmptyString
  | String c s' =>
      let r := trimEnd s' in
      if isWhitespace c && isEmpty r then EmptyString else String c r
  end.

(** [s.trim()] *)
Definition trim (s : string) : string := trimEnd (trimStart s).

(** [s.replace(/\s/g, "")] *)
Fixpoint removeWhitespace (s : string) : string :=
  match s with
  | EmptyString => EmptyString
  | String c s' =>
      if isWhitespace c then removeWhitespace s'
      else String c (removeWhitespace s')
  end.

(** [s.replace(/\s\s+/g, " ")]: every maximal run of two or more
    whitespace characters becomes one space; a lone whitespace character
    is kept as it is.  [inRun] says that the scan is inside a run whose
    replacement has already been written. *)
Fixpoint collapseFrom (inRun : bool) (s : string) : string :=
  match s with
  | EmptyString => EmptyString
  | String c s' =>
      if isWhitespace c then
        if inRun then collapseFrom true s'
        else match s' with
             | String d _ =>
                 if isWhitespace d then String " " (collapseFrom true s')
                 else String c (collapseFrom false s')
             | EmptyString => String c EmptyString
             end
      else String c (collapseFrom false s')
  end.

Definition collapseWhitespace (s : string) : string := collapseFrom false s.

(** [parts.join(sep)] *)
Fixpoint join (sep : string) (parts : list string) : string :=
  match parts with
  | [] => EmptyString
  | [p] => p
  | p :: rest => (p ++ sep ++ join sep rest)%string
  end.

(** [s.split(" ")]: the pieces between single space characters; never
    the empty array. *)
Fixpoint splitSpace (s : string) : list string :=
  match s with
  | EmptyString => [EmptyString]
  | String c s' =>
      if Ascii.eqb c " " then EmptyString :: splitSpace s'
      else match splitSpace s' with
           | [] => [String c EmptyString]
           | p :: rest => String c p :: rest
           end
  end.

(** [s.lastIndexOf(",")], [-1] when there is no comma. *)
Fixpoint lastIndexOfFrom (c : ascii) (i : Z) (found : Z) (s : string) : Z :=
  match s with
  | EmptyString => found
  | String d s' =>
      lastIndexOfFrom c (i + 1) (if Ascii.eqb d c then i else found) s'
  end.

Definition lastIndexOf (c : ascii) (s : string) : Z :=
  lastIndexOfFrom c 0 (-1) s.

(** [s.substring(0, n)] and [s.substring(n)] for [0 <= n]. *)
Definition substringTo (n : Z) (s : string) : string :=
  String.substring 0 (Z.to_nat n) s.

Definition substringFrom (n : Z) (s : string) : string :=
  String.substring (Z.to_nat n) (String.length s - Z.to_nat n) s.

(** [s.replace(/pat/g, rep)] for a literal, non-empty [pat]: matches are
    taken left to right and do not overlap.  [skip] counts the
    characters of the current match that are still to be consumed. *)
Fixpoint replaceFrom (pat rep : string) (skip : nat) (s : string) : string :=
  match s with
  | EmptyString => EmptyString
  | String c s' =>
      match skip with
      | S k => replaceFrom pat rep k s'
      | O =>
          if String.prefix pat s
          then (rep ++ replaceFrom pat rep (String.length pat - 1) s')%string
          else String c (replaceFrom pat rep 0 s')
      end
  end.

Definition replaceAll (pat rep : string) (s : string) : string :=
  replaceFrom pat rep 0 s.

End Str.

(* ===================================================================== *)
(** ** Data model *)
(* ===================================================================== *)

(** [interface Rectangle { x, y, width, height }] *)
Record Rectangle : Type := mkRectangle {
  x : Q;
  y : Q;
  width : Q;
  height : Q
}.

(** [interface Element extends Rectangle { text }] *)
Record Element : Type := mkElement {
  text : string;
  elementBounds :> Rectangle
}.

(** [interface Cell extends Rectangle { elements }] *)
Record Cell : Type := mkCell {
  elements : list Element;
  cellBounds :> Rectangle
}.

(** The rows pushed onto [developmentApplications]. *)
Record DevelopmentApplication : Type := mkDevelopmentApplication {
  applicationNumber : string;
  address : string;
  description : string;
  informationUrl : string;
  commentUrl : string;
  scrapeDate : string;
  receivedDate : string;
  legalDescription : string
}.

Definition CommentUrl : string := "mailto:mail@dclep.sa.gov.au".

(** [rectangle.y = -(rectangle.y + rectangle.height)] *)
Definition invertY (r : Rectangle) : Rectangle :=
  {| x := x r; y := (- (y r + height r))%Q; width := width r; height := height r |}.

Definition invertCell (c : Cell) : Cell :=
  {| elements := elements c; cellBounds := invertY c |}.

Definition invertElement (e : Element) : Element :=
  {| text := text e; elementBounds := invertY e |}.

(** [cell.elements.push(element)] *)
Definition pushElement (e : Element) (c : Cell) : Cell :=
  {| elements := elements c ++ [e]; cellBounds := cellBounds c |}.

(* ===================================================================== *)
(** ** Arrays *)
(* ===================================================================== *)

Module Arr.
Section Arr.
Variable A : Type.

(** [array.find(p)] is [List.find]; [findIndex] is its position. *)
Fixpoint findIndex (p : A -> bool) (l : list A) : option nat :=
  match l with
  | [] => None
  | a :: l' =>
      if p a then Some 0
      else match findIndex p l' with
           | Some i => Some (S i)
           | None => None
           end
  end.

(** Apply [f] to the element at position [i]. *)
Fixpoint updateAt (i : nat) (f : A -> A) (l : list A) : list A :=
  match l, i with
  | [], _ => []
  | a :: l', O => f a :: l'
  | a :: l', S j => a :: updateAt j f l'
  end.

(** [array.sort(comparer)]: [a] goes after [b] when
    [comparer(a, b) > 0]; elements that compare equal keep their
    order. *)
Fixpoint insertSorted (comparer : A -> A -> Z) (a : A) (l : list A) : list A :=
  match l with
  | [] => [a]
  | b :: l' =>
      if (0 <? comparer a b)%Z then b :: insertSorted comparer a l'
      else a :: l
  end.

Fixpoint sort (comparer : A -> A -> Z) (l : list A) : list A :=
  match l with
  | [] => []
  | a :: l' => insertSorted comparer a (sort comparer l')
  end.

(** [array.slice(-n)]: the last [n] elements, all of them when the
    array is shorter. *)
Definition sliceLast (n : nat) (l : list A) : list A :=
  skipn (List.length l - n) l.

(** [array.splice(-n, n)]: what is left of the array. *)
Definition dropLast (n : nat) (l : list A) : list A :=
  firstn (List.length l - n) l.
End Arr.
End Arr.

(* ===================================================================== *)
(** ** Geometry primitives *)
(* ===================================================================== *)

Definition intersect (rectangle1 rectangle2 : Rectangle) : Rectangle :=
  let x1 := Qmax (x rectangle1) (x rectangle2) in
  let y1 := Qmax (y rectangle1) (y rectangle2) in
  let x2 := Qmin (x rectangle1 + width rectangle1) (x rectangle2 + width rectangle2) in
  let y2 := Qmin (y rectangle1 + height rectangle1) (y rectangle2 + height rectangle2) in
  if Num.geb x2 x1 && Num.geb y2 y1
  then {| x := x1; y := y1; width := (x2 - x1)%Q; height := (y2 - y1)%Q |}
  else {| x := 0%Q; y := 0%Q; width := 0%Q; height := 0%Q |}.

Definition getArea (rectangle : Rectangle) : Q :=
  (width rectangle * height rectangle)%Q.

Definition getPercentageOfElementInCell (element cell : Rectangle) : Q :=
  let elementArea := getArea element in
  let intersectionArea := getArea (intersect cell element) in
  if Num.eqb elementArea 0%Q then 0%Q
  else ((intersectionArea * 100) / elementArea)%Q.

Definition getHorizontalOverlapPercentage
    (rectangle1 rectangle2 : option Rectangle) : Q :=
  match rectangle1, rectangle2 with
  | None, _ | _, None => 0%Q
  | Some r1, Some r2 =>
      let startX1 := x r1 in
      let endX1 := (x r1 + width r1)%Q in
      let startX2 := x r2 in
      let endX2 := (x r2 + width r2)%Q in
      if Num.geb startX1 endX2 || Num.leb endX1 startX2
         || Num.eqb (width r1) 0%Q || Num.eqb (width r2) 0%Q
      then 0%Q
      else
        let intersectionWidth := (Qmin endX1 endX2 - Qmax startX1 startX2)%Q in
        let unionWidth := (Qmax endX1 endX2 - Qmin startX1 startX2)%Q in
        ((intersectionWidth * 100) / unionWidth)%Q
  end.

(* ===================================================================== *)
(** ** Vector line extractor and grid builder ([parseCells]) *)
(* ===================================================================== *)

(** A transform matrix [[a, b, c, d, e, f]]. *)
Record Transform : Type := mkTransform {
  ta : Q; tb : Q; tc : Q; td : Q; te : Q; tf : Q
}.

Definition identityTransform : Transform :=
  {| ta := 1%Q; tb := 0%Q; tc := 0%Q; td := 1%Q; te := 0%Q; tf := 0%Q |}.

(** [pdfjs.Util.transform(m1, m2)] and [pdfjs.Util.applyTransform(p, m)],
    as pdf.js defines them. *)
Definition utilTransform (m1 m2 : Transform) : Transform :=
  {| ta := (ta m1 * ta m2 + tc m1 * tb m2)%Q;
     tb := (tb m1 * ta m2 + td m1 * tb m2)%Q;
     tc := (ta m1 * tc m2 + tc m1 * td m2)%Q;
     td := (tb m1 * tc m2 + td m1 * td m2)%Q;
     te := (ta m1 * te m2 + tc m1 * tf m2 + te m1)%Q;
     tf := (tb m1 * te m2 + td m1 * tf m2 + tf m1)%Q |}.

Definition applyTransform (p : Q * Q) (m : Transform) : Q * Q :=
  ((fst p * ta m + snd p * tc m + te m)%Q,
   (fst p * tb m + snd p * td m + tf m)%Q).

(** The sub-operations of a [constructPath]; only [moveTo], [lineTo] and
    [rectangle] are looked at by the source. *)
Inductive PathOp : Type :=
| MoveTo
| LineTo
| RectangleOp
| OtherPathOp.

(** The operators of a page, with their arguments. *)
Inductive Operator : Type :=
| Save
| Restore
| TransformOp (args : Transform)
| ConstructPath (ops : list PathOp) (args : list Q)
| Fill
| EoFill
| OtherOp.

(** What [previousRectangle] holds: a rectangle, or the object whose
    [width] and [height] are [NaN] that results when one of the four
    arguments lies past the end of the argument buffer. *)
Inductive Shape : Type :=
| Rect (r : Rectangle)
| NaNShape.

(** The rectangle case of the inner loop, for a defined transform. *)
Definition readRectangle (args : list Q) (argumentIndex : nat)
    (transform : Transform) : Shape :=
  match nth_error args argumentIndex, nth_error args (argumentIndex + 1),
        nth_error args (argumentIndex + 2), nth_error args (argumentIndex + 3) with
  | Some x1, Some y1, Some w, Some h =>
      let x2 := (x1 + w)%Q in
      let y2 := (y1 + h)%Q in
      let p1 := applyTransform (x1, y1) transform in
      let p2 := applyTransform (x2, y2) transform in
      Rect {| x := fst p1; y := snd p1;
              width := (fst p2 - fst p1)%Q; height := (snd p2 - snd p1)%Q |}
  | _, _, _, _ => NaNShape
  end.

(** The inner loop over the sub-operations of one [constructPath].  It
    fails when a rectangle is read while [transform] is [undefined]. *)
Fixpoint constructPath (ops : list PathOp) (args : list Q)
    (transform : option Transform) (argumentIndex : nat)
    (previousRectangle : option Shape) : option (option Shape) :=
  match ops with
  | [] => Some previousRectangle
  | MoveTo :: ops' | LineTo :: ops' =>
      constructPath ops' args transform (argumentIndex + 2) previousRectangle
  | RectangleOp :: ops' =>
      match transform with
      | None => None
      | Some t =>
          constructPath ops' args transform (argumentIndex + 4)
            (Some (readRectangle args argumentIndex t))
      end
  | OtherPathOp :: ops' =>
      constructPath ops' args transform argumentIndex previousRectangle
  end.

(** The state of the outer loop. *)
Record LineState : Type := mkLineState {
  lines : list Shape;
  previousRectangle : option Shape;
  transformStack : list (option Transform);   (* top of the stack first *)
  transform : option Transform
}.

Definition initialLineState : LineState :=
  {| lines := []; previousRectangle := None;
     transformStack := [Some identityTransform];
     transform := Some identityTransform |}.

(** One operator of the outer loop.  [transformStack.pop()] of an empty
    stack is [undefined]; [Util.transform(undefined, _)] throws. *)
Definition stepOperator (s : LineState) (op : Operator) : option LineState :=
  match op with
  | Restore =>
      match transformStack s with
      | [] => Some {| lines := lines s; previousRectangle := previousRectangle s;
                      transformStack := []; transform := None |}
      | t :: rest =>
          Some {| lines := lines s; previousRectangle := previousRectangle s;
                  transformStack := rest; transform := t |}
      end
  | Save =>
      Some {| lines := lines s; previousRectangle := previousRectangle s;
              transformStack := transform s :: transformStack s;
              transform := transform s |}
  | TransformOp args =>
      match transform s with
      | None => None
      | Some t =>
          Some {| lines := lines s; previousRectangle := previousRectangle s;
                  transformStack := transformStack s;
                  transform := Some (utilTransform t args) |}
      end
  | ConstructPath ops args =>
      match constructPath ops args (transform s) 0 (previousRectangle s) with
      | None => None
      | Some p =>
          Some {| lines := lines s; previousRectangle := p;
                  transformStack := transformStack s; transform := transform s |}
      end
  | Fill | EoFill =>
      match previousRectangle s with
      | Some p =>
          Some {| lines := lines s ++ [p]; previousRectangle := None;
                  transformStack := transformStack s; transform := transform s |}
      | None => Some s
      end
  | OtherOp => Some s
  end.

Fixpoint runOperators (s : LineState) (operators : list Operator) : option LineState :=
  match operators with
  | [] => Some s
  | op :: rest =>
      match stepOperator s op with
      | None => None
      | Some s' => runOperators s' rest
      end
  end.

(** The committed lines of an operator list. *)
Definition parseLines (operators : list Operator) : option (list Shape) :=
  option_map lines (runOperators initialLineState operators).

(** Whether every [restore] of an operator list finds a transform on
    the stack, which holds [depth] transforms at the start. *)
Fixpoint restoresMatched (depth : nat) (operators : list Operator) : bool :=
  match operators with
  | [] => true
  | Save :: rest => restoresMatched (S depth) rest
  | Restore :: rest =>
      match depth with
      | O => false
      | S d => restoresMatched d rest
      end
  | _ :: rest => restoresMatched depth rest
  end.

Definition isHorizontalLine (line : Rectangle) : bool :=
  Num.leb (height line) 2%Q && Num.geb (width line) 200%Q.

Definition isVerticalLine (line : Rectangle) : bool :=
  negb (isHorizontalLine line)
  && Num.leb (width line) 2%Q && Num.geb (height line) 10%Q.

Fixpoint horizontalLinesOf (lines : list Shape) : list Rectangle :=
  match lines with
  | [] => []
  | Rect line :: rest =>
      if isHorizontalLine line then line :: horizontalLinesOf rest
      else horizontalLinesOf rest
  | NaNShape :: rest => horizontalLinesOf rest
  end.

Fixpoint verticalLinesOf (lines : list Shape) : list Rectangle :=
  match lines with
  | [] => []
  | Rect line :: rest =>
      if isVerticalLine line then line :: verticalLinesOf rest
      else verticalLinesOf rest
  | NaNShape :: rest => verticalLinesOf rest
  end.

(** [(a, b) => (a > b) ? 1 : ((a < b) ? -1 : 0)] on numbers. *)
Definition compareNumbers (a b : Q) : Z :=
  if Num.gtb a b then 1%Z else if Num.ltb a b then (-1)%Z else 0%Z.

Definition verticalLineComparer (a b : Rectangle) : Z := compareNumbers (x a) (x b).
Definition horizontalLineComparer (a b : Rectangle) : Z := compareNumbers (y a) (y b).

Definition zeroRectangle : Rectangle :=
  {| x := 0%Q; y := 0%Q; width := 0%Q; height := 0%Q |}.

(** The cell between two consecutive horizontal and two consecutive
    vertical lines. *)
Definition gridCell (horizontalLine nextHorizontalLine
                     verticalLine nextVerticalLine : Rectangle) : Cell :=
  {| elements := [];
     cellBounds :=
       {| x := x verticalLine; y := y horizontalLine;
          width := (x nextVerticalLine - x verticalLine)%Q;
          height := (y nextHorizontalLine - y horizontalLine)%Q |} |}.

(** The two nested loops over the indices of the sorted lines. *)
Definition constructCells (horizontalLines verticalLines : list Rectangle) : list Cell :=
  flat_map
    (fun horizontalLineIndex =>
       map
         (fun verticalLineIndex =>
            gridCell
              (nth horizontalLineIndex horizontalLines zeroRectangle)
              (nth (horizontalLineIndex + 1) horizontalLines zeroRectangle)
              (nth verticalLineIndex verticalLines zeroRectangle)
              (nth (verticalLineIndex + 1) verticalLines zeroRectangle))
         (seq 0 (List.length verticalLines - 1)))
    (seq 0 (List.length horizontalLines - 1)).

Definition sortedHorizontalLines (lines : list Shape) : list Rectangle :=
  Arr.sort horizontalLineComparer (horizontalLinesOf lines).

Definition sortedVerticalLines (lines : list Shape) : list Rectangle :=
  Arr.sort verticalLineComparer (verticalLinesOf lines).

(** The grid builder: the part of [parseCells] after the operator loop. *)
Definition buildCells (lines : list Shape) : list Cell :=
  constructCells (sortedHorizontalLines lines) (sortedVerticalLines lines).

Definition parseCells (operators : list Operator) : option (list Cell) :=
  option_map buildCells (parseLines operators).

(* ===================================================================== *)
(** ** Regular expressions ([RegExp.prototype.test]) *)
(* ===================================================================== *)

Module RegExp.

Local Open Scope list_scope.

Inductive Regex : Type :=
| Void
| Eps
| Class (p : ascii -> bool)
| Cat (r1 r2 : Regex)
| Alt (r1 r2 : Regex)
| Star (r : Regex).

(** [r+] *)
Definition Plus (r : Regex) : Regex := Cat r (Star r).

Definition Chr (c : ascii) : Regex := Class (Ascii.eqb c).

Definition AnyChar : Regex := Class (fun _ => true).

Fixpoint nullable (r : Regex) : bool :=
  match r with
  | Void => false
  | Eps => true
  | Class _ => false
  | Cat r1 r2 => nullable r1 && nullable r2
  | Alt r1 r2 => nullable r1 || nullable r2
  | Star _ => true
  end.

Fixpoint deriv (c : ascii) (r : Regex) : Regex :=
  match r with
  | Void => Void
  | Eps => Void
  | Class p => if p c then Eps else Void
  | Cat r1 r2 =>
      if nullable r1
      then Alt (Cat (deriv c r1) r2) (deriv c r2)
      else Cat (deriv c r1) r2
  | Alt r1 r2 => Alt (deriv c r1) (deriv c r2)
  | Star r1 => Cat (deriv c r1) (Star r1)
  end.

(** The whole of [s] matches [r]. *)
Fixpoint accepts (r : Regex) (s : list ascii) : bool :=
  match s with
  | [] => nullable r
  | c :: s' => accepts (deriv c r) s'
  end.

(** [r.test(s)] for an unanchored [r] without flags: some substring of
    [s] matches [r]. *)
Definition test (r : Regex) (s : string) : bool :=
  accepts (Cat (Star AnyChar) (Cat r (Star AnyChar))) (list_ascii_of_string s).

(** The language of a regular expression. *)
Inductive Matches : Regex -> list ascii -> Prop :=
| MEps : Matches Eps []
| MClass p c : p c = true -> Matches (Class p) [c]
| MCat r1 r2 s1 s2 :
    Matches r1 s1 -> Matches r2 s2 -> Matches (Cat r1 r2) (s1 ++ s2)
| MAltL r1 r2 s : Matches r1 s -> Matches (Alt r1 r2) s
| MAltR r1 r2 s : Matches r2 s -> Matches (Alt r1 r2) s
| MStarNil r : Matches (Star r) []
| MStarApp r s1 s2 :
    Matches r s1 -> Matches (Star r) s2 -> Matches (Star r) (s1 ++ s2).

End RegExp.

(** [/[0-9]+\/[0-9]+\/[0-9]+/] *)
Definition applicationNumberRegex : RegExp.Regex :=
  RegExp.Cat (RegExp.Plus (RegExp.Class Str.isDigit))
    (RegExp.Cat (RegExp.Chr "/")
       (RegExp.Cat (RegExp.Plus (RegExp.Class Str.isDigit))
          (RegExp.Cat (RegExp.Chr "/") (RegExp.Plus (RegExp.Class Str.isDigit))))).

(* ===================================================================== *)
(** ** Lookup tables *)
(* ===================================================================== *)

(** A JavaScript object used as a table from strings: the entries in
    insertion order, each key once. *)
Module Table.
Section Table.
Variable V : Type.

(** [table[key]] *)
Fixpoint lookup (key : string) (table : list (string * V)) : option V :=
  match table with
  | [] => None
  | (k, v) :: rest => if String.eqb k key then Some v else lookup key rest
  end.

(** [Object.keys(table)] *)
Definition keys (table : list (string * V)) : list string := map fst table.
End Table.
End Table.

(** A non-empty run of decimal digits, and a text that contains a
    substring of the shape digits, slash, digits, slash, digits. *)
Definition digitRun (s : string) : Prop :=
  s <> "" /\ forallb Str.isDigit (list_ascii_of_string s) = true.

Definition containsApplicationNumber (s : string) : Prop :=
  exists pre a b c post : string,
    s = (pre ++ a ++ "/" ++ b ++ "/" ++ c ++ post)%string
    /\ digitRun a /\ digitRun b /\ digitRun c.

(** [n.toString()] *)
Definition numberToString (n : nat) : string :=
  NilZero.string_of_uint (Nat.to_uint n).

Definition isSome {A : Type} (o : option A) : bool :=
  match o with Some _ => true | None => false end.

(* ===================================================================== *)
(** ** The engine: address normaliser and page pipeline *)
(* ===================================================================== *)

Section Engine.

(** [didyoumean2(input, matchList, options)] with the options of the
    source ([caseSensitive: false], [FIRST_CLOSEST_MATCH],
    [EDIT_DISTANCE], [trimSpaces: true]) and the given [threshold];
    [None] is the library's [null]. *)
Variable didyoumean2 : string -> list string -> nat -> option string.

(** [moment(text, "D/MM/YYYY", true)]: [Some d] for a valid date, with
    [d] its [format("YYYY-MM-DD")]; [None] for an invalid one. *)
Variable momentStrict : string -> option string.

(** The gazetteer, read once by [readAddressInformation]. *)
Variable StreetNames : list (string * list string).
Variable StreetSuffixes : list (string * string).
Variable SuburbNames : list (string * string).

(** [moment().format("YYYY-MM-DD")] *)
Variable today : string.

(** The window sizes of the two loops [for (index = 6; index >= 2; index--)]. *)
Definition windowSizes : list nat := [6; 5; 4; 3; 2].

(** The tokens of the street text with the last one expanded. *)
Definition streetTokens (text : string) : list string :=
  let tokens := Str.splitSpace (Str.toUpperCase (Str.trim text)) in
  let token := last tokens "" in
  let streetSuffix := Table.lookup token StreetSuffixes in
  removelast tokens
    ++ [match streetSuffix with None => token | Some suffix => suffix end].

Definition isKnownStreet (tokens : list string) (index : nat) : bool :=
  isSome (Table.lookup (Str.join " " (Arr.sliceLast index tokens)) StreetNames).

(** The second loop: the first window with a close match. *)
Fixpoint fuzzyStreet (tokens : list string) (indexes : list nat) : option string :=
  match indexes with
  | [] => None
  | index :: rest =>
      let threshold := 7 - index in
      match didyoumean2 (Str.join " " (Arr.sliceLast index tokens))
              (Table.keys StreetNames) threshold with
      | Some streetNameMatch =>
          Some (Str.trim (Str.join " " (Arr.dropLast index tokens)
                          ++ " " ++ streetNameMatch)%string)
      | None => fuzzyStreet tokens rest
      end
  end.

Definition formatStreetName (text : option string) : option string :=
  match text with
  | None => None
  | Some text =>
      let tokens := streetTokens text in
      if existsb (isKnownStreet tokens) windowSizes
      then Some (Str.join " " tokens)
      else match fuzzyStreet tokens windowSizes with
           | Some street => Some street
           | None => Some text
           end
  end.

(** String concatenation with a value that may be [undefined]. *)
Definition toStringOrUndefined (o : option string) : string :=
  match o with Some s => s | None => "undefined" end.

(** The special cases replaced at the start of [formatAddress]. *)
Definition expandTerraces (address : string) : string :=
  Str.replaceAll " TCE WEST" " TERRACE WEST"
    (Str.replaceAll " TCE EAST" " TERRACE EAST"
       (Str.replaceAll " TCE STH" " TERRACE SOUTH"
          (Str.replaceAll " TCE NTH" " TERRACE NORTH" (Str.trim address)))).

(** The text after the last comma of an address. *)
Definition suburbPortion (address : string) : string :=
  Str.substringFrom (Str.lastIndexOf "," address + 1) address.

Definition formatAddress (address : string) : string :=
  let address := expandTerraces address in
  let commaIndex := Str.lastIndexOf "," address in
  if (commaIndex <? 0)%Z then address
  else
    let streetName := Str.substringTo commaIndex address in
    let suburbName := Str.substringFrom (commaIndex + 1) address in
    match didyoumean2 suburbName (Table.keys SuburbNames) 2 with
    | None => address
    | Some suburbName =>
        (toStringOrUndefined (formatStreetName (Some streetName))
         ++ ", " ++ toStringOrUndefined (Table.lookup suburbName SuburbNames))%string
    end.

(* ------------------------------------------------------------------- *)
(** *** The page pipeline of [parsePdf] *)
(* ------------------------------------------------------------------- *)

(** [(a, b) => (Math.abs(a.y - b.y) < tolerance) ? compare x : ((a.y > b.y) ? 1 : -1)] *)
Definition approximateComparer (tolerance : Q) (a b : Rectangle) : Z :=
  if Num.ltb (Qabs (y a - y b)) tolerance
  then compareNumbers (x a) (x b)
  else if Num.gtb (y a) (y b) then 1%Z else (-1)%Z.

Definition cellComparer (a b : Cell) : Z := approximateComparer 2%Q a b.
Definition elementComparer (a b : Element) : Z := approximateComparer 1%Q a b.

(** The test of [cells.find] in the allocation loop. *)
Definition ownsElement (element : Element) (cell : Cell) : bool :=
  Num.gtb (getPercentageOfElementInCell element cell) 50%Q.

(** [cells.find(cell => getPercentageOfElementInCell(element, cell) > 50)],
    as the position of the cell found. *)
Definition ownerCell (element : Element) (cells : list Cell) : option nat :=
  Arr.findIndex (ownsElement element) cells.

(** One turn of the loop that allocates each element to its owning
    cell; the cell object is updated in place. *)
Definition allocateElement (cells : list Cell) (element : Element) : list Cell :=
  match ownerCell element cells with
  | Some owner => Arr.updateAt owner (pushElement element) cells
  | None => cells
  end.

Definition allocateElements (cells : list Cell) (elements : list Element) : list Cell :=
  fold_left allocateElement elements cells.

(** Whether [cells.find] returns the cell at position [i] for [element]. *)
Definition isOwnedBy (cells : list Cell) (i : nat) (element : Element) : bool :=
  match ownerCell element cells with
  | Some owner => Nat.eqb owner i
  | None => false
  end.

(** [Math.abs(row[0].y - cell.y) < 2]; a row is never empty. *)
Definition rowMatches (cell : Cell) (row : list Cell) : bool :=
  match row with
  | first :: _ => Num.ltb (Qabs (y first - y cell)) 2%Q
  | [] => false
  end.

Definition addToRows (rows : list (list Cell)) (cell : Cell) : list (list Cell) :=
  match Arr.findIndex (rowMatches cell) rows with
  | None => rows ++ [[cell]]
  | Some row => Arr.updateAt row (fun r => r ++ [cell]) rows
  end.

Definition groupRows (cells : list Cell) : list (list Cell) :=
  fold_left addToRows cells [].

Definition rowComparer (a b : list Cell) : Z :=
  match a, b with
  | a0 :: _, b0 :: _ => compareNumbers (y a0) (y b0)
  | _, _ => 0%Z
  end.

Definition rowCellComparer (a b : Cell) : Z := compareNumbers (x a) (x b).

Definition sortRows (rows : list (list Cell)) : list (list Cell) :=
  map (Arr.sort rowCellComparer) (Arr.sort rowComparer rows).

(** [element.text.toLowerCase().replace(/\s/g, "") === label] *)
Definition elementIsLabel (label : string) (element : Element) : bool :=
  String.eqb (Str.removeWhitespace (Str.toLowerCase (text element))) label.

(** [cells.find(cell => cell.elements.some(element => ... === label))] *)
Definition findHeadingCell (label : string) (cells : list Cell) : option Cell :=
  find (fun cell => existsb (elementIsLabel label) (elements cell)) cells.

(** The label text of a cell as the specification words it: the texts
    of the elements of the cell joined, stripped of whitespace and in
    lower case.  Only compared with [findHeadingCell]; the pipeline does
    not use it. *)
Definition spec_joinedLabelText (cell : Cell) : string :=
  Str.removeWhitespace (Str.toLowerCase (Str.join "" (map text (elements cell)))).

Definition findLegalDescriptionHeadingCell (cells : list Cell) : option Cell :=
  match findHeadingCell "allotmentor" cells with
  | None => findHeadingCell "allotment/" cells
  | found => found
  end.

(** [row.find(cell => getHorizontalOverlapPercentage(cell, headingCell) > 90)] *)
Definition findDataCell (headingCell : option Cell) (row : list Cell) : option Cell :=
  find (fun cell =>
          Num.gtb (getHorizontalOverlapPercentage
                     (Some (cellBounds cell)) (option_map cellBounds headingCell))
                  90%Q)
       row.

(** [cell.elements.map(element => element.text).join("").trim()] *)
Definition applicationNumberText (cell : Cell) : string :=
  Str.trim (Str.join "" (map text (elements cell))).

(** [cell.elements.map(element => element.text).join(" ").replace(/\s\s+/g, " ").trim()] *)
Definition cellText (cell : Cell) : string :=
  Str.trim (Str.collapseWhitespace (Str.join " " (map text (elements cell)))).

(** The received date of a row, already formatted: the empty string
    for [moment.invalid()] and for a text that does not parse. *)
Definition receivedDateOf (receivedDateCell : option Cell) : string :=
  match receivedDateCell with
  | Some cell =>
      match elements cell with
      | first :: _ =>
          match momentStrict (Str.trim (text first)) with
          | Some formatted => formatted
          | None => ""
          end
      | [] => ""
      end
  | None => ""
  end.

Definition foundMessage (applicationNumber : string) : string :=
  ("Found development application " ++ applicationNumber ++ ".")%string.

(** The heading cells of a page. *)
Record Headings : Type := mkHeadings {
  applicationNumberHeadingCell : option Cell;
  receivedDateHeadingCell : option Cell;
  legalDescriptionHeadingCell : option Cell;
  streetNameHeadingCell : option Cell;
  suburbNameHeadingCell : option Cell;
  descriptionHeadingCell : option Cell
}.

(** The object pushed onto [developmentApplications] once the
    application number and the address of a row are known. *)
Definition makeApplication (url applicationNumber address : string)
    (descriptionCell receivedDateCell legalDescriptionCell : option Cell)
  : DevelopmentApplication :=
  let description :=
    match descriptionCell with
    | Some cell => cellText cell
    | None => ""
    end in
  let legalDescription :=
    match legalDescriptionCell with
    | Some cell => cellText cell
    | None => ""
    end in
  {| applicationNumber := applicationNumber;
     address := address;
     description :=
       if String.eqb description "" then "No Description Provided" else description;
     informationUrl := url;
     commentUrl := CommentUrl;
     scrapeDate := today;
     receivedDate := receivedDateOf receivedDateCell;
     legalDescription := legalDescription |}.

(** The body of the loop over the rows: the record pushed, if any, and
    what is logged. *)
Definition processRow (url : string) (h : Headings) (row : list Cell)
  : option DevelopmentApplication * list string :=
  let applicationNumberCell := findDataCell (applicationNumberHeadingCell h) row in
  let receivedDateCell := findDataCell (receivedDateHeadingCell h) row in
  let legalDescriptionCell := findDataCell (legalDescriptionHeadingCell h) row in
  let streetNameCell := findDataCell (streetNameHeadingCell h) row in
  let suburbNameCell := findDataCell (suburbNameHeadingCell h) row in
  let descriptionCell := findDataCell (descriptionHeadingCell h) row in
  match applicationNumberCell with
  | None => (None, [])
  | Some applicationNumberCell =>
      let applicationNumber := applicationNumberText applicationNumberCell in
      if negb (RegExp.test applicationNumberRegex applicationNumber)
      then (None, [])
      else
        let found := foundMessage applicationNumber in
        match streetNameCell, suburbNameCell with
        | None, _ =>
            (None, [found; "Ignoring the development application because it has no street name cell."])
        | Some _, None =>
            (None, [found; "Ignoring the development application because it has no suburb name cell."])
        | Some streetNameCell, Some suburbNameCell =>
            let streetName := cellText streetNameCell in
            let suburbName := cellText suburbNameCell in
            if String.eqb streetName ""
            then (None, [found; "Ignoring the development application because it has no street name."])
            else if String.eqb suburbName ""
            then (None, [found; "Ignoring the development application because it has no suburb name."])
            else
              let address := formatAddress (streetName ++ ", " ++ suburbName)%string in
              if String.eqb address ""
              then (None, [found; "Ignoring the development application because the address is blank."])
              else
                (Some (makeApplication url applicationNumber address
                         descriptionCell receivedDateCell legalDescriptionCell),
                 [found])
        end
  end.

(** The loop over the rows. *)
Fixpoint processRows (url : string) (h : Headings) (rows : list (list Cell))
  : list DevelopmentApplication * list string :=
  match rows with
  | [] => ([], [])
  | row :: rest =>
      let '(application, log) := processRow url h row in
      let '(applications, logs) := processRows url h rest in
      (match application with
       | Some a => a :: applications
       | None => applications
       end, log ++ logs)
  end.

(** [elements.map(element => `[${element.text}]`).join("")] *)
Definition elementSummary (elements : list Element) : string :=
  Str.join "" (map (fun element => ("[" ++ text element ++ "]")%string) elements).

Definition noRowsMessage (elements : list Element) : string :=
  ("No development applications can be parsed from the current page because no rows were found (based on the grid).  Elements: "
   ++ elementSummary elements)%string.

Definition noHeadingMessage (heading : string) (elements : list Element) : string :=
  ("No development applications can be parsed from the current page because the "
   ++ String "034" (heading ++ String "034" (" column heading was not found.  Elements: "
   ++ elementSummary elements)))%string.

(** The cells of a page as the row loop sees them: inverted, sorted and
    with their elements allocated. *)
Definition sortedElements (elements : list Element) : list Element :=
  Arr.sort elementComparer (map invertElement elements).

Definition boundCells (cells : list Cell) (elements : list Element) : list Cell :=
  allocateElements (Arr.sort cellComparer (map invertCell cells))
                   (sortedElements elements).

Definition headingsOf (cells : list Cell) : Headings :=
  {| applicationNumberHeadingCell := findHeadingCell "d/anumber" cells;
     receivedDateHeadingCell := findHeadingCell "received" cells;
     legalDescriptionHeadingCell := findLegalDescriptionHeadingCell cells;
     streetNameHeadingCell := findHeadingCell "streetname" cells;
     suburbNameHeadingCell := findHeadingCell "town" cells;
     descriptionHeadingCell := findHeadingCell "proposal" cells |}.

(** The four diagnostics with which a page can be skipped. *)
Definition skipMessages (elements0 : list Element) : list string :=
  [noRowsMessage (sortedElements elements0);
   noHeadingMessage "D/A Number" (sortedElements elements0);
   noHeadingMessage "Street Name" (sortedElements elements0);
   noHeadingMessage "Town" (sortedElements elements0)].

(** The body of the loop over the pages, from the cells and the text
    elements of the page. *)
Definition processPage (url : string) (cells0 : list Cell) (elements0 : list Element)
  : list DevelopmentApplication * list string :=
  let elements := sortedElements elements0 in
  let cells := boundCells cells0 elements0 in
  let rows := groupRows cells in
  match rows with
  | [] => ([], [noRowsMessage elements])
  | _ :: _ =>
      let rows := sortRows rows in
      let h := headingsOf cells in
      match applicationNumberHeadingCell h with
      | None => ([], [noHeadingMessage "D/A Number" elements])
      | Some _ =>
          match streetNameHeadingCell h with
          | None => ([], [noHeadingMessage "Street Name" elements])
          | Some _ =>
              match suburbNameHeadingCell h with
              | None => ([], [noHeadingMessage "Town" elements])
              | Some _ => processRows url h rows
              end
          end
      end
  end.

(** A page of the document: its operator list and its text elements
    (what [parseElements] returns). *)
Record Page : Type := mkPage {
  operators : list Operator;
  pageElements : list Element
}.

Definition readingPageMessage (pageIndex numPages : nat) : string :=
  ("Reading and parsing applications from page " ++ numberToString (pageIndex + 1)
   ++ " of " ++ numberToString numPages ++ ".")%string.

(** One page; [None] when [parseCells] throws. *)
Definition parsePage (url : string) (page : Page)
  : option (list DevelopmentApplication * list string) :=
  match parseCells (operators page) with
  | None => None
  | Some cells => Some (processPage url cells (pageElements page))
  end.

(** The loop over the pages: the applications of all pages, and the
    log. *)
Fixpoint parsePages (url : string) (numPages pageIndex : nat) (pages : list Page)
  : option (list DevelopmentApplication * list string) :=
  match pages with
  | [] => Some ([], [])
  | page :: rest =>
      match parsePage url page with
      | None => None
      | Some (applications, log) =>
          match parsePages url numPages (S pageIndex) rest with
          | None => None
          | Some (developmentApplications, logs) =>
              Some (applications ++ developmentApplications,
                    readingPageMessage pageIndex numPages :: log ++ logs)
          end
      end
  end.

Definition parsePdf (url : string) (pages : list Page)
  : option (list DevelopmentApplication * list string) :=
  match parsePages url (List.length pages) 0 pages with
  | None => None
  | Some (developmentApplications, log) =>
      Some (developmentApplications,
            ("Reading development applications from " ++ url ++ ".")%string :: log)
  end.

End Engine.

(* ===================================================================== *)
(** ** Executable instances of the two library calls *)
(* ===================================================================== *)

(** [didyoumean2] as its documentation describes it for the options of
    the source: the input and every candidate are normalised (trimmed,
    runs of whitespace turned into one space, lower case), compared by
    their Levenshtein distance, and the first of the closest candidates
    within the threshold is returned as it stands in the list. *)
Module DidYouMean.

Fixpoint leven (s : list ascii) : list ascii -> nat :=
  match s with
  | [] => fun t => List.length t
  | a :: s' =>
      fix inner (t : list ascii) : nat :=
        match t with
        | [] => S (List.length s')
        | b :: t' =>
            if Ascii.eqb a b then leven s' t'
            else S (Nat.min (leven s' t') (Nat.min (leven s' t) (inner t')))
        end
  end.

(** [s.replace(/\s+/g, " ")] *)
Fixpoint squeeze (inRun : bool) (s : string) : string :=
  match s with
  | EmptyString => EmptyString
  | String c s' =>
      if Str.isWhitespace c
      then if inRun then squeeze true s' else String " " (squeeze true s')
      else String c (squeeze false s')
  end.

Definition normalize (s : string) : string :=
  Str.toLowerCase (squeeze false (Str.trim s)).

Definition score (input candidate : string) : nat :=
  leven (list_ascii_of_string (normalize input))
        (list_ascii_of_string (normalize candidate)).

(** The first candidate with the least score not above the threshold. *)
Fixpoint firstClosest (input : string) (threshold : nat)
    (best : option (nat * string)) (matchList : list string) : option string :=
  match matchList with
  | [] => option_map snd best
  | candidate :: rest =>
      let d := score input candidate in
      let better :=
        match best with
        | None => d <=? threshold
        | Some (b, _) => d <? b
        end in
      firstClosest input threshold
        (if better then Some (d, candidate) else best) rest
  end.

Definition didyoumean2 (input : string) (matchList : list string)
    (threshold : nat) : option string :=
  firstClosest input threshold None matchList.

End DidYouMean.

(** [moment(text, "D/MM/YYYY", true)] followed by [format("YYYY-MM-DD")]:
    one or two digits, a slash, two digits, a slash and four digits,
    naming a day that exists. *)
Module Moment.

Definition digitValue (c : ascii) : nat := nat_of_ascii c - 48.

Fixpoint numberOf (acc : nat) (s : list ascii) : nat :=
  match s with
  | [] => acc
  | c :: s' => numberOf (acc * 10 + digitValue c) s'
  end.

Definition isLeapYear (year : nat) : bool :=
  ((year mod 4 =? 0) && negb (year mod 100 =? 0)) || (year mod 400 =? 0).

Definition daysInMonth (year month : nat) : nat :=
  match month with
  | 2 => if isLeapYear year then 29 else 28
  | 4 | 6 | 9 | 11 => 30
  | _ => 31
  end.

Definition validDate (day month year : nat) : bool :=
  (1 <=? month) && (month <=? 12) && (1 <=? day) && (day <=? daysInMonth year month).

Definition formatDate (d m yr : list ascii) : string :=
  let d2 := match d with [c] => ["0"%char; c] | _ => d end in
  string_of_list_ascii (yr ++ ["-"%char] ++ m ++ ["-"%char] ++ d2).

Definition parts (d m yr : list ascii) : option string :=
  if forallb Str.isDigit (d ++ m ++ yr)
     && validDate (numberOf 0 d) (numberOf 0 m) (numberOf 0 yr)
  then Some (formatDate d m yr) else None.

Definition strict (s : string) : option string :=
  match list_ascii_of_string s with
  | [d1; "/"; m1; m2; "/"; y1; y2; y3; y4]%char =>
      parts [d1] [m1; m2] [y1; y2; y3; y4]
  | [d1; d2; "/"; m1; m2; "/"; y1; y2; y3; y4]%char =>
      parts [d1; d2] [m1; m2] [y1; y2; y3; y4]
  | _ => None
  end.

End Moment.

(* ===================================================================== *)
(** ** A sample register page *)
(* ===================================================================== *)

Module Sample.

Definition StreetNames : list (string * list string) :=
  [("MAIN STREET", ["CUMMINS"]); ("SMYTH ROAD", ["COFFIN BAY"])].
Definition StreetSuffixes : list (string * string) :=
  [("ST", "STREET"); ("RD", "ROAD")].
Definition SuburbNames : list (string * string) :=
  [("CUMMINS", "CUMMINS SA 5631"); ("COFFIN BAY", "COFFIN BAY SA 5607")].

Definition url : string := "https://example.org/register.pdf".
Definition today : string := "2019-02-27".

(** A filled rectangle. *)
Definition filledRectangle (x0 y0 w h : Q) : list Operator :=
  [ConstructPath [RectangleOp] [x0; y0; w; h]; Fill].

(** Three horizontal and four vertical rules: two rows of three cells. *)
Definition gridOperators : list Operator :=
  filledRectangle 0 100 300 1 ++ filledRectangle 0 80 300 1
  ++ filledRectangle 0 60 300 1
  ++ filledRectangle 0 60 1 40 ++ filledRectangle 100 60 1 40
  ++ filledRectangle 200 60 1 40 ++ filledRectangle 300 60 1 40.

(** The lines that [gridOperators] commits. *)
Definition rule (x0 y0 w h : Q) : Shape :=
  Rect {| x := x0; y := y0; width := w; height := h |}.

Definition gridLines : list Shape :=
  [rule 0 100 300 1; rule 0 80 300 1; rule 0 60 300 1;
   rule 0 60 1 40; rule 100 60 1 40; rule 200 60 1 40; rule 300 60 1 40].

Definition textAt (t : string) (x0 y0 : Q) : Element :=
  {| text := t;
     elementBounds := {| x := x0; y := y0; width := 50%Q; height := 10%Q |} |}.

Definition headingElements : list Element :=
  [textAt "D/A Number" 10 85; textAt "Street Name" 110 85; textAt "Town" 210 85].

Definition page (street suburb : string) : Page :=
  {| operators := gridOperators;
     pageElements :=
       headingElements
       ++ [textAt "5/10/21" 10 65; textAt street 110 65; textAt suburb 210 65] |}.

(** A horizontal rule drawn under a transform that flips the vertical
    axis, [[1, 0, 0, -1, 0, 792]]. *)
Definition flippedOperators : list Operator :=
  TransformOp {| ta := 1; tb := 0; tc := 0; td := -1; te := 0; tf := 792 |}
  :: filledRectangle 0 100 300 1.

Definition flippedLine : Rectangle :=
  {| x := 0; y := 692; width := 300; height := -1 |}.

(** Two cells with the same bounds, and a text element inside both. *)
Definition emptyCellAt (x0 y0 w h : Q) : Cell :=
  {| elements := [];
     cellBounds := {| x := x0; y := y0; width := w; height := h |} |}.

Definition overlappingCells : list Cell :=
  [emptyCellAt 0 0 100 20; emptyCellAt 0 0 100 20].

(** A heading cell whose label is drawn as two text elements. *)
Definition splitHeadingCell : Cell :=
  {| elements := [textAt "D/A" 10 85; textAt "Number" 40 85];
     cellBounds := {| x := 0; y := 80; width := 100; height := 20 |} |}.

(** The heading cells and a data row of the sample page as the row loop
    sees them, and the same with a fourth column for the received date. *)
Definition cellWith (t : string) (x0 y0 : Q) : Cell :=
  {| elements := [textAt t (x0 + 10) (y0 + 5)];
     cellBounds := {| x := x0; y := y0; width := 100; height := 20 |} |}.

Definition headings : Headings :=
  {| applicationNumberHeadingCell := Some (cellWith "D/A Number" 0 (-100));
     receivedDateHeadingCell := None;
     legalDescriptionHeadingCell := None;
     streetNameHeadingCell := Some (cellWith "Street Name" 100 (-100));
     suburbNameHeadingCell := Some (cellWith "Town" 200 (-100));
     descriptionHeadingCell := None |}.

Definition headingsWithDate : Headings :=
  {| applicationNumberHeadingCell := Some (cellWith "D/A Number" 0 (-100));
     receivedDateHeadingCell := Some (cellWith "Received" 300 (-100));
     legalDescriptionHeadingCell := None;
     streetNameHeadingCell := Some (cellWith "Street Name" 100 (-100));
     suburbNameHeadingCell := Some (cellWith "Town" 200 (-100));
     descriptionHeadingCell := None |}.

Definition dataRow (identifier street suburb : string) : list Cell :=
  [cellWith identifier 0 (-80); cellWith street 100 (-80); cellWith suburb 200 (-80)].

Definition dataRowWithDate (identifier street suburb date : string) : list Cell :=
  dataRow identifier street suburb ++ [cellWith date 300 (-80)].

Definition processSampleRow (h : Headings) (row : list Cell) :=
  processRow DidYouMean.didyoumean2 Moment.strict
             StreetNames StreetSuffixes SuburbNames today url h row.

(** The record of an application without description, received date
    and legal description. *)
Definition application (identifier addr : string) : DevelopmentApplication :=
  {| applicationNumber := identifier;
     address := addr;
     description := "No Description Provided";
     informationUrl := url;
     commentUrl := CommentUrl;
     scrapeDate := today;
     receivedDate := "";
     legalDescription := "" |}.

(** A page without any drawing: text only. *)
Definition textOnlyPage : Page :=
  {| operators := []; pageElements := [textAt "Development Register" 10 700] |}.

(** A page whose operator list starts with two restores and then
    composes a transform. *)
Definition brokenPage : Page :=
  {| operators :=
       [Restore; Restore;
        TransformOp {| ta := 1; tb := 0; tc := 0; td := -1; te := 0; tf := 792 |}];
     pageElements := headingElements |}.

Definition parse (pages : list Page) :=
  parsePdf DidYouMean.didyoumean2 Moment.strict
           StreetNames StreetSuffixes SuburbNames today url pages.

End Sample.

(* ===================================================================== *)
(** ** Reading the gazetteer ([readAddressInformation]) *)
(* ===================================================================== *)

Module Text.

(** [s.split(sep)] for a separator of one character; never the empty
    array. *)
Fixpoint splitOn (sep : ascii) (s : string) : list string :=
  match s with
  | EmptyString => [EmptyString]
  | String c s' =>
      if Ascii.eqb c sep then EmptyString :: splitOn sep s'
      else match splitOn sep s' with
           | [] => [String c EmptyString]
           | p :: rest => String c p :: rest
           end
  end.

(** [s.replace(/c/g, "")] for one character. *)
Fixpoint removeChar (c : ascii) (s : string) : string :=
  match s with
  | EmptyString => EmptyString
  | String d s' =>
      if Ascii.eqb d c then removeChar c s' else String d (removeChar c s')
  end.

(** [s.includes(needle)] *)
Fixpoint includes (needle s : string) : bool :=
  String.prefix needle s
  || match s with
     | EmptyString => false
     | String _ s' => includes needle s'
     end.

End Text.

Module Gazetteer.

(** [table[key] = value]: the value of an existing key is replaced where
    it stands, a new key goes to the end. *)
Fixpoint assign (V : Type) (key : string) (value : V) (table : list (string * V))
  : list (string * V) :=
  match table with
  | [] => [(key, value)]
  | (k, v) :: rest =>
      if String.eqb k key then (k, value) :: rest
      else (k, v) :: assign key value rest
  end.

(** [(table[key] || (table[key] = [])).push(value)] *)
Fixpoint pushTo (key value : string) (table : list (string * list string))
  : list (string * list string) :=
  match table with
  | [] => [(key, [value])]
  | (k, values) :: rest =>
      if String.eqb k key then (k, values ++ [value]) :: rest
      else (k, values) :: pushTo key value rest
  end.

(** [content.replace(/\r/g, "").trim().split("\n")], for the text of a
    file. *)
Definition fileLines (content : string) : list string :=
  Text.splitOn "010" (Str.trim (Text.removeChar "013" content)).

(** [line.toUpperCase().split(",")] *)
Definition lineTokens (line : string) : list string :=
  Text.splitOn "," (Str.toUpperCase line).

(** The first two tokens of a line, trimmed; [None] when the second is
    [undefined], in which case its [trim()] throws. *)
Definition lineEntry (line : string) : option (string * string) :=
  match lineTokens line with
  | token0 :: token1 :: _ => Some (Str.trim token0, Str.trim token1)
  | _ => None
  end.

(** The loop over the lines of [streetnames.txt]. *)
Fixpoint readStreetNames (lines : list string) (StreetNames : list (string * list string))
  : option (list (string * list string)) :=
  match lines with
  | [] => Some StreetNames
  | line :: rest =>
      match lineEntry line with
      | Some (streetName, suburbName) =>
          readStreetNames rest (pushTo streetName suburbName StreetNames)
      | None => None
      end
  end.

(** The loop over the lines of [streetsuffixes.txt]. *)
Fixpoint readStreetSuffixes (lines : list string) (StreetSuffixes : list (string * string))
  : option (list (string * string)) :=
  match lines with
  | [] => Some StreetSuffixes
  | line :: rest =>
      match lineEntry line with
      | Some (abbreviation, suffix) =>
          readStreetSuffixes rest (assign abbreviation suffix StreetSuffixes)
      | None => None
      end
  end.

(** The body of the loop over the lines of [suburbnames.txt], once the
    tokens are known. *)
Definition addSuburb (suburbName canonical : string) (SuburbNames : list (string * string))
  : list (string * string) :=
  let SuburbNames := assign suburbName canonical SuburbNames in
  if String.prefix "MOUNT " suburbName
  then
    let rest := Str.substringFrom 6 suburbName in
    assign ("MT. " ++ rest)%string canonical
      (assign ("MT." ++ rest)%string canonical
         (assign ("MT " ++ rest)%string canonical SuburbNames))
  else SuburbNames.

Fixpoint readSuburbNames (lines : list string) (SuburbNames : list (string * string))
  : option (list (string * string)) :=
  match lines with
  | [] => Some SuburbNames
  | line :: rest =>
      match lineEntry line with
      | Some (suburbName, canonical) =>
          readSuburbNames rest (addSuburb suburbName canonical SuburbNames)
      | None => None
      end
  end.

(** [readAddressInformation], from the texts of the three files: the
    three tables, or [None] when a line makes it throw. *)
Definition readAddressInformation (streetnames streetsuffixes suburbnames : string)
  : option (list (string * list string) * list (string * string) * list (string * string)) :=
  match readStreetNames (fileLines streetnames) [] with
  | None => None
  | Some StreetNames =>
      match readStreetSuffixes (fileLines streetsuffixes) [] with
      | None => None
      | Some StreetSuffixes =>
          match readSuburbNames (fileLines suburbnames) [] with
          | None => None
          | Some SuburbNames => Some (StreetNames, StreetSuffixes, SuburbNames)
          end
      end
  end.

(** The suburbs that the lines list for a street, in the order of the
    lines, and the keys under which a line files a suburb. *)
Definition suburbsOfStreet (streetName : string) (lines : list string) : list string :=
  flat_map (fun line =>
              match lineEntry line with
              | Some (street, suburb) =>
                  if String.eqb street streetName then [suburb] else []
              | None => []
              end) lines.

Definition suburbKeys (suburbName : string) : list string :=
  suburbName
  :: (if String.prefix "MOUNT " suburbName
      then [("MT " ++ Str.substringFrom 6 suburbName)%string;
            ("MT." ++ Str.substringFrom 6 suburbName)%string;
            ("MT. " ++ Str.substringFrom 6 suburbName)%string]
      else []).

End Gazetteer.

(* ===================================================================== *)
(** ** Choosing the documents ([getRandom] and [main]) *)
(* ===================================================================== *)

(** [getRandom(minimum, maximum)], given the value of [Math.random()]. *)
Definition getRandom (random minimum maximum : Q) : Z :=
  (Qfloor (random * inject_Z (Qfloor maximum - Qceiling minimum)) + Qceiling minimum)%Z.

(** One turn of the loop of [main] over the links of the page, from the
    resolved address of the link. *)
Definition addPdfUrl (pdfUrls : list string) (pdfUrl : string) : list string :=
  if Text.includes "register" (Str.toLowerCase pdfUrl)
     && Text.includes ".pdf" (Str.toLowerCase pdfUrl)
  then if negb (existsb (String.eqb pdfUrl) pdfUrls)
       then pdfUrls ++ [pdfUrl]
       else pdfUrls
  else pdfUrls.

Definition collectPdfUrls (hrefs : list string) : list string :=
  fold_left addPdfUrl hrefs [].

(** [array[index]] for a number that may be out of range. *)
Definition elementAt (A : Type) (l : list A) (index : Z) : option A :=
  if (index <? 0)%Z then None else nth_error l (Z.to_nat index).

(** The documents that [main] parses, in order: the most recent one and
    one other picked at random, swapped at random; [None] when there is
    no document.  An entry is [None] where the source would pick
    [undefined]. *)
Definition selectPdfUrls (pdfUrls : list string) (random1 random2 : Q)
  : option (list (option string)) :=
  match pdfUrls with
  | [] => None
  | _ :: _ =>
      let selectedPdfUrls := [Some (last pdfUrls "")] in
      let pdfUrls := removelast pdfUrls in
      let selectedPdfUrls :=
        if 0 <? List.length pdfUrls
        then selectedPdfUrls
             ++ [elementAt pdfUrls
                   (getRandom random1 0 (inject_Z (Z.of_nat (List.length pdfUrls))))]
        else selectedPdfUrls in
      Some (if (getRandom random2 0 2 =? 0)%Z then rev selectedPdfUrls
            else selectedPdfUrls)
  end.

(* ===================================================================== *)
(** ** Notions used to state further properties *)
(* ===================================================================== *)

(** The operators that commit the pending rectangle. *)
Definition isFill (op : Operator) : bool :=
  match op with
  | Fill | EoFill => true
  | _ => false
  end.

(** The number of transforms that a run of operators leaves on the stack
    above the [depth] it starts with; [None] when a [restore] of the run
    would pop below that start. *)
Fixpoint depthAfter (depth : nat) (operators : list Operator) : option nat :=
  match operators with
  | [] => Some depth
  | Save :: rest => depthAfter (S depth) rest
  | Restore :: rest =>
      match depth with
      | O => None
      | S d => depthAfter d rest
      end
  | _ :: rest => depthAfter depth rest
  end.

(** The number of text elements held by the cells of a list, and the
    first cell of each row. *)
Definition boundElementCount (cells : list Cell) : nat :=
  List.length (List.concat (map elements cells)).


(** A row in which every cell is within 2 units of its first cell. *)
Definition rowAligned (row : list Cell) : Prop :=
  exists first rest,
    row = first :: rest
    /\ Forall (fun c : Cell => (Qabs (y first - y c) < 2)%Q) row.


(** What every record that the scraper emits satisfies. *)
Definition wellFormedApplication (url today : string) (app : DevelopmentApplication) : Prop :=
  containsApplicationNumber (applicationNumber app)
  /\ address app <> ""
  /\ description app <> ""
  /\ informationUrl app = url
  /\ commentUrl app = CommentUrl
  /\ scrapeDate app = today.

(** The log entries that reject a row. *)
Definition isIgnoringMessage (message : string) : bool :=
  String.prefix "Ignoring the development application because " message.

(** The records of a page, none when the page fails. *)
Definition pageApplications
    (result : option (list DevelopmentApplication * list string))
  : list DevelopmentApplication :=
  match result with
  | Some (applications, _) => applications
  | None => []
  end.

(** Whether a text contains a comma. *)
Definition hasComma (s : string) : Prop :=
  In ","%char (list_ascii_of_string s).

(** The value of [argumentIndex] after a run of sub-operations. *)
Fixpoint argumentIndexAfter (ops : list PathOp) : nat :=
  match ops with
  | [] => 0
  | MoveTo :: rest | LineTo :: rest => 2 + argumentIndexAfter rest
  | RectangleOp :: rest => 4 + argumentIndexAfter rest
  | OtherPathOp :: rest => argumentIndexAfter rest
  end.

(** Where a recorded rectangle comes from: a rectangle sub-operation of
    a [constructPath] of the page, read at the argument index that the
    sub-operations before it leave, under the transform that is current
    when the walk reaches that operator.  [corner1] and [corner2] are the
    two transformed corners; the rectangle is the first corner with the
    differences of the corners as its width and height. *)
Definition recordedAs (operators : list Operator) (r : Rectangle)
    (corner1 corner2 : Q * Q) : Prop :=
  exists k ops args s t before after x1 y1 w h,
    nth_error operators k = Some (ConstructPath ops args)
    /\ runOperators initialLineState (firstn k operators) = Some s
    /\ transform s = Some t
    /\ ops = before ++ RectangleOp :: after
    /\ nth_error args (argumentIndexAfter before) = Some x1
    /\ nth_error args (argumentIndexAfter before + 1) = Some y1
    /\ nth_error args (argumentIndexAfter before + 2) = Some w
    /\ nth_error args (argumentIndexAfter before + 3) = Some h
    /\ corner1 = applyTransform (x1, y1) t
    /\ corner2 = applyTransform ((x1 + w)%Q, (y1 + h)%Q) t
    /\ r = {| x := fst corner1; y := snd corner1;
              width := (fst corner2 - fst corner1)%Q;
              height := (snd corner2 - snd corner1)%Q |}.

(** A rectangle that is pending or committed was recorded by a
    rectangle sub-operation of the operators walked so far. *)
Definition allRecorded (done : list Operator) (s : LineState) : Prop :=
  forall r,
    In (Rect r) (lines s) \/ previousRectangle s = Some (Rect r) ->
    exists c1 c2, recordedAs done r c1 c2.

(* ===================================================================== *)
(** * Properties *)
(* ===================================================================== *)

(** ** Checks of the string helpers and of the library instances *)

Example trim_example : Str.trim "  22 SMYTH RD " = "22 SMYTH RD".
Proof. reflexivity. Qed.

Example collapse_example :
  Str.collapseWhitespace ("a   b c" ++ String "009" "d")%string
  = ("a b c" ++ String "009" "d")%string.
Proof. reflexivity. Qed.

Example split_example : Str.splitSpace "22 SMYTH  RD" = ["22"; "SMYTH"; ""; "RD"].
Proof. reflexivity. Qed.

Example replace_example :
  Str.replaceAll " TCE NTH" " TERRACE NORTH" "1 A TCE NTH, X TCE NTH"
  = "1 A TERRACE NORTH, X TERRACE NORTH".
Proof. reflexivity. Qed.

Example lastIndexOf_example :
  Str.lastIndexOf "," "a,b,c" = 3%Z /\ Str.lastIndexOf "," "abc" = (-1)%Z.
Proof. split; reflexivity. Qed.

Example applicationNumber_example :
  RegExp.test applicationNumberRegex "910/144/16" = true
  /\ RegExp.test applicationNumberRegex "ABC123" = false
  /\ RegExp.test applicationNumberRegex "910/144/" = false.
Proof. repeat split; reflexivity. Qed.

Example leven_example :
  DidYouMean.score "Cumins " "CUMMINS" = 1
  /\ DidYouMean.didyoumean2 "CUMINS" ["COFFIN BAY"; "CUMMINS"; "CUMMINGS"] 2 = Some "CUMMINS"
  /\ DidYouMean.didyoumean2 "ZZZZ" ["COFFIN BAY"; "CUMMINS"] 2 = None.
Proof. repeat split; reflexivity. Qed.

Example moment_example :
  Moment.strict "5/02/2019" = Some "2019-02-05"
  /\ Moment.strict "29/02/2019" = None
  /\ Moment.strict "5/2/2019" = None
  /\ Moment.strict "05/02/19" = None.
Proof. repeat split; reflexivity. Qed.

(** The end-to-end behaviour on a page with one application. *)
Example sample_page_one_application :
  option_map fst (Sample.parse [Sample.page "1 MAIN ST" "CUMINS"])
  = Some [ {| applicationNumber := "5/10/21";
              address := "1 MAIN STREET, CUMMINS SA 5631";
              description := "No Description Provided";
              informationUrl := Sample.url;
              commentUrl := CommentUrl;
              scrapeDate := Sample.today;
              receivedDate := "";
              legalDescription := "" |} ].
Proof. vm_compute. reflexivity. Qed.

(** ** Comparisons on numbers *)

Module NumFacts.

Lemma ltb_lt a b : Num.ltb a b = true <-> (a < b)%Q.
Proof.
  unfold Num.ltb. rewrite negb_true_iff. split; intros H.
  - apply Qnot_le_lt. intros Hle. apply Qle_bool_iff in Hle. congruence.
  - destruct (Qle_bool b a) eqn:E; [|reflexivity].
    apply Qle_bool_iff in E. lra.
Qed.

Lemma gtb_gt a b : Num.gtb a b = true <-> (b < a)%Q.
Proof. apply (ltb_lt b a). Qed.

Lemma leb_le a b : Num.leb a b = true <-> (a <= b)%Q.
Proof. apply Qle_bool_iff. Qed.

Lemma geb_ge a b : Num.geb a b = true <-> (b <= a)%Q.
Proof. apply Qle_bool_iff. Qed.

Lemma gtb_false a b : Num.gtb a b = false <-> (a <= b)%Q.
Proof.
  unfold Num.gtb. rewrite negb_false_iff. apply Qle_bool_iff.
Qed.

End NumFacts.

(** ** The regular-expression matcher decides the language *)

Module RegExpFacts.
Import RegExp.
Local Open Scope list_scope.

#[local] Hint Constructors Matches : core.

Ltac inv H := inversion H; subst; clear H.

Lemma cat_inv r1 r2 s :
  Matches (Cat r1 r2) s ->
  exists s1 s2, s = s1 ++ s2 /\ Matches r1 s1 /\ Matches r2 s2.
Proof.
  intros H. remember (Cat r1 r2) as r eqn:Er.
  destruct H; try discriminate. inversion Er; subst. eauto.
Qed.

Lemma nullable_spec r : nullable r = true <-> Matches r [].
Proof.
  induction r; simpl; split; intros H; try discriminate; auto.
  - inv H.
  - inv H.
  - apply andb_true_iff in H as [H1 H2].
    change (@nil ascii) with (@nil ascii ++ []). apply MCat; tauto.
  - apply cat_inv in H as (s1 & s2 & E & M1 & M2). symmetry in E.
    apply app_eq_nil in E as [-> ->]. apply andb_true_iff. tauto.
  - apply orb_true_iff in H as [H|H]; [apply MAltL | apply MAltR]; tauto.
  - apply orb_true_iff. inv H; tauto.
Qed.

(** A non-empty word of [Star r] starts with a non-empty word of [r]. *)
Lemma star_cons_inv r c s :
  Matches (Star r) (c :: s) ->
  exists s1 s2, s = s1 ++ s2 /\ Matches r (c :: s1) /\ Matches (Star r) s2.
Proof.
  intros H. remember (Star r) as r' eqn:Er. remember (c :: s) as w eqn:Ew.
  revert c s Ew.
  induction H as [| | | | | |r0 s1 s2 M1 _ M2 IH2]; intros c' s' Ew;
    try discriminate.
  inversion Er; subst r0.
  destruct s1 as [|a s1]; simpl in Ew.
  - eauto.
  - inversion Ew; subst. exists s1, s2. auto.
Qed.

Lemma cat_cons_inv r1 r2 c s :
  Matches (Cat r1 r2) (c :: s) ->
  (exists s1 s2, s = s1 ++ s2 /\ Matches r1 (c :: s1) /\ Matches r2 s2)
  \/ (Matches r1 [] /\ Matches r2 (c :: s)).
Proof.
  intros H. apply cat_inv in H as (s1 & s2 & E & M1 & M2).
  destruct s1 as [|a s1]; simpl in *.
  - right. subst. auto.
  - left. inversion E; subst. eauto.
Qed.

Lemma cat_cons_intro r1 r2 c s1 s2 :
  Matches r1 (c :: s1) -> Matches r2 s2 -> Matches (Cat r1 r2) (c :: s1 ++ s2).
Proof.
  intros H1 H2. change (c :: s1 ++ s2) with ((c :: s1) ++ s2). auto.
Qed.

Lemma deriv_spec c r s : Matches (deriv c r) s <-> Matches r (c :: s).
Proof.
  revert s. induction r; intros s; simpl.
  - split; intros H; inv H.
  - split; intros H; inv H.
  - destruct (p c) eqn:E; split; intros H; inv H; auto; congruence.
  - destruct (nullable r1) eqn:N.
    + split; intros H.
      * inv H.
        -- match goal with M : Matches (Cat _ _) _ |- _ => inv M end.
           apply cat_cons_intro; [apply IHr1|]; assumption.
        -- change (c :: s) with ([] ++ c :: s).
           apply MCat; [apply nullable_spec; exact N | apply IHr2; assumption].
      * apply cat_cons_inv in H as [(s1 & s2 & -> & H1 & H2)|[H1 H2]].
        -- apply MAltL. apply MCat; [apply IHr1|]; assumption.
        -- apply MAltR. apply IHr2. assumption.
    + split; intros H.
      * inv H. apply cat_cons_intro; [apply IHr1|]; assumption.
      * apply cat_cons_inv in H as [(s1 & s2 & -> & H1 & H2)|[H1 H2]].
        -- apply MCat; [apply IHr1|]; assumption.
        -- apply nullable_spec in H1. congruence.
  - split; intros H; inv H.
    + apply MAltL, IHr1; assumption.
    + apply MAltR, IHr2; assumption.
    + apply MAltL, IHr1; assumption.
    + apply MAltR, IHr2; assumption.
  - split; intros H.
    + inv H. change (c :: s1 ++ s2) with ((c :: s1) ++ s2).
      apply MStarApp; [apply IHr|]; assumption.
    + apply star_cons_inv in H as (s1 & s2 & -> & H1 & H2).
      apply MCat; [apply IHr|]; assumption.
Qed.

Lemma accepts_spec r s : accepts r s = true <-> Matches r s.
Proof.
  revert r. induction s as [|c s IH]; intros r; simpl.
  - apply nullable_spec.
  - rewrite IH. apply deriv_spec.
Qed.

Lemma matches_star_any s : Matches (Star AnyChar) s.
Proof.
  induction s as [|c s IH]; [constructor|].
  change (c :: s) with ([c] ++ s). apply MStarApp; [|exact IH].
  constructor. reflexivity.
Qed.

Lemma class_inv p s : Matches (Class p) s -> exists c, s = [c] /\ p c = true.
Proof.
  intros H. remember (Class p) as r eqn:Er.
  destruct H; try discriminate. inversion Er; subst. eauto.
Qed.

Lemma matches_star_class p s :
  Matches (Star (Class p)) s <-> forallb p s = true.
Proof.
  split.
  - intros H. remember (Star (Class p)) as r eqn:Er.
    induction H as [| | | | | |r0 s1 s2 M1 _ M2 IH2]; try discriminate;
      [reflexivity|].
    inversion Er; subst. apply class_inv in M1 as (c & -> & Hc). simpl.
    rewrite Hc. simpl. auto.
  - induction s as [|c s IH]; simpl; intros H; [constructor|].
    apply andb_true_iff in H as [Hc Hs].
    change (c :: s) with ([c] ++ s). apply MStarApp; auto.
Qed.

Lemma matches_plus_class p s :
  Matches (Plus (Class p)) s <-> s <> [] /\ forallb p s = true.
Proof.
  unfold Plus. split.
  - intros H. apply cat_inv in H as (s1 & s2 & -> & M1 & M2).
    apply class_inv in M1 as (c & -> & Hc).
    apply matches_star_class in M2. simpl. rewrite Hc, M2.
    split; [discriminate|reflexivity].
  - intros [Hne Hall]. destruct s as [|c s]; [congruence|].
    simpl in Hall. apply andb_true_iff in Hall as [Hc Hs].
    change (c :: s) with ([c] ++ s). apply MCat; [auto|].
    apply matches_star_class. exact Hs.
Qed.

Lemma matches_chr c s : Matches (Chr c) s <-> s = [c].
Proof.
  unfold Chr. split.
  - intros H. apply class_inv in H as (d & -> & Hd).
    apply Ascii.eqb_eq in Hd. congruence.
  - intros ->. constructor. apply Ascii.eqb_refl.
Qed.

Lemma matches_cat r1 r2 s :
  Matches (Cat r1 r2) s <->
  exists s1 s2, s = s1 ++ s2 /\ Matches r1 s1 /\ Matches r2 s2.
Proof.
  split.
  - apply cat_inv.
  - intros (s1 & s2 & -> & H1 & H2). auto.
Qed.

(** [test] is substring containment. *)
Lemma test_spec r s :
  test r s = true <->
  exists pre mid post,
    list_ascii_of_string s = pre ++ mid ++ post /\ Matches r mid.
Proof.
  unfold test. rewrite accepts_spec, matches_cat. split.
  - intros (pre & rest & E & _ & H).
    apply matches_cat in H as (mid & post & -> & H & _). eauto.
  - intros (pre & mid & post & E & H).
    exists pre, (mid ++ post). split; [exact E|]. split; [apply matches_star_any|].
    apply matches_cat. exists mid, post. auto using matches_star_any.
Qed.

End RegExpFacts.

(** ** Arrays: [find], update in place and [sort] *)

Module ArrFacts.
Section ArrFacts.
Variable A : Type.

Lemma findIndex_Some (p : A -> bool) (l : list A) (i : nat) :
  Arr.findIndex p l = Some i <->
  exists a, nth_error l i = Some a /\ p a = true
            /\ forall j b, j < i -> nth_error l j = Some b -> p b = false.
Proof.
  revert i. induction l as [|a l IH]; intros i; simpl.
  - split; [discriminate|]. intros (b & H & _). destruct i; discriminate.
  - destruct (p a) eqn:Pa.
    + split.
      * intros E. inversion E; subst. exists a. repeat split; auto. intros j b Hj. lia.
      * intros (b & Hn & Hb & Hmin). destruct i as [|i]; [reflexivity|].
        specialize (Hmin 0 a (Nat.lt_0_succ i) eq_refl). congruence.
    + destruct (Arr.findIndex p l) as [k|] eqn:F.
      * split.
        -- intros E. inversion E; subst.
           destruct (proj1 (IH k) eq_refl) as (b & Hn & Hb & Hmin).
           exists b. repeat split; auto.
           intros [|j] c Hj Hc; simpl in Hc; [congruence|]. apply (Hmin j); auto. lia.
        -- intros (b & Hn & Hb & Hmin). destruct i as [|i]; simpl in Hn; [congruence|].
           f_equal. assert (E : Some k = Some i); [|congruence].
           apply IH. exists b. repeat split; auto.
           intros j c Hj Hc. apply (Hmin (S j)); auto. lia.
      * split; [discriminate|].
        intros (b & Hn & Hb & Hmin). destruct i as [|i]; simpl in Hn; [congruence|].
        assert (E : None = Some i); [|discriminate].
        apply IH. exists b. repeat split; auto.
        intros j c Hj Hc. apply (Hmin (S j)); auto. lia.
Qed.

Lemma findIndex_None (p : A -> bool) (l : list A) :
  Arr.findIndex p l = None <-> forall a, In a l -> p a = false.
Proof.
  induction l as [|a l IH]; simpl.
  - split; auto. intros _ a [].
  - destruct (p a) eqn:Pa.
    + split; [discriminate|]. intros H. specialize (H a (or_introl eq_refl)). congruence.
    + destruct (Arr.findIndex p l) eqn:F.
      * split; [discriminate|]. intros H.
        assert (E : Some n = @None nat); [|discriminate].
        apply IH. auto.
      * split; auto. intros _ b [<-|Hb]; auto. apply IH; auto.
Qed.

Lemma find_findIndex (p : A -> bool) (l : list A) :
  find p l = match Arr.findIndex p l with
             | Some i => nth_error l i
             | None => None
             end.
Proof.
  induction l as [|a l IH]; simpl; [reflexivity|].
  destruct (p a); [reflexivity|]. rewrite IH.
  destruct (Arr.findIndex p l); reflexivity.
Qed.

Lemma length_updateAt (i : nat) (f : A -> A) (l : list A) :
  List.length (Arr.updateAt i f l) = List.length l.
Proof.
  revert i. induction l as [|a l IH]; intros [|i]; simpl; auto.
Qed.

Lemma nth_error_updateAt_eq (i : nat) (f : A -> A) (l : list A) :
  nth_error (Arr.updateAt i f l) i = option_map f (nth_error l i).
Proof.
  revert i. induction l as [|a l IH]; intros [|i]; simpl; auto.
Qed.

Lemma nth_error_updateAt_ne (i j : nat) (f : A -> A) (l : list A) :
  i <> j -> nth_error (Arr.updateAt i f l) j = nth_error l j.
Proof.
  revert i j. induction l as [|a l IH]; intros [|i] [|j] H; simpl; auto.
  congruence.
Qed.

Lemma insertSorted_perm (comparer : A -> A -> Z) (a : A) (l : list A) :
  Permutation (Arr.insertSorted comparer a l) (a :: l).
Proof.
  induction l as [|b l IH]; simpl; [reflexivity|].
  destruct (0 <? comparer a b)%Z; [|reflexivity].
  rewrite IH. apply perm_swap.
Qed.

Lemma sort_perm (comparer : A -> A -> Z) (l : list A) :
  Permutation (Arr.sort comparer l) l.
Proof.
  induction l as [|a l IH]; simpl; [reflexivity|].
  rewrite insertSorted_perm. constructor. exact IH.
Qed.

Lemma length_sort (comparer : A -> A -> Z) (l : list A) :
  List.length (Arr.sort comparer l) = List.length l.
Proof. apply Permutation_length, sort_perm. Qed.

(** For a comparer that follows a total preorder [le], the result is in
    order. *)
Section Ordered.
Variable comparer : A -> A -> Z.
Variable le : A -> A -> Prop.
Hypothesis comparer_after : forall a b, (0 < comparer a b)%Z -> le b a.
Hypothesis comparer_before : forall a b, (comparer a b <= 0)%Z -> le a b.

Lemma insertSorted_sorted (a : A) (l : list A) :
  Sorted le l -> Sorted le (Arr.insertSorted comparer a l).
Proof.
  induction l as [|b l IH]; intros Hs; simpl.
  - repeat constructor.
  - destruct (0 <? comparer a b)%Z eqn:E.
    + apply Z.ltb_lt in E. inversion Hs as [|? ? Hs' Hhd]; subst.
      constructor; [auto|].
      destruct l as [|c l]; simpl.
      * constructor. auto.
      * destruct (0 <? comparer a c)%Z.
        -- constructor. inversion Hhd; auto.
        -- constructor. auto.
    + apply Z.ltb_ge in E. constructor; [exact Hs|]. constructor. auto.
Qed.

Lemma sort_sorted (l : list A) : Sorted le (Arr.sort comparer l).
Proof.
  induction l as [|a l IH]; simpl; [constructor|].
  apply insertSorted_sorted. exact IH.
Qed.
End Ordered.

End ArrFacts.
End ArrFacts.

(** ** The grid builder *)

Lemma compareNumbers_after (a b : Q) : (0 < compareNumbers a b)%Z -> (b <= a)%Q.
Proof.
  unfold compareNumbers. destruct (Num.gtb a b) eqn:G.
  - intros _. apply NumFacts.gtb_gt in G. lra.
  - destruct (Num.ltb a b); lia.
Qed.

Lemma compareNumbers_before (a b : Q) : (compareNumbers a b <= 0)%Z -> (a <= b)%Q.
Proof.
  unfold compareNumbers. destruct (Num.gtb a b) eqn:G; [lia|].
  intros _. apply NumFacts.gtb_false in G. exact G.
Qed.

Lemma sortedHorizontalLines_sorted (lines : list Shape) :
  Sorted (fun a b => (y a <= y b)%Q) (sortedHorizontalLines lines).
Proof.
  apply ArrFacts.sort_sorted; intros a b.
  - apply compareNumbers_after.
  - apply compareNumbers_before.
Qed.

Lemma sortedVerticalLines_sorted (lines : list Shape) :
  Sorted (fun a b => (x a <= x b)%Q) (sortedVerticalLines lines).
Proof.
  apply ArrFacts.sort_sorted; intros a b.
  - apply compareNumbers_after.
  - apply compareNumbers_before.
Qed.

(** The position of a cell in the output of two nested loops whose inner
    loop always makes [n] turns. *)
Lemma nth_error_flat_map_seq (B : Type) (f : nat -> list B) (n : nat) :
  (forall i, List.length (f i) = n) ->
  forall m s i j, i < m -> j < n ->
    nth_error (flat_map f (seq s m)) (i * n + j) = nth_error (f (s + i)) j.
Proof.
  intros Hlen m. induction m as [|m IH]; intros s i j Hi Hj; [lia|].
  simpl. destruct i as [|i].
  - simpl. rewrite Nat.add_0_r. rewrite nth_error_app1; [reflexivity|].
    rewrite Hlen. exact Hj.
  - rewrite nth_error_app2; rewrite Hlen; [|simpl; lia].
    replace (S i * n + j - n) with (i * n + j) by (simpl; lia).
    rewrite IH by lia. f_equal. f_equal. lia.
Qed.

Lemma length_flat_map_seq (B : Type) (f : nat -> list B) (n : nat) :
  (forall i, List.length (f i) = n) ->
  forall m s, List.length (flat_map f (seq s m)) = m * n.
Proof.
  intros Hlen m. induction m as [|m IH]; intros s; simpl; [reflexivity|].
  rewrite length_app, Hlen, IH. reflexivity.
Qed.

Lemma constructCells_length (hs vs : list Rectangle) :
  List.length (constructCells hs vs) = (List.length hs - 1) * (List.length vs - 1).
Proof.
  unfold constructCells. apply length_flat_map_seq.
  intros i. rewrite length_map, length_seq. reflexivity.
Qed.

Lemma constructCells_nth (hs vs : list Rectangle) (i j : nat) :
  i < List.length hs - 1 -> j < List.length vs - 1 ->
  nth_error (constructCells hs vs) (i * (List.length vs - 1) + j)
  = Some (gridCell (nth i hs zeroRectangle) (nth (i + 1) hs zeroRectangle)
                   (nth j vs zeroRectangle) (nth (j + 1) vs zeroRectangle)).
Proof.
  intros Hi Hj. unfold constructCells.
  rewrite nth_error_flat_map_seq with (n := List.length vs - 1); auto.
  - simpl. rewrite nth_error_map, nth_error_nth' with (d := 0) by (rewrite length_seq; lia).
    rewrite seq_nth by lia. reflexivity.
  - intros k. rewrite length_map, length_seq. reflexivity.
Qed.

Example sample_grid_lines : parseLines Sample.gridOperators = Some Sample.gridLines.
Proof. vm_compute. reflexivity. Qed.

(** C4.  The grid builder sorts the horizontal lines by [y] and the
    vertical lines by [x].  For [H >= 2] horizontal and [V >= 2] vertical
    lines it produces exactly [(H-1) * (V-1)] cells: the cell at position
    [i * (V-1) + j] lies between the [i]-th and the next sorted horizontal
    line and between the [j]-th and the next sorted vertical line, its
    bounds running from the first line of each pair to the second.  For
    [H < 2] or [V < 2] it produces no cell. *)
Theorem buildCells_grid (lines : list Shape) :
  let hs := sortedHorizontalLines lines in
  let vs := sortedVerticalLines lines in
  let H := List.length (horizontalLinesOf lines) in
  let V := List.length (verticalLinesOf lines) in
  (Permutation hs (horizontalLinesOf lines)
   /\ Sorted (fun a b => (y a <= y b)%Q) hs)
  /\ (Permutation vs (verticalLinesOf lines)
      /\ Sorted (fun a b => (x a <= x b)%Q) vs)
  /\ (2 <= H -> 2 <= V ->
      List.length (buildCells lines) = (H - 1) * (V - 1)
      /\ forall i j, i < H - 1 -> j < V - 1 ->
           nth_error (buildCells lines) (i * (V - 1) + j)
           = Some {| elements := [];
                     cellBounds :=
                       {| x := x (nth j vs zeroRectangle);
                          y := y (nth i hs zeroRectangle);
                          width := (x (nth (j + 1) vs zeroRectangle)
                                    - x (nth j vs zeroRectangle))%Q;
                          height := (y (nth (i + 1) hs zeroRectangle)
                                     - y (nth i hs zeroRectangle))%Q |} |})
  /\ (H < 2 \/ V < 2 -> buildCells lines = []).
Proof.
  intros hs vs H V.
  assert (LH : List.length hs = H) by apply ArrFacts.length_sort.
  assert (LV : List.length vs = V) by apply ArrFacts.length_sort.
  split; [|split; [|split]].
  - split; [apply ArrFacts.sort_perm | apply sortedHorizontalLines_sorted].
  - split; [apply ArrFacts.sort_perm | apply sortedVerticalLines_sorted].
  - intros _ _. unfold buildCells. fold hs vs. split.
    + rewrite constructCells_length, LH, LV. reflexivity.
    + intros i j Hi Hj. rewrite <- LV. rewrite constructCells_nth; [reflexivity| |]; lia.
  - intros Hsmall. apply length_zero_iff_nil. unfold buildCells. fold hs vs.
    rewrite constructCells_length, LH, LV.
    destruct Hsmall as [Hlt|Hlt].
    + replace (H - 1) with 0 by lia. reflexivity.
    + replace (V - 1) with 0 by lia. lia.
Qed.

Lemma buildCells_grid_witness :
  List.length (buildCells Sample.gridLines) = 6
  /\ buildCells [Sample.rule 0 100 300 1] = [].
Proof.
  split.
  - apply (proj1 (proj2 (proj2 (buildCells_grid Sample.gridLines)))); vm_compute; lia.
  - apply (proj2 (proj2 (proj2 (buildCells_grid [Sample.rule 0 100 300 1])))).
    left. vm_compute. lia.
Defined.

(** ** The vector line extractor *)

Lemma horizontalLinesOf_In (lines : list Shape) (line : Rectangle) :
  In line (horizontalLinesOf lines) <->
  In (Rect line) lines /\ isHorizontalLine line = true.
Proof.
  induction lines as [|[r|] lines IH]; simpl.
  - tauto.
  - destruct (isHorizontalLine r) eqn:E; simpl; rewrite IH; split.
    + intros [->|[H1 H2]]; auto.
    + intros [[H1|H1] H2]; [inversion H1|]; auto.
    + intros [H1 H2]; auto.
    + intros [[H1|H1] H2]; [inversion H1; congruence|]; auto.
  - rewrite IH. split; [intros [H1 H2]; auto|].
    intros [[H1|H1] H2]; [discriminate|]; auto.
Qed.

Lemma verticalLinesOf_In (lines : list Shape) (line : Rectangle) :
  In line (verticalLinesOf lines) <->
  In (Rect line) lines /\ isVerticalLine line = true.
Proof.
  induction lines as [|[r|] lines IH]; simpl.
  - tauto.
  - destruct (isVerticalLine r) eqn:E; simpl; rewrite IH; split.
    + intros [->|[H1 H2]]; auto.
    + intros [[H1|H1] H2]; [inversion H1|]; auto.
    + intros [H1 H2]; auto.
    + intros [[H1|H1] H2]; [inversion H1; congruence|]; auto.
  - rewrite IH. split; [intros [H1 H2]; auto|].
    intros [[H1|H1] H2]; [discriminate|]; auto.
Qed.

(** The extractor does not fail on an operator list whose restores are
    matched: the current transform is then always defined. *)
Lemma constructPath_defined (ops : list PathOp) (args : list Q) (t : Transform) :
  forall argumentIndex previous,
    constructPath ops args (Some t) argumentIndex previous <> None.
Proof.
  induction ops as [|[| | |] ops IH]; intros i p; simpl; try apply IH. discriminate.
Qed.

Lemma runOperators_defined (operators : list Operator) :
  forall (s : LineState) (depth : nat),
    List.length (transformStack s) = depth ->
    Forall (fun t => t <> None) (transformStack s) ->
    transform s <> None ->
    restoresMatched depth operators = true ->
    runOperators s operators <> None.
Proof.
  induction operators as [|op operators IH]; intros s depth Hlen Hstack Ht Hm;
    [discriminate|].
  destruct s as [ls prev stack t]. simpl in Hlen, Hstack, Ht.
  destruct op; simpl in Hm |- *.
  - apply (IH _ (S depth)); simpl; auto.
  - destruct depth as [|d]; [discriminate|].
    destruct stack as [|t' stack]; [discriminate|]. inversion Hstack; subst.
    apply (IH _ d); simpl; auto.
  - destruct t as [t|]; [|congruence]. apply (IH _ depth); simpl; auto. discriminate.
  - destruct t as [t|]; [|congruence].
    destruct (constructPath ops args (Some t) 0 prev) as [p|] eqn:E.
    + apply (IH _ depth); simpl; auto.
    + exfalso. exact (constructPath_defined ops args t 0 prev E).
  - destruct prev; apply (IH _ depth); simpl; auto.
  - destruct prev; apply (IH _ depth); simpl; auto.
  - apply (IH _ depth); simpl; auto.
Qed.

(** X8.  On a page whose every restore finds a transform on the stack
    the extractor does not fail: it returns the committed lines. *)
Lemma parseLines_defined (operators : list Operator) :
  restoresMatched 1 operators = true ->
  exists lines, parseLines operators = Some lines.
Proof.
  intros Hm. unfold parseLines.
  destruct (runOperators initialLineState operators) as [s|] eqn:E.
  - eexists. reflexivity.
  - exfalso. apply (@runOperators_defined operators initialLineState 1); auto.
    + repeat constructor. discriminate.
    + discriminate.
Qed.

(** C5, as the claim states it, fails: under a transform with a negative
    vertical scale the committed rectangle has height [-1] and is
    classified as a horizontal line. *)
Lemma flipped_line_has_negative_height :
  parseLines Sample.flippedOperators = Some [Rect Sample.flippedLine]
  /\ In Sample.flippedLine (horizontalLinesOf [Rect Sample.flippedLine])
  /\ (height Sample.flippedLine < 0)%Q.
Proof.
  split; [vm_compute; reflexivity|]. split; [left; reflexivity|].
  vm_compute. reflexivity.
Qed.

(** The thresholds of the classification: the long dimension of a
    classified line is bounded from below, the thin one from above
    only. *)
Lemma classified_line_thresholds (lines : list Shape) :
  (forall line, In line (horizontalLinesOf lines) ->
     In (Rect line) lines
     /\ (0 <= width line)%Q /\ (200 <= width line)%Q /\ (height line <= 2)%Q)
  /\ (forall line, In line (verticalLinesOf lines) ->
        In (Rect line) lines
        /\ (0 <= height line)%Q /\ (10 <= height line)%Q /\ (width line <= 2)%Q).
Proof.
  split; intros line Hin.
  - apply horizontalLinesOf_In in Hin as [Hc Hh]. split; [exact Hc|].
    unfold isHorizontalLine in Hh. apply andb_true_iff in Hh as [H1 H2].
    apply NumFacts.leb_le in H1. apply NumFacts.geb_ge in H2.
    repeat split; lra.
  - apply verticalLinesOf_In in Hin as [Hc Hv]. split; [exact Hc|].
    unfold isVerticalLine in Hv.
    apply andb_true_iff in Hv as [Hv H2]. apply andb_true_iff in Hv as [_ H1].
    apply NumFacts.leb_le in H1. apply NumFacts.geb_ge in H2.
    repeat split; lra.
Qed.

(** ** The cell-text binder *)

Lemma findIndex_map (A B : Type) (f : A -> B) (p : B -> bool) (l : list A) :
  Arr.findIndex p (map f l) = Arr.findIndex (fun a => p (f a)) l.
Proof.
  induction l as [|a l IH]; simpl; [reflexivity|]. rewrite IH. reflexivity.
Qed.

Lemma ownerCell_bounds (element : Element) (cells cells' : list Cell) :
  map cellBounds cells = map cellBounds cells' ->
  ownerCell element cells = ownerCell element cells'.
Proof.
  intros E. unfold ownerCell, ownsElement.
  rewrite <- (findIndex_map cellBounds
                (fun r => Num.gtb (getPercentageOfElementInCell element r) 50%Q) cells).
  rewrite <- (findIndex_map cellBounds
                (fun r => Num.gtb (getPercentageOfElementInCell element r) 50%Q) cells').
  rewrite E. reflexivity.
Qed.

Lemma updateAt_bounds (i : nat) (element : Element) (cells : list Cell) :
  map cellBounds (Arr.updateAt i (pushElement element) cells) = map cellBounds cells.
Proof.
  revert i. induction cells as [|c cells IH]; intros [|i]; simpl; auto.
  rewrite IH. reflexivity.
Qed.

Lemma allocateElement_bounds (cells : list Cell) (element : Element) :
  map cellBounds (allocateElement cells element) = map cellBounds cells.
Proof.
  unfold allocateElement. destruct (ownerCell element cells); [|reflexivity].
  apply updateAt_bounds.
Qed.

Lemma isOwnedBy_bounds (cells cells' : list Cell) (i : nat) (element : Element) :
  map cellBounds cells = map cellBounds cells' ->
  isOwnedBy cells i element = isOwnedBy cells' i element.
Proof.
  intros E. unfold isOwnedBy. rewrite (@ownerCell_bounds element cells cells' E). reflexivity.
Qed.

Lemma allocateElement_nth (cells : list Cell) (element : Element) (i : nat) (cell : Cell) :
  nth_error cells i = Some cell ->
  nth_error (allocateElement cells element) i
  = Some (if isOwnedBy cells i element then pushElement element cell else cell).
Proof.
  intros Hi. unfold allocateElement, isOwnedBy.
  destruct (ownerCell element cells) as [owner|]; [|exact Hi].
  destruct (Nat.eqb owner i) eqn:E.
  - apply Nat.eqb_eq in E. subst. rewrite ArrFacts.nth_error_updateAt_eq, Hi. reflexivity.
  - apply Nat.eqb_neq in E. rewrite ArrFacts.nth_error_updateAt_ne by exact E. exact Hi.
Qed.

Lemma allocateElements_nth (elements0 : list Element) :
  forall (cells : list Cell) (i : nat) (cell : Cell),
    nth_error cells i = Some cell ->
    nth_error (allocateElements cells elements0) i
    = Some {| elements := elements cell ++ filter (isOwnedBy cells i) elements0;
              cellBounds := cellBounds cell |}.
Proof.
  induction elements0 as [|e els IH]; intros cells i cell Hi; simpl.
  - rewrite app_nil_r. rewrite Hi. destruct cell; reflexivity.
  - unfold allocateElements in *. simpl.
    rewrite (IH _ i _ (@allocateElement_nth cells e i cell Hi)).
    rewrite (filter_ext _ _ (fun e' => @isOwnedBy_bounds _ _ i e'
                                         (allocateElement_bounds cells e))).
    destruct (isOwnedBy cells i e); simpl; [|reflexivity].
    rewrite <- app_assoc. reflexivity.
Qed.

Lemma allocateElements_length (elements0 : list Element) (cells : list Cell) :
  List.length (allocateElements cells elements0) = List.length cells.
Proof.
  revert cells. induction elements0 as [|e els IH]; intros cells; [reflexivity|].
  unfold allocateElements in *. simpl. rewrite IH.
  unfold allocateElement. destruct (ownerCell e cells); [|reflexivity].
  apply ArrFacts.length_updateAt.
Qed.

(** C6.  The overlap percentage of an element with a cell is 0 for an
    element of area zero and otherwise 100 times the area of their
    intersection over the area of the element.  [cells.find] returns the
    first cell, in the order of the list, whose percentage exceeds 50, and
    nothing when no cell does.  After the allocation loop every cell holds
    what it held before followed by exactly the elements, in their order,
    for which it is that first cell; so an element is attached to that
    cell, to no other cell, and to no cell at all when none exceeds 50. *)
Theorem element_bound_to_first_owner (cells : list Cell) (elements0 : list Element) :
  (forall (element : Element) (cell : Cell),
     ((getArea element == 0)%Q ->
      (getPercentageOfElementInCell element cell == 0)%Q)
     /\ (~ (getArea element == 0)%Q ->
         (getPercentageOfElementInCell element cell
          == 100 * getArea (intersect cell element) / getArea element)%Q))
  /\ (forall (element : Element) (i : nat),
        ownerCell element cells = Some i <->
        exists cell,
          nth_error cells i = Some cell
          /\ (50 < getPercentageOfElementInCell element cell)%Q
          /\ forall j c, j < i -> nth_error cells j = Some c ->
               (getPercentageOfElementInCell element c <= 50)%Q)
  /\ (forall element : Element,
        ownerCell element cells = None <->
        forall cell, In cell cells ->
          (getPercentageOfElementInCell element cell <= 50)%Q)
  /\ List.length (allocateElements cells elements0) = List.length cells
  /\ (forall (i : nat) (cell : Cell),
        nth_error cells i = Some cell ->
        nth_error (allocateElements cells elements0) i
        = Some {| elements :=
                    elements cell
                    ++ filter (fun element =>
                                 match ownerCell element cells with
                                 | Some owner => Nat.eqb owner i
                                 | None => false
                                 end) elements0;
                  cellBounds := cellBounds cell |}).
Proof.
  split; [|split; [|split; [|split]]].
  - intros element cell. unfold getPercentageOfElementInCell, Num.eqb.
    destruct (Qeq_bool (getArea element) 0) eqn:E.
    + split; [reflexivity|]. intros Hne. apply Qeq_bool_iff in E. contradiction.
    + split.
      * intros Hz. apply Qeq_bool_iff in Hz. congruence.
      * intros _. unfold Qdiv. ring.
  - intros element i. unfold ownerCell. rewrite ArrFacts.findIndex_Some.
    split; intros (cell & Hn & Hp & Hmin); exists cell; (split; [exact Hn|]).
    + split; [apply NumFacts.gtb_gt; exact Hp|].
      intros j c Hj Hc. apply NumFacts.gtb_false. apply (Hmin j c Hj Hc).
    + split; [apply NumFacts.gtb_gt; exact Hp|].
      intros j c Hj Hc. apply NumFacts.gtb_false. apply (Hmin j c Hj Hc).
  - intros element. unfold ownerCell. rewrite ArrFacts.findIndex_None.
    split; intros H cell Hin; apply NumFacts.gtb_false; apply H; exact Hin.
  - apply allocateElements_length.
  - intros i cell Hi. apply (@allocateElements_nth elements0 cells i cell Hi).
Qed.


Lemma element_bound_to_first_owner_witness :
  nth_error (allocateElements Sample.overlappingCells [Sample.textAt "5/10/21" 10 5]) 0
  = Some {| elements := [Sample.textAt "5/10/21" 10 5];
            cellBounds := {| x := 0; y := 0; width := 100; height := 20 |} |}
  /\ nth_error (allocateElements Sample.overlappingCells [Sample.textAt "5/10/21" 10 5]) 1
     = Some (Sample.emptyCellAt 0 0 100 20).
Proof.
  pose proof (element_bound_to_first_owner Sample.overlappingCells
                [Sample.textAt "5/10/21" 10 5]) as (_ & _ & _ & _ & Hnth).
  split.
  - apply (Hnth 0 (Sample.emptyCellAt 0 0 100 20)). reflexivity.
  - apply (Hnth 1 (Sample.emptyCellAt 0 0 100 20)). reflexivity.
Defined.

(** ** Header detection *)

Lemma elementIsLabel_spec (label : string) (element : Element) :
  elementIsLabel label element = true
  <-> Str.removeWhitespace (Str.toLowerCase (text element)) = label.
Proof. unfold elementIsLabel. apply String.eqb_eq. Qed.

Lemma hasLabel_spec (label : string) (cell : Cell) :
  existsb (elementIsLabel label) (elements cell) = true
  <-> exists element, In element (elements cell)
        /\ Str.removeWhitespace (Str.toLowerCase (text element)) = label.
Proof.
  rewrite existsb_exists. split; intros (e & Hin & He); exists e; split; auto;
    apply elementIsLabel_spec; exact He.
Qed.

(** C2, as the claim states it, fails: a cell whose label is split over
    the two elements "D/A" and "Number" has the joined label text
    "d/anumber" and is not found as the heading cell for that label. *)
Lemma split_label_is_not_a_heading :
  spec_joinedLabelText Sample.splitHeadingCell = "d/anumber"
  /\ findHeadingCell "d/anumber" [Sample.splitHeadingCell] = None.
Proof. split; reflexivity. Qed.

(** C2, amended.  The heading cell for a label is the first cell, in the
    order of the cells, that has some single bound text element whose
    own text, in lower case and stripped of whitespace, equals the
    label; no heading cell is found exactly when no cell has such an
    element. *)
Theorem heading_cell_has_label_element (label : string) (cells : list Cell) :
  (forall cell,
     findHeadingCell label cells = Some cell <->
     exists i,
       nth_error cells i = Some cell
       /\ (exists element, In element (elements cell)
             /\ Str.removeWhitespace (Str.toLowerCase (text element)) = label)
       /\ forall j c, j < i -> nth_error cells j = Some c ->
            forall element, In element (elements c) ->
              Str.removeWhitespace (Str.toLowerCase (text element)) <> label)
  /\ (findHeadingCell label cells = None <->
      forall cell element, In cell cells -> In element (elements cell) ->
        Str.removeWhitespace (Str.toLowerCase (text element)) <> label).
Proof.
  unfold findHeadingCell. rewrite ArrFacts.find_findIndex. split.
  - intros cell. split.
    + destruct (Arr.findIndex _ cells) as [i|] eqn:F; [|discriminate].
      intros Hn. exists i. split; [exact Hn|].
      apply ArrFacts.findIndex_Some in F as (c & Hc & Hp & Hmin).
      assert (c = cell) by congruence. subst c. split.
      * apply hasLabel_spec. exact Hp.
      * intros j c Hj Hjc e He Heq. specialize (Hmin j c Hj Hjc).
        assert (T : existsb (elementIsLabel label) (elements c) = true)
          by (apply hasLabel_spec; eauto).
        congruence.
    + intros (i & Hn & Hlab & Hmin).
      assert (F : Arr.findIndex (fun cell => existsb (elementIsLabel label) (elements cell))
                    cells = Some i).
      { apply ArrFacts.findIndex_Some. exists cell. split; [exact Hn|]. split.
        - apply hasLabel_spec. exact Hlab.
        - intros j c Hj Hjc.
          destruct (existsb (elementIsLabel label) (elements c)) eqn:E; [|reflexivity].
          apply hasLabel_spec in E as (e & He & Heq).
          exfalso. exact (Hmin j c Hj Hjc e He Heq). }
      rewrite F. exact Hn.
  - destruct (Arr.findIndex _ cells) as [i|] eqn:F.
    + apply ArrFacts.findIndex_Some in F as (c & Hc & Hp & _).
      split.
      * intros Hn. congruence.
      * intros Hnone. apply hasLabel_spec in Hp as (e & He & Heq).
        exfalso. apply (Hnone c e); auto. eapply nth_error_In; eauto.
    + split; [|reflexivity]. intros _ cell e Hcell He Heq.
      assert (Hf := proj1 (ArrFacts.findIndex_None _ cells) F cell Hcell).
      simpl in Hf.
      assert (T : existsb (elementIsLabel label) (elements cell) = true)
        by (apply hasLabel_spec; eauto).
      congruence.
Qed.

Lemma heading_cell_has_label_element_witness :
  findHeadingCell "d/a" [Sample.splitHeadingCell] = Some Sample.splitHeadingCell.
Proof.
  apply (proj1 (heading_cell_has_label_element "d/a" [Sample.splitHeadingCell])).
  exists 0. split; [reflexivity|]. split.
  - exists (Sample.textAt "D/A" 10 85). split; [left; reflexivity|reflexivity].
  - intros j c Hj. inversion Hj.
Defined.

(** ** The identifier check *)

Lemma string_append_assoc (a b c : string) :
  ((a ++ b) ++ c = a ++ (b ++ c))%string.
Proof. induction a as [|d a IH]; simpl; [reflexivity|]. rewrite IH. reflexivity. Qed.

Lemma list_ascii_of_string_inj (a b : string) :
  list_ascii_of_string a = list_ascii_of_string b -> a = b.
Proof.
  intros E. rewrite <- (string_of_list_ascii_of_string a), E.
  apply string_of_list_ascii_of_string.
Qed.

Lemma list_ascii_of_string_app (a b : string) :
  list_ascii_of_string (a ++ b) = list_ascii_of_string a ++ list_ascii_of_string b.
Proof. induction a as [|c a IH]; simpl; [reflexivity|]. rewrite IH. reflexivity. Qed.

Lemma string_of_list_ascii_app (a b : list ascii) :
  string_of_list_ascii (a ++ b)
  = (string_of_list_ascii a ++ string_of_list_ascii b)%string.
Proof. induction a as [|c a IH]; simpl; [reflexivity|]. rewrite IH. reflexivity. Qed.

Lemma digitRun_of_list (l : list ascii) :
  l <> [] -> forallb Str.isDigit l = true -> digitRun (string_of_list_ascii l).
Proof.
  intros Hne Hall. split.
  - destruct l; [congruence|discriminate].
  - rewrite list_ascii_of_string_of_list_ascii. exact Hall.
Qed.

Lemma digitRun_to_list (s : string) :
  digitRun s ->
  list_ascii_of_string s <> [] /\ forallb Str.isDigit (list_ascii_of_string s) = true.
Proof.
  intros [Hne Hall]. split; [|exact Hall]. destruct s; [congruence|discriminate].
Qed.

Lemma applicationNumberRegex_matches (mid : list ascii) :
  RegExp.Matches applicationNumberRegex mid <->
  exists a b c,
    mid = a ++ ["/"%char] ++ b ++ ["/"%char] ++ c
    /\ (a <> [] /\ forallb Str.isDigit a = true)
    /\ (b <> [] /\ forallb Str.isDigit b = true)
    /\ (c <> [] /\ forallb Str.isDigit c = true).
Proof.
  unfold applicationNumberRegex. split.
  - intros H.
    apply RegExpFacts.matches_cat in H as (a & r1 & -> & Ha & H).
    apply RegExpFacts.matches_cat in H as (s1 & r2 & -> & Hs1 & H).
    apply RegExpFacts.matches_cat in H as (b & r3 & -> & Hb & H).
    apply RegExpFacts.matches_cat in H as (s2 & c & -> & Hs2 & Hc).
    apply RegExpFacts.matches_chr in Hs1, Hs2. subst s1 s2.
    apply RegExpFacts.matches_plus_class in Ha, Hb, Hc.
    exists a, b, c. auto.
  - intros (a & b & c & -> & Ha & Hb & Hc).
    apply RegExpFacts.matches_cat. exists a, (["/"%char] ++ b ++ ["/"%char] ++ c).
    split; [reflexivity|]. split; [apply RegExpFacts.matches_plus_class; exact Ha|].
    apply RegExpFacts.matches_cat. exists ["/"%char], (b ++ ["/"%char] ++ c).
    split; [reflexivity|]. split; [apply RegExpFacts.matches_chr; reflexivity|].
    apply RegExpFacts.matches_cat. exists b, (["/"%char] ++ c).
    split; [reflexivity|]. split; [apply RegExpFacts.matches_plus_class; exact Hb|].
    apply RegExpFacts.matches_cat. exists ["/"%char], c.
    split; [reflexivity|]. split; [apply RegExpFacts.matches_chr; reflexivity|].
    apply RegExpFacts.matches_plus_class; exact Hc.
Qed.

Lemma applicationNumberRegex_test (s : string) :
  RegExp.test applicationNumberRegex s = true <-> containsApplicationNumber s.
Proof.
  rewrite RegExpFacts.test_spec. split.
  - intros (pre & mid & post & E & H).
    apply applicationNumberRegex_matches in H as (a & b & c & -> & Ha & Hb & Hc).
    exists (string_of_list_ascii pre), (string_of_list_ascii a),
           (string_of_list_ascii b), (string_of_list_ascii c),
           (string_of_list_ascii post).
    split.
    + apply list_ascii_of_string_inj. rewrite E.
      repeat rewrite list_ascii_of_string_app.
      repeat rewrite list_ascii_of_string_of_list_ascii. simpl.
      repeat (rewrite <- app_assoc || rewrite <- app_comm_cons). reflexivity.
    + repeat split; try (apply digitRun_of_list; tauto);
        try (rewrite list_ascii_of_string_of_list_ascii; tauto);
        destruct Ha, Hb, Hc; try (destruct a; [congruence|discriminate]);
        try (destruct b; [congruence|discriminate]);
        try (destruct c; [congruence|discriminate]).
  - intros (pre & a & b & c & post & -> & Ha & Hb & Hc).
    apply digitRun_to_list in Ha, Hb, Hc.
    exists (list_ascii_of_string pre),
           (list_ascii_of_string a ++ ["/"%char] ++ list_ascii_of_string b
            ++ ["/"%char] ++ list_ascii_of_string c),
           (list_ascii_of_string post).
    split.
    + repeat rewrite list_ascii_of_string_app. simpl.
      repeat (rewrite <- app_assoc || rewrite <- app_comm_cons). reflexivity.
    + apply applicationNumberRegex_matches.
      exists (list_ascii_of_string a), (list_ascii_of_string b), (list_ascii_of_string c).
      auto.
Qed.

(** ** The record builder *)

Section RowFacts.
Variable didyoumean2 : string -> list string -> nat -> option string.
Variable momentStrict : string -> option string.
Variable StreetNames : list (string * list string).
Variable StreetSuffixes : list (string * string).
Variable SuburbNames : list (string * string).
Variable today : string.

Local Abbreviation formatAddressE :=
  (formatAddress didyoumean2 StreetNames StreetSuffixes SuburbNames).
Local Abbreviation processRowE :=
  (processRow didyoumean2 momentStrict StreetNames StreetSuffixes SuburbNames today).
Local Abbreviation makeApplicationE := (makeApplication momentStrict today).

(** When a row yields a record. *)
Lemma processRow_emits (url : string) (h : Headings) (row : list Cell)
    (app : DevelopmentApplication) (log : list string) :
  processRowE url h row = (Some app, log) <->
  exists idCell streetCell suburbCell,
    findDataCell (applicationNumberHeadingCell h) row = Some idCell
    /\ RegExp.test applicationNumberRegex (applicationNumberText idCell) = true
    /\ findDataCell (streetNameHeadingCell h) row = Some streetCell
    /\ findDataCell (suburbNameHeadingCell h) row = Some suburbCell
    /\ cellText streetCell <> ""
    /\ cellText suburbCell <> ""
    /\ formatAddressE (cellText streetCell ++ ", " ++ cellText suburbCell)%string <> ""
    /\ app = makeApplicationE url (applicationNumberText idCell)
               (formatAddressE (cellText streetCell ++ ", " ++ cellText suburbCell)%string)
               (findDataCell (descriptionHeadingCell h) row)
               (findDataCell (receivedDateHeadingCell h) row)
               (findDataCell (legalDescriptionHeadingCell h) row)
    /\ log = [foundMessage (applicationNumberText idCell)].
Proof.
  unfold processRow. split.
  - destruct (findDataCell (applicationNumberHeadingCell h) row) as [idCell|];
      [|discriminate].
    destruct (RegExp.test applicationNumberRegex (applicationNumberText idCell)) eqn:T;
      cbn [negb]; [|discriminate].
    destruct (findDataCell (streetNameHeadingCell h) row) as [streetCell|];
      [|discriminate].
    destruct (findDataCell (suburbNameHeadingCell h) row) as [suburbCell|];
      [|discriminate].
    destruct (String.eqb_spec (cellText streetCell) "") as [|Hs]; [discriminate|].
    destruct (String.eqb_spec (cellText suburbCell) "") as [|Hb]; [discriminate|].
    destruct (String.eqb_spec
                (formatAddressE (cellText streetCell ++ ", " ++ cellText suburbCell)%string)
                "") as [|Ha]; [discriminate|].
    intros E. inversion E; subst. exists idCell, streetCell, suburbCell.
    repeat split; auto.
  - intros (idCell & streetCell & suburbCell & E1 & T & E2 & E3 & Hs & Hb & Ha & Eapp & Elog).
    subst app log. rewrite E1, T, E2, E3. cbn [negb].
    destruct (String.eqb_spec (cellText streetCell) "") as [|_]; [contradiction|].
    destruct (String.eqb_spec (cellText suburbCell) "") as [|_]; [contradiction|].
    destruct (String.eqb_spec
                (formatAddressE (cellText streetCell ++ ", " ++ cellText suburbCell)%string)
                "") as [|_]; [contradiction|].
    reflexivity.
Qed.

(** Whether a row yields a record depends on the three required heading
    cells only: not on the other heading cells, nor on how dates parse. *)
Lemma processRow_emission (momentStrict' : string -> option string) (today' : string)
    (url : string) (h h' : Headings) (row : list Cell) :
  applicationNumberHeadingCell h = applicationNumberHeadingCell h' ->
  streetNameHeadingCell h = streetNameHeadingCell h' ->
  suburbNameHeadingCell h = suburbNameHeadingCell h' ->
  isSome (fst (processRowE url h row))
  = isSome (fst (processRow didyoumean2 momentStrict' StreetNames StreetSuffixes
                   SuburbNames today' url h' row)).
Proof.
  intros E1 E2 E3. unfold processRow. rewrite <- E1, <- E2, <- E3.
  destruct (findDataCell (applicationNumberHeadingCell h) row) as [idCell|];
    [|reflexivity].
  destruct (RegExp.test applicationNumberRegex (applicationNumberText idCell));
    cbn [negb]; [|reflexivity].
  destruct (findDataCell (streetNameHeadingCell h) row) as [streetCell|];
    [|reflexivity].
  destruct (findDataCell (suburbNameHeadingCell h) row) as [suburbCell|];
    [|reflexivity].
  destruct (String.eqb (cellText streetCell) ""); [reflexivity|].
  destruct (String.eqb (cellText suburbCell) ""); [reflexivity|].
  destruct (String.eqb _ ""); reflexivity.
Qed.

Lemma findDataCell_undefined (row : list Cell) : findDataCell None row = None.
Proof.
  unfold findDataCell. induction row as [|cell row IH]; [reflexivity|].
  simpl. exact IH.
Qed.


(** C9.  The horizontal overlap percentage is 0 as soon as one of the two
    rectangles is undefined, so the lookup of a data cell under an absent
    heading cell finds no cell.  A record built for a row then has the
    default of that field: an empty received date, an empty legal
    description, the placeholder description.  Whether the row yields a
    record does not depend on the optional heading cells. *)
Theorem absent_optional_heading_defaults :
  (forall r, getHorizontalOverlapPercentage r None = 0%Q
             /\ getHorizontalOverlapPercentage None r = 0%Q)
  /\ (forall row, findDataCell None row = None)
  /\ (forall url h row app log,
        processRowE url h row = (Some app, log) ->
        (receivedDateHeadingCell h = None -> receivedDate app = "")
        /\ (legalDescriptionHeadingCell h = None -> legalDescription app = "")
        /\ (descriptionHeadingCell h = None
            -> description app = "No Description Provided"))
  /\ (forall url h row received legal described,
        isSome (fst (processRowE url h row))
        = isSome (fst (processRowE url
                         {| applicationNumberHeadingCell := applicationNumberHeadingCell h;
                            receivedDateHeadingCell := received;
                            legalDescriptionHeadingCell := legal;
                            streetNameHeadingCell := streetNameHeadingCell h;
                            suburbNameHeadingCell := suburbNameHeadingCell h;
                            descriptionHeadingCell := described |} row))).
Proof.
  split; [|split; [|split]].
  - intros [r|]; split; reflexivity.
  - apply findDataCell_undefined.
  - intros url h row app log Hrow.
    apply processRow_emits in Hrow
      as (idCell & streetCell & suburbCell & _ & _ & _ & _ & _ & _ & _ & -> & _).
    repeat split; intros ->; rewrite findDataCell_undefined; reflexivity.
  - intros url h row received legal described.
    apply processRow_emission; reflexivity.
Qed.

(** C7.  In every record that a row yields, the received date is empty
    when the row has no received-date cell, when that cell has no bound
    text element, or when the trimmed text of its first element does not
    parse under the strict day/month/year pattern.  Whether the row
    yields a record depends neither on the received-date heading cell nor
    on how the date parses. *)
Theorem unparsable_received_date_is_empty
    (url : string) (h : Headings) (row : list Cell) :
  (forall app log,
     processRowE url h row = (Some app, log) ->
     (findDataCell (receivedDateHeadingCell h) row = None
      \/ (exists cell,
            findDataCell (receivedDateHeadingCell h) row = Some cell
            /\ elements cell = [])
      \/ (exists cell first rest,
            findDataCell (receivedDateHeadingCell h) row = Some cell
            /\ elements cell = first :: rest
            /\ momentStrict (Str.trim (text first)) = None)) ->
     receivedDate app = "")
  /\ (forall received momentStrict',
        isSome (fst (processRowE url h row))
        = isSome (fst (processRow didyoumean2 momentStrict' StreetNames StreetSuffixes
                         SuburbNames today url
                         {| applicationNumberHeadingCell := applicationNumberHeadingCell h;
                            receivedDateHeadingCell := received;
                            legalDescriptionHeadingCell := legalDescriptionHeadingCell h;
                            streetNameHeadingCell := streetNameHeadingCell h;
                            suburbNameHeadingCell := suburbNameHeadingCell h;
                            descriptionHeadingCell := descriptionHeadingCell h |} row))).
Proof.
  split.
  - intros app log Hrow Hdate.
    apply processRow_emits in Hrow
      as (idCell & streetCell & suburbCell & _ & _ & _ & _ & _ & _ & _ & -> & _).
    unfold makeApplication, receivedDateOf. simpl.
    destruct Hdate as [->|[(cell & -> & ->)|(cell & first & rest & -> & -> & ->)]];
      reflexivity.
  - intros received momentStrict'. apply processRow_emission; reflexivity.
Qed.

End RowFacts.


Lemma absent_optional_heading_defaults_witness :
  Sample.processSampleRow Sample.headings (Sample.dataRow "5/10/21" "1 MAIN ST" "CUMMINS")
  = (Some (Sample.application "5/10/21" "1 MAIN STREET, CUMMINS SA 5631"),
     ["Found development application 5/10/21."])
  /\ receivedDate (Sample.application "5/10/21" "1 MAIN STREET, CUMMINS SA 5631") = ""
  /\ legalDescription (Sample.application "5/10/21" "1 MAIN STREET, CUMMINS SA 5631") = ""
  /\ description (Sample.application "5/10/21" "1 MAIN STREET, CUMMINS SA 5631")
     = "No Description Provided".
Proof.
  assert (Hrow : Sample.processSampleRow Sample.headings
                   (Sample.dataRow "5/10/21" "1 MAIN ST" "CUMMINS")
                 = (Some (Sample.application "5/10/21" "1 MAIN STREET, CUMMINS SA 5631"),
                    ["Found development application 5/10/21."]))
    by (vm_compute; reflexivity).
  split; [exact Hrow|].
  destruct (proj1 (proj2 (proj2 (absent_optional_heading_defaults
                                   DidYouMean.didyoumean2 Moment.strict
                                   Sample.StreetNames Sample.StreetSuffixes
                                   Sample.SuburbNames Sample.today)))
              Sample.url Sample.headings _ _ _ Hrow) as (H1 & H2 & H3).
  split; [apply H1; reflexivity|]. split; [apply H2; reflexivity|apply H3; reflexivity].
Defined.

Lemma unparsable_received_date_is_empty_witness :
  Sample.processSampleRow Sample.headingsWithDate
    (Sample.dataRowWithDate "5/10/21" "1 MAIN ST" "CUMMINS" "31/02/2019")
  = (Some (Sample.application "5/10/21" "1 MAIN STREET, CUMMINS SA 5631"),
     ["Found development application 5/10/21."])
  /\ Moment.strict (Str.trim "31/02/2019") = None
  /\ receivedDate (Sample.application "5/10/21" "1 MAIN STREET, CUMMINS SA 5631") = "".
Proof.
  assert (Hrow : Sample.processSampleRow Sample.headingsWithDate
                   (Sample.dataRowWithDate "5/10/21" "1 MAIN ST" "CUMMINS" "31/02/2019")
                 = (Some (Sample.application "5/10/21" "1 MAIN STREET, CUMMINS SA 5631"),
                    ["Found development application 5/10/21."]))
    by (vm_compute; reflexivity).
  split; [exact Hrow|]. split; [reflexivity|].
  apply (proj1 (unparsable_received_date_is_empty
                  DidYouMean.didyoumean2 Moment.strict
                  Sample.StreetNames Sample.StreetSuffixes Sample.SuburbNames
                  Sample.today Sample.url Sample.headingsWithDate
                  (Sample.dataRowWithDate "5/10/21" "1 MAIN ST" "CUMMINS" "31/02/2019"))
           _ _ Hrow).
  right. right.
  exists (Sample.cellWith "31/02/2019" 300 (-80)),
         (Sample.textAt "31/02/2019" (300 + 10) (-80 + 5)), [].
  split; [vm_compute; reflexivity|]. split; reflexivity.
Defined.

Example sample_row_with_date :
  option_map receivedDate
    (fst (Sample.processSampleRow Sample.headingsWithDate
            (Sample.dataRowWithDate "5/10/21" "1 MAIN ST" "CUMMINS" "5/02/2019")))
  = Some "2019-02-05"
  /\ option_map receivedDate
       (fst (Sample.processSampleRow Sample.headingsWithDate
               (Sample.dataRowWithDate "5/10/21" "1 MAIN ST" "CUMMINS" "31/02/2019")))
     = Some "".
Proof. split; vm_compute; reflexivity. Qed.

(** ** The address normaliser *)

Lemma lookup_key_present (V : Type) (key : string) (table : list (string * V)) :
  In key (Table.keys table) -> isSome (Table.lookup key table) = true.
Proof.
  induction table as [|[k v] table IH]; simpl; [tauto|].
  intros [->|Hin].
  - rewrite String.eqb_refl. reflexivity.
  - destruct (String.eqb k key); [reflexivity|]. apply IH. exact Hin.
Qed.

(** C8.  With a street-suffix table that maps "RD" to "ROAD" and a set
    of known streets that contains "SMYTH ROAD", the street text
    "22 SMYTH RD" is formatted as "22 SMYTH ROAD", whatever the fuzzy
    matcher and the other entries of the tables: the last token is
    expanded through the suffix table, and the scan for an exact match
    over the windows of 6 down to 2 tokens from the end succeeds (at
    window 2), which returns all the tokens joined, house number
    included. *)
Theorem formatStreetName_smyth_road
    (didyoumean2 : string -> list string -> nat -> option string)
    (StreetNames : list (string * list string))
    (StreetSuffixes : list (string * string)) :
  Table.lookup "RD" StreetSuffixes = Some "ROAD" ->
  In "SMYTH ROAD" (Table.keys StreetNames) ->
  streetTokens StreetSuffixes "22 SMYTH RD" = ["22"; "SMYTH"; "ROAD"]
  /\ windowSizes = [6; 5; 4; 3; 2]
  /\ Str.join " " (Arr.sliceLast 2 ["22"; "SMYTH"; "ROAD"]) = "SMYTH ROAD"
  /\ existsb (isKnownStreet StreetNames ["22"; "SMYTH"; "ROAD"]) windowSizes = true
  /\ formatStreetName didyoumean2 StreetNames StreetSuffixes (Some "22 SMYTH RD")
     = Some "22 SMYTH ROAD".
Proof.
  intros Hsuffix Hstreet.
  assert (Htokens : streetTokens StreetSuffixes "22 SMYTH RD" = ["22"; "SMYTH"; "ROAD"]).
  { unfold streetTokens.
    change (Str.splitSpace (Str.toUpperCase (Str.trim "22 SMYTH RD")))
      with ["22"; "SMYTH"; "RD"].
    change (last ["22"; "SMYTH"; "RD"] "") with "RD".
    rewrite Hsuffix. reflexivity. }
  assert (Hknown : existsb (isKnownStreet StreetNames ["22"; "SMYTH"; "ROAD"]) windowSizes
                   = true).
  { apply existsb_exists. exists 2. split; [unfold windowSizes; simpl; tauto|].
    unfold isKnownStreet.
    change (Str.join " " (Arr.sliceLast 2 ["22"; "SMYTH"; "ROAD"])) with "SMYTH ROAD".
    apply lookup_key_present. exact Hstreet. }
  split; [exact Htokens|]. split; [reflexivity|]. split; [reflexivity|].
  split; [exact Hknown|].
  unfold formatStreetName. rewrite Htokens, Hknown. reflexivity.
Qed.

Lemma formatStreetName_smyth_road_witness :
  formatStreetName DidYouMean.didyoumean2 Sample.StreetNames Sample.StreetSuffixes
    (Some "22 SMYTH RD")
  = Some "22 SMYTH ROAD".
Proof.
  apply (formatStreetName_smyth_road DidYouMean.didyoumean2
           Sample.StreetNames Sample.StreetSuffixes).
  - reflexivity.
  - simpl. tauto.
Defined.

Lemma trimStart_head (s : string) :
  Str.trimStart s = ""
  \/ exists c r, Str.trimStart s = String c r /\ Str.isWhitespace c = false.
Proof.
  induction s as [|c s IH]; simpl; [left; reflexivity|].
  destruct (Str.isWhitespace c) eqn:E; [exact IH|]. right. eauto.
Qed.

Lemma trimEnd_head (c : ascii) (r : string) :
  Str.isWhitespace c = false -> Str.trimEnd (String c r) = String c (Str.trimEnd r).
Proof. intros E. simpl. rewrite E. reflexivity. Qed.

Lemma trim_head (s : string) :
  Str.trim s <> "" ->
  exists c r, Str.trim s = String c r /\ Str.isWhitespace c = false.
Proof.
  unfold Str.trim. intros Hne.
  destruct (trimStart_head s) as [E|(c & r & E & Hc)]; rewrite E in *.
  - simpl in Hne. congruence.
  - rewrite (@trimEnd_head c r Hc). eauto.
Qed.

Lemma trim_append_head (c : ascii) (r v : string) :
  Str.isWhitespace c = false ->
  Str.trim (String c r ++ v) = String c (Str.trimEnd (r ++ v)).
Proof.
  intros Hc. unfold Str.trim. simpl Str.trimStart. rewrite Hc.
  apply trimEnd_head. exact Hc.
Qed.

Lemma replaceAll_head (pat rep : string) (c : ascii) (r : string) :
  Str.isWhitespace c = false ->
  Str.replaceAll (String " " pat) rep (String c r)
  = String c (Str.replaceFrom (String " " pat) rep 0 r).
Proof.
  intros Hc. unfold Str.replaceAll. cbn [Str.replaceFrom String.prefix].
  destruct (ascii_dec " " c) as [<-|_]; [discriminate|reflexivity].
Qed.

Lemma expandTerraces_head (c : ascii) (r v : string) :
  Str.isWhitespace c = false ->
  exists r', expandTerraces (String c r ++ v) = String c r'.
Proof.
  intros Hc. unfold expandTerraces.
  rewrite (@trim_append_head c r v Hc).
  repeat rewrite (fun pat rep r0 => @replaceAll_head pat rep c r0 Hc). eauto.
Qed.

Lemma formatAddress_unresolved
    (didyoumean2 : string -> list string -> nat -> option string)
    (StreetNames : list (string * list string))
    (StreetSuffixes SuburbNames : list (string * string)) (address0 : string) :
  didyoumean2 (suburbPortion (expandTerraces address0)) (Table.keys SuburbNames) 2 = None ->
  formatAddress didyoumean2 StreetNames StreetSuffixes SuburbNames address0
  = expandTerraces address0.
Proof.
  intros Hnone. unfold formatAddress.
  destruct (Str.lastIndexOf "," (expandTerraces address0) <? 0)%Z; [reflexivity|].
  unfold suburbPortion in Hnone. rewrite Hnone. reflexivity.
Qed.

(** C1, as the claim states it, fails: on the sample page with the
    suburb text "ZZZZZZZZ" the fuzzy match of the suburb portion finds no
    candidate within distance 2, and the page still yields a record,
    whose address is the unresolved text. *)
Lemma unresolved_suburb_still_yields_a_record :
  DidYouMean.didyoumean2
    (suburbPortion (expandTerraces "1 MAIN ST, ZZZZZZZZ"))
    (Table.keys Sample.SuburbNames) 2 = None
  /\ option_map fst (Sample.parse [Sample.page "1 MAIN ST" "ZZZZZZZZ"])
     = Some [Sample.application "5/10/21" "1 MAIN ST, ZZZZZZZZ"].
Proof. split; vm_compute; reflexivity. Qed.

(** C1, amended.  For every row that passes the identifier check and
    whose street and suburb cells yield non-empty text, if the fuzzy
    match of the suburb portion (the text after the last comma) against
    the known suburbs, with edit-distance threshold 2, finds no
    candidate, the address is left as it was, trimmed and with the
    terrace abbreviations expanded but otherwise unresolved; it is not
    empty, and the row yields a record that carries it. *)
Theorem unresolved_suburb_keeps_address
    (didyoumean2 : string -> list string -> nat -> option string)
    (momentStrict : string -> option string)
    (StreetNames : list (string * list string))
    (StreetSuffixes SuburbNames : list (string * string))
    (today url : string) (h : Headings) (row : list Cell)
    (idCell streetCell suburbCell : Cell) :
  findDataCell (applicationNumberHeadingCell h) row = Some idCell ->
  RegExp.test applicationNumberRegex (applicationNumberText idCell) = true ->
  findDataCell (streetNameHeadingCell h) row = Some streetCell ->
  findDataCell (suburbNameHeadingCell h) row = Some suburbCell ->
  cellText streetCell <> "" ->
  cellText suburbCell <> "" ->
  didyoumean2
    (suburbPortion (expandTerraces (cellText streetCell ++ ", " ++ cellText suburbCell)%string))
    (Table.keys SuburbNames) 2 = None ->
  formatAddress didyoumean2 StreetNames StreetSuffixes SuburbNames
    (cellText streetCell ++ ", " ++ cellText suburbCell)%string
  = expandTerraces (cellText streetCell ++ ", " ++ cellText suburbCell)%string
  /\ expandTerraces (cellText streetCell ++ ", " ++ cellText suburbCell)%string <> ""
  /\ exists app,
       processRow didyoumean2 momentStrict StreetNames StreetSuffixes SuburbNames
         today url h row
       = (Some app, [foundMessage (applicationNumberText idCell)])
       /\ applicationNumber app = applicationNumberText idCell
       /\ address app
          = expandTerraces (cellText streetCell ++ ", " ++ cellText suburbCell)%string.
Proof.
  intros Hid Htest Hstreet Hsuburb Hs Hb Hnone.
  pose proof (@formatAddress_unresolved didyoumean2 StreetNames StreetSuffixes
                SuburbNames _ Hnone) as Haddr.
  assert (Hne : expandTerraces (cellText streetCell ++ ", " ++ cellText suburbCell)%string
                <> "").
  { unfold cellText in Hs. apply trim_head in Hs as (c & r & E & Hc).
    unfold cellText at 1. rewrite E.
    destruct (@expandTerraces_head c r (", " ++ cellText suburbCell)%string Hc) as [r' Hr'].
    rewrite Hr'. discriminate. }
  split; [exact Haddr|]. split; [exact Hne|].
  eexists. split.
  - apply processRow_emits. exists idCell, streetCell, suburbCell.
    repeat split; try eassumption. rewrite Haddr. exact Hne.
  - rewrite Haddr. split; reflexivity.
Qed.

Lemma unresolved_suburb_keeps_address_witness :
  exists app,
    Sample.processSampleRow Sample.headings
      (Sample.dataRow "5/10/21" "1 MAIN ST" "ZZZZZZZZ")
    = (Some app, ["Found development application 5/10/21."])
    /\ applicationNumber app = "5/10/21"
    /\ address app = "1 MAIN ST, ZZZZZZZZ".
Proof.
  apply (@unresolved_suburb_keeps_address
           DidYouMean.didyoumean2 Moment.strict
           Sample.StreetNames Sample.StreetSuffixes Sample.SuburbNames
           Sample.today Sample.url Sample.headings
           (Sample.dataRow "5/10/21" "1 MAIN ST" "ZZZZZZZZ")
           (Sample.cellWith "5/10/21" 0 (-80))
           (Sample.cellWith "1 MAIN ST" 100 (-80))
           (Sample.cellWith "ZZZZZZZZ" 200 (-80)));
    try (vm_compute; reflexivity); vm_compute; discriminate.
Defined.

(** ** Pages without a grid or without a required heading *)

Section PageFacts.
Variable didyoumean2 : string -> list string -> nat -> option string.
Variable momentStrict : string -> option string.
Variable StreetNames : list (string * list string).
Variable StreetSuffixes : list (string * string).
Variable SuburbNames : list (string * string).
Variable today : string.

Local Abbreviation processPageE :=
  (processPage didyoumean2 momentStrict StreetNames StreetSuffixes SuburbNames today).
Local Abbreviation parsePageE :=
  (parsePage didyoumean2 momentStrict StreetNames StreetSuffixes SuburbNames today).
Local Abbreviation parsePagesE :=
  (parsePages didyoumean2 momentStrict StreetNames StreetSuffixes SuburbNames today).

Lemma buildCells_without_grid (lines : list Shape) :
  List.length (horizontalLinesOf lines) < 2 \/ List.length (verticalLinesOf lines) < 2 ->
  buildCells lines = [].
Proof.
  intros Hsmall. apply length_zero_iff_nil. unfold buildCells.
  rewrite constructCells_length.
  unfold sortedHorizontalLines, sortedVerticalLines.
  repeat rewrite ArrFacts.length_sort.
  destruct Hsmall as [Hlt|Hlt].
  - replace (List.length (horizontalLinesOf lines) - 1) with 0 by lia. reflexivity.
  - replace (List.length (verticalLinesOf lines) - 1) with 0 by lia. lia.
Qed.

Lemma boundCells_nil (elements0 : list Element) : boundCells [] elements0 = [].
Proof.
  apply length_zero_iff_nil. unfold boundCells.
  rewrite allocateElements_length. reflexivity.
Qed.

Lemma processPage_skipped (url : string) (cells : list Cell) (elements0 : list Element) :
  groupRows (boundCells cells elements0) = []
  \/ findHeadingCell "d/anumber" (boundCells cells elements0) = None
  \/ findHeadingCell "streetname" (boundCells cells elements0) = None
  \/ findHeadingCell "town" (boundCells cells elements0) = None ->
  exists message,
    In message (skipMessages elements0)
    /\ processPageE url cells elements0 = ([], [message]).
Proof.
  intros Hskip. unfold processPage, skipMessages.
  destruct (groupRows (boundCells cells elements0)) as [|row rows].
  { eexists. split; [left; reflexivity|reflexivity]. }
  cbn [headingsOf applicationNumberHeadingCell streetNameHeadingCell
       suburbNameHeadingCell].
  destruct (findHeadingCell "d/anumber" (boundCells cells elements0)).
  2:{ eexists. split; [right; left; reflexivity|reflexivity]. }
  destruct (findHeadingCell "streetname" (boundCells cells elements0)).
  2:{ eexists. split; [right; right; left; reflexivity|reflexivity]. }
  destruct (findHeadingCell "town" (boundCells cells elements0)).
  2:{ eexists. split; [right; right; right; left; reflexivity|reflexivity]. }
  destruct Hskip as [H|[H|[H|H]]]; discriminate.
Qed.

(** A page that the extractor walks to the end and that has no grid,
    or lacks a required heading cell, is skipped with one diagnostic,
    and the loop goes on with the pages that follow. *)
Lemma walked_page_is_skipped
    (url : string) (page : Page) (lines : list Shape) :
  parseLines (operators page) = Some lines ->
  (List.length (horizontalLinesOf lines) < 2 \/ List.length (verticalLinesOf lines) < 2 ->
   buildCells lines = []
   /\ groupRows (boundCells (buildCells lines) (pageElements page)) = [])
  /\ ((List.length (horizontalLinesOf lines) < 2
       \/ List.length (verticalLinesOf lines) < 2)
      \/ findHeadingCell "d/anumber"
           (boundCells (buildCells lines) (pageElements page)) = None
      \/ findHeadingCell "streetname"
           (boundCells (buildCells lines) (pageElements page)) = None
      \/ findHeadingCell "town"
           (boundCells (buildCells lines) (pageElements page)) = None ->
      exists message,
        In message (skipMessages (pageElements page))
        /\ parsePageE url page = Some ([], [message])
        /\ forall numPages pageIndex rest,
             parsePagesE url numPages pageIndex (page :: rest)
             = match parsePagesE url numPages (S pageIndex) rest with
               | None => None
               | Some (developmentApplications, logs) =>
                   Some (developmentApplications,
                         readingPageMessage pageIndex numPages :: message :: logs)
               end).
Proof.
  intros Hlines.
  assert (Hgrid : List.length (horizontalLinesOf lines) < 2
                  \/ List.length (verticalLinesOf lines) < 2 ->
                  buildCells lines = []
                  /\ groupRows (boundCells (buildCells lines) (pageElements page)) = []).
  { intros Hsmall. rewrite (buildCells_without_grid lines Hsmall).
    rewrite boundCells_nil. split; reflexivity. }
  split; [exact Hgrid|]. intros Hskip.
  destruct (@processPage_skipped url (buildCells lines) (pageElements page))
    as (message & Hin & Hpage).
  { destruct Hskip as [Hsmall|Hheading]; [left; apply Hgrid; exact Hsmall|right; exact Hheading]. }
  assert (Hparse : parsePageE url page = Some ([], [message])).
  { unfold parsePage, parseCells. rewrite Hlines. simpl. rewrite Hpage. reflexivity. }
  exists message. split; [exact Hin|]. split; [exact Hparse|].
  intros numPages pageIndex rest. cbn [parsePages]. rewrite Hparse.
  destruct (parsePagesE url numPages (S pageIndex) rest) as [[apps logs]|]; reflexivity.
Qed.

End PageFacts.

(** A page without a grid does not stop the page after it. *)
Example sample_text_only_page_then_register :
  option_map fst (Sample.parse [Sample.textOnlyPage; Sample.page "1 MAIN ST" "CUMMINS"])
  = Some [Sample.application "5/10/21" "1 MAIN STREET, CUMMINS SA 5631"].
Proof. vm_compute. reflexivity. Qed.

(* ===================================================================== *)
(** * Further properties of the code *)
(* ===================================================================== *)

(** ** Geometry primitives *)

Lemma intersect_cases (r1 r2 : Rectangle) :
  (intersect r1 r2 = zeroRectangle
   /\ ~ (Qmax (x r1) (x r2) <= Qmin (x r1 + width r1) (x r2 + width r2)
         /\ Qmax (y r1) (y r2) <= Qmin (y r1 + height r1) (y r2 + height r2))%Q)
  \/ (intersect r1 r2
      = {| x := Qmax (x r1) (x r2); y := Qmax (y r1) (y r2);
           width := (Qmin (x r1 + width r1) (x r2 + width r2) - Qmax (x r1) (x r2))%Q;
           height := (Qmin (y r1 + height r1) (y r2 + height r2) - Qmax (y r1) (y r2))%Q |}
      /\ (Qmax (x r1) (x r2) <= Qmin (x r1 + width r1) (x r2 + width r2))%Q
      /\ (Qmax (y r1) (y r2) <= Qmin (y r1 + height r1) (y r2 + height r2))%Q).
Proof.
  unfold intersect.
  destruct (Num.geb (Qmin (x r1 + width r1) (x r2 + width r2)) (Qmax (x r1) (x r2)))
    eqn:Ex;
    destruct (Num.geb (Qmin (y r1 + height r1) (y r2 + height r2)) (Qmax (y r1) (y r2)))
      eqn:Ey; cbn [andb].
  - right. split; [reflexivity|]. split; apply NumFacts.geb_ge; assumption.
  - left. split; [reflexivity|]. intros [_ H]. apply NumFacts.geb_ge in H. congruence.
  - left. split; [reflexivity|]. intros [H _]. apply NumFacts.geb_ge in H. congruence.
  - left. split; [reflexivity|]. intros [H _]. apply NumFacts.geb_ge in H. congruence.
Qed.



(** X2.  The area of the intersection does not depend on the order of
    the two rectangles. *)
Theorem intersect_area_symmetric (r1 r2 : Rectangle) :
  (getArea (intersect r1 r2) == getArea (intersect r2 r1))%Q.
Proof.
  unfold getArea.
  pose proof (Q.max_spec (x r1) (x r2)). pose proof (Q.max_spec (x r2) (x r1)).
  pose proof (Q.min_spec (x r1 + width r1) (x r2 + width r2)).
  pose proof (Q.min_spec (x r2 + width r2) (x r1 + width r1)).
  pose proof (Q.max_spec (y r1) (y r2)). pose proof (Q.max_spec (y r2) (y r1)).
  pose proof (Q.min_spec (y r1 + height r1) (y r2 + height r2)).
  pose proof (Q.min_spec (y r2 + height r2) (y r1 + height r1)).
  assert (Ex : (Qmin (x r1 + width r1) (x r2 + width r2) - Qmax (x r1) (x r2)
                == Qmin (x r2 + width r2) (x r1 + width r1) - Qmax (x r2) (x r1))%Q)
    by lra.
  assert (Ey : (Qmin (y r1 + height r1) (y r2 + height r2) - Qmax (y r1) (y r2)
                == Qmin (y r2 + height r2) (y r1 + height r1) - Qmax (y r2) (y r1))%Q)
    by lra.
  destruct (intersect_cases r1 r2) as [[E1 N1]|(E1 & Hx1 & Hy1)];
    destruct (intersect_cases r2 r1) as [[E2 N2]|(E2 & Hx2 & Hy2)];
    rewrite E1, E2; simpl.
  - reflexivity.
  - exfalso. apply N1. split; lra.
  - exfalso. apply N2. split; lra.
  - rewrite Ex, Ey. reflexivity.
Qed.

(** X3.  The percentage of an element that lies in a cell is never
    negative, whatever the two rectangles, and it is 0 when the two do
    not meet on the horizontal or on the vertical axis. *)
Theorem percentage_of_element_in_cell_range (element cell : Rectangle) :
  (0 <= getPercentageOfElementInCell element cell)%Q
  /\ ((Qmin (x cell + width cell) (x element + width element)
       < Qmax (x cell) (x element))%Q
      \/ (Qmin (y cell + height cell) (y element + height element)
          < Qmax (y cell) (y element))%Q ->
      (getPercentageOfElementInCell element cell == 0)%Q).
Proof.
  unfold getPercentageOfElementInCell, Num.eqb.
  destruct (Qeq_bool (getArea element) 0) eqn:Ez.
  { split; [lra|]. intros _. reflexivity. }
  assert (Hz : ~ (getArea element == 0)%Q).
  { intros H. apply Qeq_bool_iff in H. congruence. }
  unfold getArea in *.
  destruct (intersect_cases cell element) as [[E N]|(E & Hx & Hy)]; rewrite E; simpl.
  - assert (Z : (0 * 0 * 100 / (width element * height element) == 0)%Q)
      by (unfold Qdiv; ring).
    split; [rewrite Z; lra|]. intros _. exact Z.
  - pose proof (Q.max_spec (x cell) (x element)) as Mx.
    pose proof (Q.min_spec (x cell + width cell) (x element + width element)) as mx.
    pose proof (Q.max_spec (y cell) (y element)) as My.
    pose proof (Q.min_spec (y cell + height cell) (y element + height element)) as my.
    set (iw := (Qmin (x cell + width cell) (x element + width element)
                - Qmax (x cell) (x element))%Q) in *.
    set (ih := (Qmin (y cell + height cell) (y element + height element)
                - Qmax (y cell) (y element))%Q) in *.
    assert (Hiw : (0 <= iw <= width element)%Q) by (unfold iw; lra).
    assert (Hih : (0 <= ih <= height element)%Q) by (unfold ih; lra).
    assert (Hpos : (0 < width element * height element)%Q).
    { assert ((0 <= width element * height element)%Q) by nra.
      destruct (Qlt_le_dec 0 (width element * height element)) as [L|L]; [exact L|].
      exfalso. apply Hz. lra. }
    split.
    + apply Qle_shift_div_l; [exact Hpos|]. nra.
    + intros [L|L]; exfalso; unfold iw, ih in *; lra.
Qed.

Lemma percentage_of_element_in_cell_range_witness :
  (getPercentageOfElementInCell (mkRectangle 200 5 50 10) (mkRectangle 0 0 100 20) == 0)%Q.
Proof.
  apply (proj2 (percentage_of_element_in_cell_range (mkRectangle 200 5 50 10)
                  (mkRectangle 0 0 100 20))).
  left. vm_compute. reflexivity.
Defined.

Lemma horizontal_overlap_cases (r1 r2 : Rectangle) :
  (getHorizontalOverlapPercentage (Some r1) (Some r2) = 0%Q
   /\ ((x r2 + width r2 <= x r1)%Q \/ (x r1 + width r1 <= x r2)%Q
       \/ (width r1 == 0)%Q \/ (width r2 == 0)%Q))
  \/ (getHorizontalOverlapPercentage (Some r1) (Some r2)
      = ((Qmin (x r1 + width r1) (x r2 + width r2) - Qmax (x r1) (x r2)) * 100
         / (Qmax (x r1 + width r1) (x r2 + width r2) - Qmin (x r1) (x r2)))%Q
      /\ (x r1 < x r2 + width r2)%Q /\ (x r2 < x r1 + width r1)%Q
      /\ ~ (width r1 == 0)%Q /\ ~ (width r2 == 0)%Q).
Proof.
  unfold getHorizontalOverlapPercentage, Num.geb, Num.leb, Num.eqb.
  destruct (Qle_bool (x r2 + width r2) (x r1)) eqn:A; cbn [orb].
  { left. apply Qle_bool_iff in A. auto. }
  destruct (Qle_bool (x r1 + width r1) (x r2)) eqn:B; cbn [orb].
  { left. apply Qle_bool_iff in B. auto. }
  destruct (Qeq_bool (width r1) 0) eqn:C; cbn [orb].
  { left. apply Qeq_bool_iff in C. auto. }
  destruct (Qeq_bool (width r2) 0) eqn:D; cbn [orb].
  { left. apply Qeq_bool_iff in D. auto. }
  right. split; [reflexivity|].
  repeat split.
  - apply Qnot_le_lt. intros H. apply Qle_bool_iff in H. congruence.
  - apply Qnot_le_lt. intros H. apply Qle_bool_iff in H. congruence.
  - intros H. apply Qeq_bool_iff in H. congruence.
  - intros H. apply Qeq_bool_iff in H. congruence.
Qed.

(** X4.  The horizontal overlap percentage does not depend on the order
    of the two rectangles; for two rectangles of non-negative width it is
    never negative; and it is 0 when one of the two spans ends where the
    other starts or before. *)
Theorem horizontal_overlap_range (r1 r2 : Rectangle) :
  (getHorizontalOverlapPercentage (Some r1) (Some r2)
   == getHorizontalOverlapPercentage (Some r2) (Some r1))%Q
  /\ ((0 <= width r1)%Q -> (0 <= width r2)%Q ->
      (0 <= getHorizontalOverlapPercentage (Some r1) (Some r2))%Q)
  /\ ((x r2 + width r2 <= x r1)%Q \/ (x r1 + width r1 <= x r2)%Q ->
      getHorizontalOverlapPercentage (Some r1) (Some r2) = 0%Q).
Proof.
  pose proof (Q.max_spec (x r1 + width r1) (x r2 + width r2)) as Me.
  pose proof (Q.min_spec (x r1 + width r1) (x r2 + width r2)) as me.
  pose proof (Q.max_spec (x r1) (x r2)) as Ms.
  pose proof (Q.min_spec (x r1) (x r2)) as ms.
  pose proof (Q.max_spec (x r2 + width r2) (x r1 + width r1)) as Me'.
  pose proof (Q.min_spec (x r2 + width r2) (x r1 + width r1)) as me'.
  pose proof (Q.max_spec (x r2) (x r1)) as Ms'.
  pose proof (Q.min_spec (x r2) (x r1)) as ms'.
  split; [|split].
  - destruct (horizontal_overlap_cases r1 r2) as [[E Hno]|(E & L1 & L2 & N1 & N2)];
      destruct (horizontal_overlap_cases r2 r1) as [[E' Hno']|(E' & L1' & L2' & N1' & N2')];
      rewrite E, E'; try reflexivity; try (exfalso; tauto || lra).
    assert (Ei : (Qmin (x r1 + width r1) (x r2 + width r2) - Qmax (x r1) (x r2)
                  == Qmin (x r2 + width r2) (x r1 + width r1) - Qmax (x r2) (x r1))%Q)
      by lra.
    assert (Eu : (Qmax (x r1 + width r1) (x r2 + width r2) - Qmin (x r1) (x r2)
                  == Qmax (x r2 + width r2) (x r1 + width r1) - Qmin (x r2) (x r1))%Q)
      by lra.
    rewrite Ei, Eu. reflexivity.
  - intros W1 W2.
    destruct (horizontal_overlap_cases r1 r2) as [[E _]|(E & L1 & L2 & N1 & N2)];
      rewrite E; [lra|].
    assert (P1 : (0 < width r1)%Q)
      by (destruct (Qlt_le_dec 0 (width r1)); [assumption|exfalso; apply N1; lra]).
    assert (P2 : (0 < width r2)%Q)
      by (destruct (Qlt_le_dec 0 (width r2)); [assumption|exfalso; apply N2; lra]).
    apply Qle_shift_div_l; lra.
  - intros Hno.
    destruct (horizontal_overlap_cases r1 r2) as [[E _]|(E & L1 & L2 & N1 & N2)];
      [exact E|exfalso; lra].
Qed.

Lemma horizontal_overlap_range_witness :
  getHorizontalOverlapPercentage (Some (mkRectangle 0 (-80) 100 20))
    (Some (mkRectangle 100 (-100) 100 20)) = 0%Q.
Proof.
  apply (proj2 (proj2 (horizontal_overlap_range (mkRectangle 0 (-80) 100 20)
                         (mkRectangle 100 (-100) 100 20)))).
  right. vm_compute. discriminate.
Defined.

(** ** The vector line extractor: transforms, brackets and fills *)

Lemma runOperators_app (ops1 ops2 : list Operator) (s : LineState) :
  runOperators s (ops1 ++ ops2)
  = match runOperators s ops1 with
    | Some s' => runOperators s' ops2
    | None => None
    end.
Proof.
  revert s. induction ops1 as [|op ops1 IH]; intros s; simpl; [reflexivity|].
  destruct (stepOperator s op); [apply IH|reflexivity].
Qed.

Lemma stepOperator_lines (s s' : LineState) (op : Operator) :
  stepOperator s op = Some s' ->
  List.length (lines s')
  = List.length (lines s)
    + (if isFill op then match previousRectangle s with Some _ => 1 | None => 0 end else 0)
  /\ (isFill op = true -> previousRectangle s' = None).
Proof.
  destruct s as [ls prev stack t]. destruct op; simpl; intros E.
  - inversion E; subst; simpl. split; [lia|discriminate].
  - destruct stack; inversion E; subst; simpl; (split; [lia|discriminate]).
  - destruct t; inversion E; subst; simpl. split; [lia|discriminate].
  - destruct (constructPath ops args t 0 prev); inversion E; subst; simpl.
    split; [lia|discriminate].
  - destruct prev; inversion E; subst; simpl; (split; [|reflexivity]).
    + rewrite length_app. simpl. lia.
    + lia.
  - destruct prev; inversion E; subst; simpl; (split; [|reflexivity]).
    + rewrite length_app. simpl. lia.
    + lia.
  - inversion E; subst; simpl. split; [lia|discriminate].
Qed.

Lemma runOperators_lines (operators : list Operator) :
  forall s s',
    runOperators s operators = Some s' ->
    List.length (lines s')
    <= List.length (lines s) + List.length (filter isFill operators).
Proof.
  induction operators as [|op operators IH]; intros s s' E; simpl in E.
  - inversion E; subst. simpl. lia.
  - destruct (stepOperator s op) as [s1|] eqn:E1; [|discriminate].
    apply IH in E. apply stepOperator_lines in E1 as [E1 _].
    simpl. destruct (isFill op); simpl; [destruct (previousRectangle s)|]; lia.
Qed.

(** X6.  The extractor commits at most one line for each fill operator
    of the page: a page without fill operators has no line, and so no
    cell. *)
Theorem committed_lines_bounded_by_fills (operators : list Operator) (ls : list Shape) :
  parseLines operators = Some ls ->
  List.length ls <= List.length (filter isFill operators)
  /\ (filter isFill operators = [] -> ls = [] /\ buildCells ls = []).
Proof.
  unfold parseLines. intros E.
  destruct (runOperators initialLineState operators) as [s|] eqn:R; [|discriminate].
  inversion E; subst. apply runOperators_lines in R. simpl in R.
  split; [exact R|]. intros F. rewrite F in R. simpl in R.
  assert (lines s = []) as -> by (apply length_zero_iff_nil; lia).
  split; reflexivity.
Qed.

Lemma committed_lines_bounded_by_fills_witness :
  List.length Sample.gridLines <= List.length (filter isFill Sample.gridOperators).
Proof.
  apply (@committed_lines_bounded_by_fills Sample.gridOperators Sample.gridLines).
  vm_compute. reflexivity.
Defined.

Lemma parseLines_defined_witness :
  exists lines, parseLines (Save :: Sample.flippedOperators ++ [Restore]) = Some lines.
Proof.
  apply (@parseLines_defined (Save :: Sample.flippedOperators ++ [Restore])).
  reflexivity.
Defined.

Lemma stepOperator_stack (s s' : LineState) (op : Operator) :
  stepOperator s op = Some s' ->
  match op with
  | Save => transformStack s' = transform s :: transformStack s
            /\ transform s' = transform s
  | Restore =>
      match transformStack s with
      | [] => transformStack s' = [] /\ transform s' = None
      | t :: rest => transformStack s' = rest /\ transform s' = t
      end
  | _ => transformStack s' = transformStack s
  end.
Proof.
  destruct s as [ls prev stack t]. destruct op; simpl; intros E.
  - inversion E; subst; simpl. auto.
  - destruct stack; inversion E; subst; simpl; auto.
  - destruct t; inversion E; subst; reflexivity.
  - destruct (constructPath ops args t 0 prev); inversion E; subst; reflexivity.
  - destruct prev; inversion E; subst; reflexivity.
  - destruct prev; inversion E; subst; reflexivity.
  - inversion E; subst; reflexivity.
Qed.

Lemma runOperators_stack (operators : list Operator) :
  forall (s s' : LineState) (pre base : list (option Transform)) (d : nat),
    transformStack s = pre ++ base ->
    depthAfter (List.length pre) operators = Some d ->
    runOperators s operators = Some s' ->
    exists pre', transformStack s' = pre' ++ base /\ List.length pre' = d.
Proof.
  induction operators as [|op operators IH]; intros s s' pre base d Hs Hd Hr;
    simpl in Hd, Hr.
  - inversion Hd; inversion Hr; subst. eauto.
  - destruct (stepOperator s op) as [s1|] eqn:E1; [|discriminate].
    apply stepOperator_stack in E1.
    destruct op.
    + destruct E1 as [E1 _].
      apply (IH s1 s' (transform s :: pre) base d); auto. rewrite E1, Hs. reflexivity.
    + destruct pre as [|p pre]; [discriminate|]. rewrite Hs in E1. simpl in E1, Hd.
      destruct E1 as [E1 _]. apply (IH s1 s' pre base d); auto.
    + apply (IH s1 s' pre base d); auto. congruence.
    + apply (IH s1 s' pre base d); auto. congruence.
    + apply (IH s1 s' pre base d); auto. congruence.
    + apply (IH s1 s' pre base d); auto. congruence.
    + apply (IH s1 s' pre base d); auto. congruence.
Qed.

(** X7.  A save and the restore that matches it bracket the transform:
    whatever the operators between them do (transforms, paths, fills,
    nested brackets), as long as each restore between them matches a save
    between them, the current transform and the stack after the closing
    restore are those before the opening save. *)
Theorem save_restore_bracket (operators : list Operator) (s s' : LineState) :
  depthAfter 0 operators = Some 0 ->
  runOperators s (Save :: operators ++ [Restore]) = Some s' ->
  transform s' = transform s /\ transformStack s' = transformStack s.
Proof.
  intros Hd Hr. cbn [runOperators stepOperator] in Hr.
  rewrite runOperators_app in Hr.
  set (s1 := {| lines := lines s; previousRectangle := previousRectangle s;
                transformStack := transform s :: transformStack s;
                transform := transform s |}) in *.
  destruct (runOperators s1 operators) as [s2|] eqn:E2; [|discriminate].
  destruct (@runOperators_stack operators s1 s2 [] (transform s :: transformStack s) 0
              eq_refl Hd E2) as (pre' & Hstack & Hlen).
  apply length_zero_iff_nil in Hlen. subst pre'. simpl in Hstack.
  cbn [runOperators] in Hr.
  destruct (stepOperator s2 Restore) as [s3|] eqn:E3; [|discriminate].
  inversion Hr; subst s3. apply stepOperator_stack in E3. rewrite Hstack in E3.
  destruct E3 as [E3 E4]. auto.
Qed.

Lemma save_restore_bracket_witness :
  exists s',
    runOperators initialLineState (Save :: Sample.flippedOperators ++ [Restore]) = Some s'
    /\ transform s' = Some identityTransform.
Proof.
  destruct (runOperators initialLineState (Save :: Sample.flippedOperators ++ [Restore]))
    as [s'|] eqn:E; [|vm_compute in E; discriminate].
  exists s'. split; [reflexivity|].
  apply (proj1 (@save_restore_bracket Sample.flippedOperators initialLineState s'
                  eq_refl E)).
Defined.

(** X9.  Two restores at the start of a page empty the stack and leave no
    current transform; a transform operator, or a path with a rectangle,
    that comes next makes the extractor fail, whatever follows, while
    paths without a rectangle, fills and saves are still accepted. *)
Theorem unmatched_restores_fail (m : Transform) (before after : list PathOp)
    (args : list Q) (rest : list Operator) :
  parseLines (Restore :: Restore :: TransformOp m :: rest) = None
  /\ (Forall (fun op => op <> RectangleOp) before ->
      parseLines (Restore :: Restore
                  :: ConstructPath (before ++ RectangleOp :: after) args :: rest)
      = None)
  /\ parseLines [Restore; Restore; Save; ConstructPath [MoveTo; LineTo] args; Fill]
     = Some [].
Proof.
  split; [reflexivity|]. split; [|reflexivity].
  intros Hbefore. unfold parseLines. simpl.
  assert (H : forall i p,
             constructPath (before ++ RectangleOp :: after) args None i p = None).
  { induction Hbefore as [|op before Hop _ IH]; intros i p; simpl; [reflexivity|].
    destruct op; try apply IH. congruence. }
  rewrite H. reflexivity.
Qed.

Lemma unmatched_restores_fail_witness :
  parseLines (Restore :: Restore
              :: ConstructPath ([MoveTo; LineTo] ++ RectangleOp :: []) [0; 0; 1; 1; 0; 0; 300; 1]%Q
              :: [Fill])
  = None.
Proof.
  apply (proj1 (proj2 (@unmatched_restores_fail identityTransform [MoveTo; LineTo] []
                         [0; 0; 1; 1; 0; 0; 300; 1]%Q [Fill]))).
  repeat constructor; discriminate.
Defined.

(** ** The grid builder: cells between sorted lines *)

Lemma constructCells_In (hs vs : list Rectangle) (c : Cell) :
  In c (constructCells hs vs) ->
  exists i j,
    i < List.length hs - 1 /\ j < List.length vs - 1
    /\ c = gridCell (nth i hs zeroRectangle) (nth (i + 1) hs zeroRectangle)
                    (nth j vs zeroRectangle) (nth (j + 1) vs zeroRectangle).
Proof.
  unfold constructCells. intros H.
  apply in_flat_map in H as (i & Hi & H). apply in_map_iff in H as (j & E & Hj).
  apply in_seq in Hi. apply in_seq in Hj. exists i, j. repeat split; auto; lia.
Qed.

Lemma Sorted_nth_adjacent (A : Type) (R : A -> A -> Prop) (d : A) (l : list A) :
  Sorted R l ->
  forall i, i + 1 < List.length l -> R (nth i l d) (nth (i + 1) l d).
Proof.
  induction 1 as [|a l Hs IH Hhd]; intros i Hi; simpl in Hi; [lia|].
  destruct i as [|i].
  - destruct Hhd as [|b l' Hab]; simpl in *; [lia|exact Hab].
  - simpl. apply IH. lia.
Qed.

(** X10.  Every cell that the grid builder makes has a non-negative
    width and a non-negative height, because the lines are sorted before
    the cells are cut; it starts at the [x] of a classified vertical line
    and at the [y] of a classified horizontal line, and it holds no
    element yet. *)
Theorem buildCells_cell_bounds (ls : list Shape) (c : Cell) :
  In c (buildCells ls) ->
  (0 <= width c)%Q /\ (0 <= height c)%Q
  /\ elements c = []
  /\ (exists v, In (Rect v) ls /\ isVerticalLine v = true /\ x c = x v)
  /\ (exists h, In (Rect h) ls /\ isHorizontalLine h = true /\ y c = y h).
Proof.
  unfold buildCells. intros H.
  apply constructCells_In in H as (i & j & Hi & Hj & ->). simpl.
  pose proof (@Sorted_nth_adjacent _ _ zeroRectangle _
                (sortedHorizontalLines_sorted ls) i ltac:(lia)) as Hy.
  pose proof (@Sorted_nth_adjacent _ _ zeroRectangle _
                (sortedVerticalLines_sorted ls) j ltac:(lia)) as Hx.
  simpl in Hx, Hy.
  split; [lra|]. split; [lra|]. split; [reflexivity|]. split.
  - exists (nth j (sortedVerticalLines ls) zeroRectangle).
    assert (Hin : In (nth j (sortedVerticalLines ls) zeroRectangle) (verticalLinesOf ls)).
    { apply (Permutation_in _ (ArrFacts.sort_perm verticalLineComparer (verticalLinesOf ls))).
      apply nth_In. fold (sortedVerticalLines ls). lia. }
    apply verticalLinesOf_In in Hin as [H1 H2]. auto.
  - exists (nth i (sortedHorizontalLines ls) zeroRectangle).
    assert (Hin : In (nth i (sortedHorizontalLines ls) zeroRectangle)
                     (horizontalLinesOf ls)).
    { apply (Permutation_in _ (ArrFacts.sort_perm horizontalLineComparer
                                 (horizontalLinesOf ls))).
      apply nth_In. fold (sortedHorizontalLines ls). lia. }
    apply horizontalLinesOf_In in Hin as [H1 H2]. auto.
Qed.

Lemma buildCells_cell_bounds_witness :
  (0 <= width (Sample.emptyCellAt 0 60 100 20))%Q
  /\ (0 <= height (Sample.emptyCellAt 0 60 100 20))%Q.
Proof.
  destruct (@buildCells_cell_bounds Sample.gridLines (Sample.emptyCellAt 0 60 100 20))
    as (Hw & Hh & _).
  - vm_compute. left. reflexivity.
  - split; assumption.
Defined.

(** ** The cell-text binder and the rows *)

Lemma findIndex_lt (A : Type) (p : A -> bool) (l : list A) (i : nat) :
  Arr.findIndex p l = Some i -> i < List.length l.
Proof.
  intros H. apply ArrFacts.findIndex_Some in H as (a & Hn & _).
  apply nth_error_Some. congruence.
Qed.

Lemma boundElementCount_updateAt (i : nat) (element : Element) (cells : list Cell) :
  i < List.length cells ->
  boundElementCount (Arr.updateAt i (pushElement element) cells)
  = S (boundElementCount cells).
Proof.
  unfold boundElementCount. revert i.
  induction cells as [|c cells IH]; intros i Hi; simpl in Hi; [lia|].
  destruct i as [|i]; simpl.
  - repeat rewrite length_app. simpl. lia.
  - repeat rewrite length_app. rewrite IH by lia. lia.
Qed.

(** X11.  The allocation loop changes neither the number nor the bounds
    of the cells, and it attaches every element at most once: the number
    of elements held by the cells grows by exactly the number of
    elements that have an owning cell. *)
Theorem allocateElements_conserves (cells : list Cell) (elements0 : list Element) :
  map cellBounds (allocateElements cells elements0) = map cellBounds cells
  /\ boundElementCount (allocateElements cells elements0)
     = boundElementCount cells
       + List.length (filter (fun element => isSome (ownerCell element cells)) elements0).
Proof.
  revert cells. induction elements0 as [|e els IH]; intros cells.
  - split; [reflexivity|]. simpl. lia.
  - unfold allocateElements in *. simpl fold_left.
    destruct (IH (allocateElement cells e)) as [IHb IHc].
    pose proof (allocateElement_bounds cells e) as Hb.
    split; [congruence|]. rewrite IHc.
    rewrite (filter_ext (fun element => isSome (ownerCell element (allocateElement cells e)))
               (fun element => isSome (ownerCell element cells)))
      by (intros a; rewrite (@ownerCell_bounds a _ _ Hb); reflexivity).
    unfold allocateElement. simpl filter.
    destruct (ownerCell e cells) as [i|] eqn:Eo; simpl.
    + rewrite boundElementCount_updateAt by (apply (findIndex_lt _ _ Eo)). lia.
    + reflexivity.
Qed.

Lemma concat_updateAt_perm (rows : list (list Cell)) (i : nat) (cell : Cell) :
  i < List.length rows ->
  Permutation (List.concat (Arr.updateAt i (fun r => r ++ [cell]) rows))
              (cell :: List.concat rows).
Proof.
  revert i. induction rows as [|row rows IH]; intros i Hi; simpl in Hi; [lia|].
  destruct i as [|i]; simpl.
  - rewrite <- app_assoc. simpl. symmetry. apply Permutation_middle.
  - rewrite IH by lia. symmetry. apply Permutation_middle.
Qed.

Lemma addToRows_perm (rows : list (list Cell)) (cell : Cell) :
  Permutation (List.concat (addToRows rows cell)) (cell :: List.concat rows).
Proof.
  unfold addToRows. destruct (Arr.findIndex (rowMatches cell) rows) as [i|] eqn:E.
  - apply concat_updateAt_perm. apply (findIndex_lt _ _ E).
  - rewrite List.concat_app. simpl.
    symmetry. apply Permutation_cons_append.
Qed.

Lemma fold_addToRows_perm (cells : list Cell) (rows : list (list Cell)) :
  Permutation (List.concat (fold_left addToRows cells rows)) (List.concat rows ++ cells).
Proof.
  revert rows. induction cells as [|c cells IH]; intros rows; simpl.
  - rewrite app_nil_r. reflexivity.
  - rewrite IH, addToRows_perm. apply Permutation_middle.
Qed.

Lemma updateAt_Forall (A : Type) (P : A -> Prop) (f : A -> A) (i : nat) (l : list A) :
  Forall P l ->
  (forall a, nth_error l i = Some a -> P a -> P (f a)) ->
  Forall P (Arr.updateAt i f l).
Proof.
  intros H. revert i. induction H as [|a l Ha Hl IH]; intros i Hf; destruct i; simpl;
    constructor; auto.
Qed.

Lemma addToRows_aligned (rows : list (list Cell)) (cell : Cell) :
  Forall rowAligned rows -> Forall rowAligned (addToRows rows cell).
Proof.
  intros H. unfold addToRows.
  destruct (Arr.findIndex (rowMatches cell) rows) as [i|] eqn:E.
  - apply ArrFacts.findIndex_Some in E as (row & Hn & Hm & _).
    apply updateAt_Forall; [exact H|].
    intros r Hr (first & rest & -> & Hall).
    assert (row = first :: rest) by congruence. subst row.
    simpl in Hm. apply NumFacts.ltb_lt in Hm.
    exists first, (rest ++ [cell]). split; [reflexivity|].
    change (first :: rest ++ [cell]) with ((first :: rest) ++ [cell]).
    apply Forall_app. split; [exact Hall|]. constructor; [exact Hm|constructor].
  - apply Forall_app. split; [exact H|]. constructor; [|constructor].
    exists cell, []. split; [reflexivity|]. constructor; [|constructor].
    assert (Z : (y cell - y cell == 0)%Q) by ring. rewrite Z. reflexivity.
Qed.

Lemma groupRows_partition_perm (cells : list Cell) :
  Permutation (List.concat (groupRows cells)) cells.
Proof. apply (fold_addToRows_perm cells []). Qed.

Lemma groupRows_aligned (cells : list Cell) : Forall rowAligned (groupRows cells).
Proof.
  unfold groupRows.
  assert (H : forall rows, Forall rowAligned rows ->
                           Forall rowAligned (fold_left addToRows cells rows)).
  { induction cells as [|c cells IH]; intros rows Hr; simpl; [exact Hr|].
    apply IH. apply addToRows_aligned. exact Hr. }
  apply (H [] (Forall_nil _)).
Qed.

(** X12.  Grouping puts every cell in exactly one row: the rows taken
    together are a rearrangement of the cells.  No row is empty, and
    every cell of a row lies within 2 units of the [y] of the first cell
    of its row. *)
Theorem groupRows_partition (cells : list Cell) :
  Permutation (List.concat (groupRows cells)) cells
  /\ Forall rowAligned (groupRows cells).
Proof.
  split; [apply groupRows_partition_perm|apply groupRows_aligned].
Qed.





Lemma concat_perm_map (f : list Cell -> list Cell) (rows : list (list Cell)) :
  (forall row, Permutation (f row) row) ->
  Permutation (List.concat (map f rows)) (List.concat rows).
Proof.
  intros Hf. induction rows as [|row rows IH]; simpl; [reflexivity|].
  apply Permutation_app; [apply Hf|exact IH].
Qed.

Lemma concat_perm (rows rows' : list (list Cell)) :
  Permutation rows rows' -> Permutation (List.concat rows) (List.concat rows').
Proof.
  induction 1; simpl.
  - reflexivity.
  - apply Permutation_app_head. assumption.
  - repeat rewrite app_assoc. apply Permutation_app_tail. apply Permutation_app_comm.
  - etransitivity; eassumption.
Qed.

(** X14.  Sorting the rows loses and duplicates no cell: the rows that
    the row loop visits are, taken together, a rearrangement of the
    cells of the page, there are as many rows as grouping made, and
    within every row the cells are in ascending order of [x]. *)
Theorem sortRows_rows (cells : list Cell) :
  Permutation (List.concat (sortRows (groupRows cells))) cells
  /\ List.length (sortRows (groupRows cells)) = List.length (groupRows cells)
  /\ Forall (Sorted (fun a b : Cell => (x a <= x b)%Q)) (sortRows (groupRows cells)).
Proof.
  unfold sortRows. split; [|split].
  - rewrite concat_perm_map by (intros row; apply ArrFacts.sort_perm).
    rewrite (concat_perm (ArrFacts.sort_perm rowComparer (groupRows cells))).
    apply groupRows_partition_perm.
  - rewrite length_map. apply ArrFacts.length_sort.
  - apply Forall_forall. intros row Hrow. apply in_map_iff in Hrow as (r & <- & _).
    apply ArrFacts.sort_sorted; intros a b.
    + apply compareNumbers_after.
    + apply compareNumbers_before.
Qed.

(** ** The record builder and the documents *)

Section RecordFacts.
Variable didyoumean2 : string -> list string -> nat -> option string.
Variable momentStrict : string -> option string.
Variable StreetNames : list (string * list string).
Variable StreetSuffixes : list (string * string).
Variable SuburbNames : list (string * string).
Variable today : string.

Local Abbreviation processRowE :=
  (processRow didyoumean2 momentStrict StreetNames StreetSuffixes SuburbNames today).
Local Abbreviation processRowsE :=
  (processRows didyoumean2 momentStrict StreetNames StreetSuffixes SuburbNames today).
Local Abbreviation processPageE :=
  (processPage didyoumean2 momentStrict StreetNames StreetSuffixes SuburbNames today).
Local Abbreviation parsePageE :=
  (parsePage didyoumean2 momentStrict StreetNames StreetSuffixes SuburbNames today).
Local Abbreviation parsePagesE :=
  (parsePages didyoumean2 momentStrict StreetNames StreetSuffixes SuburbNames today).
Local Abbreviation parsePdfE :=
  (parsePdf didyoumean2 momentStrict StreetNames StreetSuffixes SuburbNames today).

Lemma processRow_wellFormed (url : string) (h : Headings) (row : list Cell)
    (app : DevelopmentApplication) (log : list string) :
  processRowE url h row = (Some app, log) -> wellFormedApplication url today app.
Proof.
  intros H. apply processRow_emits in H
    as (idCell & streetCell & suburbCell & _ & T & _ & _ & _ & _ & Ha & -> & _).
  unfold wellFormedApplication, makeApplication. cbn [applicationNumber address
    description informationUrl commentUrl scrapeDate].
  split; [apply applicationNumberRegex_test; exact T|]. split; [exact Ha|].
  split; [|auto].
  destruct (String.eqb_spec
              match findDataCell (descriptionHeadingCell h) row with
              | Some cell => cellText cell
              | None => ""
              end "") as [E|N]; [discriminate|exact N].
Qed.

(** X15.  A row has one of three outcomes: a record and the single log
    entry that the application was found; no record and no log entry
    (the identifier cell is missing or fails the check); or no record and
    two log entries, that the application was found and why it is
    ignored.  A row never yields a record together with a rejection. *)
Theorem processRow_outcomes (url : string) (h : Headings) (row : list Cell) :
  (exists app applicationNumber0,
     processRowE url h row = (Some app, [foundMessage applicationNumber0])
     /\ applicationNumber app = applicationNumber0)
  \/ processRowE url h row = (None, [])
  \/ (exists applicationNumber0 reason,
        processRowE url h row = (None, [foundMessage applicationNumber0; reason])
        /\ isIgnoringMessage reason = true).
Proof.
  unfold processRow.
  destruct (findDataCell (applicationNumberHeadingCell h) row) as [idCell|];
    [|right; left; reflexivity].
  destruct (RegExp.test applicationNumberRegex (applicationNumberText idCell));
    cbn [negb]; [|right; left; reflexivity].
  destruct (findDataCell (streetNameHeadingCell h) row) as [streetCell|];
    [|right; right; eexists; eexists; split; reflexivity].
  destruct (findDataCell (suburbNameHeadingCell h) row) as [suburbCell|];
    [|right; right; eexists; eexists; split; reflexivity].
  destruct (String.eqb (cellText streetCell) "");
    [right; right; eexists; eexists; split; reflexivity|].
  destruct (String.eqb (cellText suburbCell) "");
    [right; right; eexists; eexists; split; reflexivity|].
  destruct (String.eqb _ "");
    [right; right; eexists; eexists; split; reflexivity|].
  left. eexists. eexists. split; reflexivity.
Qed.

(** X16.  A row whose street cell or suburb cell is missing, or yields
    the empty text once its fragments are joined, collapsed and trimmed,
    yields no record, whatever its other cells hold. *)
Theorem processRow_requires_street_and_suburb
    (url : string) (h : Headings) (row : list Cell) :
  findDataCell (streetNameHeadingCell h) row = None
  \/ findDataCell (suburbNameHeadingCell h) row = None
  \/ (exists cell, findDataCell (streetNameHeadingCell h) row = Some cell
                   /\ cellText cell = "")
  \/ (exists cell, findDataCell (suburbNameHeadingCell h) row = Some cell
                   /\ cellText cell = "") ->
  fst (processRowE url h row) = None.
Proof.
  intros Hbad.
  destruct (processRowE url h row) as [[app|] log] eqn:E; [|reflexivity].
  exfalso. apply processRow_emits in E
    as (idCell & streetCell & suburbCell & _ & _ & Hs & Hb & Ns & Nb & _).
  destruct Hbad as [H|[H|[(c & H & Hc)|(c & H & Hc)]]]; congruence.
Qed.

Lemma processRows_app (url : string) (h : Headings) (rows1 rows2 : list (list Cell)) :
  processRowsE url h (rows1 ++ rows2)
  = (fst (processRowsE url h rows1) ++ fst (processRowsE url h rows2),
     snd (processRowsE url h rows1) ++ snd (processRowsE url h rows2)).
Proof.
  induction rows1 as [|row rows1 IH]; simpl.
  - destruct (processRowsE url h rows2); reflexivity.
  - rewrite IH.
    destruct (processRowE url h row) as [[app|] log];
      destruct (processRowsE url h rows1) as [apps logs]; simpl;
      rewrite <- app_assoc; reflexivity.
Qed.

Lemma processRows_wellFormed (url : string) (h : Headings) (rows : list (list Cell)) :
  Forall (wellFormedApplication url today) (fst (processRowsE url h rows)).
Proof.
  induction rows as [|row rows IH]; simpl; [constructor|].
  destruct (processRowE url h row) as [[app|] log] eqn:E;
    destruct (processRowsE url h rows) as [apps logs]; simpl in *; [|exact IH].
  constructor; [|exact IH]. apply (processRow_wellFormed _ _ _ E).
Qed.

Lemma processRows_length (url : string) (h : Headings) (rows : list (list Cell)) :
  List.length (fst (processRowsE url h rows)) <= List.length rows.
Proof.
  induction rows as [|row rows IH]; simpl; [lia|].
  destruct (processRowE url h row) as [[app|] log];
    destruct (processRowsE url h rows) as [apps logs]; simpl in *; lia.
Qed.

(** X17.  The rows are handled one by one and independently: the
    records and the log of rows placed one after the other are those of
    the first rows followed by those of the last, and there are never
    more records than rows. *)
Theorem processRows_compose (url : string) (h : Headings) (rows1 rows2 : list (list Cell)) :
  processRowsE url h (rows1 ++ rows2)
  = (fst (processRowsE url h rows1) ++ fst (processRowsE url h rows2),
     snd (processRowsE url h rows1) ++ snd (processRowsE url h rows2))
  /\ List.length (fst (processRowsE url h (rows1 ++ rows2)))
     <= List.length rows1 + List.length rows2.
Proof.
  split; [apply processRows_app|].
  rewrite <- length_app. apply processRows_length.
Qed.

Lemma processPage_wellFormed (url : string) (cells : list Cell) (elements0 : list Element) :
  Forall (wellFormedApplication url today) (fst (processPageE url cells elements0)).
Proof.
  unfold processPage.
  destruct (groupRows (boundCells cells elements0)); [constructor|].
  destruct (applicationNumberHeadingCell _); [|constructor].
  destruct (streetNameHeadingCell _); [|constructor].
  destruct (suburbNameHeadingCell _); [|constructor].
  apply processRows_wellFormed.
Qed.

Lemma processPage_length (url : string) (cells : list Cell) (elements0 : list Element) :
  List.length (fst (processPageE url cells elements0)) <= List.length cells.
Proof.
  unfold processPage.
  destruct (groupRows (boundCells cells elements0)) as [|row rows] eqn:G; [simpl; lia|].
  assert (Hrows : List.length (row :: rows) <= List.length cells).
  { rewrite <- G.
    pose proof (groupRows_partition_perm (boundCells cells elements0)) as Hp.
    pose proof (groupRows_aligned (boundCells cells elements0)) as Ha.
    apply Permutation_length in Hp.
    unfold boundCells in Hp at 2. rewrite allocateElements_length in Hp.
    rewrite ArrFacts.length_sort, length_map in Hp. rewrite <- Hp.
    clear Hp G. induction Ha as [|r rs (first & rest & -> & _) _ IH]; simpl; [lia|].
    rewrite length_app. simpl. lia. }
  destruct (applicationNumberHeadingCell _); [|simpl; lia].
  destruct (streetNameHeadingCell _); [|simpl; lia].
  destruct (suburbNameHeadingCell _); [|simpl; lia].
  etransitivity; [apply processRows_length|].
  unfold sortRows. rewrite length_map, ArrFacts.length_sort. exact Hrows.
Qed.

Lemma parsePage_wellFormed (url : string) (page : Page) :
  Forall (wellFormedApplication url today) (pageApplications (parsePageE url page)).
Proof.
  unfold parsePage. destruct (parseCells (operators page)) as [cells|]; [|constructor].
  simpl. pose proof (processPage_wellFormed url cells (pageElements page)) as H.
  destruct (processPageE url cells (pageElements page)). exact H.
Qed.

Lemma parsePages_applications (url : string) (numPages : nat) (pages : list Page) :
  forall pageIndex applications log,
    parsePagesE url numPages pageIndex pages = Some (applications, log) ->
    applications
    = List.concat (map (fun page => pageApplications (parsePageE url page)) pages)
    /\ Forall (fun page => parsePageE url page <> None) pages.
Proof.
  induction pages as [|page pages IH]; intros pageIndex applications log H; simpl in H.
  - inversion H; subst. split; [reflexivity|constructor].
  - destruct (parsePageE url page) as [[apps lg]|] eqn:E; [|discriminate].
    destruct (parsePagesE url numPages (S pageIndex) pages) as [[apps' lg']|] eqn:E';
      [|discriminate].
    inversion H; subst. destruct (IH _ _ _ E') as [-> Hall].
    simpl. rewrite E. split; [reflexivity|]. constructor; [congruence|exact Hall].
Qed.

Lemma parsePages_fails (url : string) (numPages : nat) (pages : list Page) :
  forall pageIndex,
    parsePagesE url numPages pageIndex pages = None <->
    exists page, In page pages /\ parsePageE url page = None.
Proof.
  induction pages as [|page pages IH]; intros pageIndex; simpl.
  - split; [discriminate|]. intros (page & [] & _).
  - destruct (parsePageE url page) as [[apps lg]|] eqn:E.
    + destruct (parsePagesE url numPages (S pageIndex) pages) as [[apps' lg']|] eqn:E'.
      * split; [discriminate|]. intros (p & [<-|Hin] & Hp); [congruence|].
        assert (F : parsePagesE url numPages (S pageIndex) pages = None)
          by (apply IH; eauto).
        congruence.
      * split; [|reflexivity]. intros _. apply IH in E' as (p & Hin & Hp). eauto.
    + split; [|reflexivity]. intros _. exists page. auto.
Qed.

(** X18.  Every record that [parsePdf] returns has an application
    number that contains digits, slash, digits, slash, digits, a
    non-empty address and a non-empty description, the address of the
    document as its information URL, the fixed comment URL and the date
    of the run.  The records are those of the pages in the order of the
    pages. *)
Theorem parsePdf_applications (url : string) (pages : list Page)
    (applications : list DevelopmentApplication) (log : list string) :
  parsePdfE url pages = Some (applications, log) ->
  Forall (wellFormedApplication url today) applications
  /\ applications
     = List.concat (map (fun page => pageApplications (parsePageE url page)) pages).
Proof.
  unfold parsePdf. intros H.
  destruct (parsePagesE url (List.length pages) 0 pages) as [[apps lg]|] eqn:E;
    [|discriminate].
  inversion H; subst. apply parsePages_applications in E as [-> _].
  split; [|reflexivity].
  apply Forall_concat. apply Forall_forall. intros l Hl.
  apply in_map_iff in Hl as (page & <- & _). apply parsePage_wellFormed.
Qed.

(** X19.  A document fails as a whole exactly when the line extractor
    fails on one of its pages: then [parsePdf] returns nothing, not even
    the records of the pages before the failing one. *)
Theorem parsePdf_fails (url : string) (pages : list Page) :
  parsePdfE url pages = None <->
  exists page, In page pages /\ parseLines (operators page) = None.
Proof.
  unfold parsePdf.
  assert (Hpage : forall page, parsePageE url page = None
                               <-> parseLines (operators page) = None).
  { intros page. unfold parsePage, parseCells.
    destruct (parseLines (operators page)); simpl; split; congruence. }
  destruct (parsePagesE url (List.length pages) 0 pages) as [[apps lg]|] eqn:E.
  - split; [discriminate|]. intros (page & Hin & Hp).
    assert (F : parsePagesE url (List.length pages) 0 pages = None).
    { apply parsePages_fails. exists page. split; [exact Hin|]. apply Hpage. exact Hp. }
    congruence.
  - split; [|reflexivity]. intros _.
    apply parsePages_fails in E as (page & Hin & Hp).
    exists page. split; [exact Hin|]. apply Hpage. exact Hp.
Qed.

End RecordFacts.

Lemma processRow_requires_street_and_suburb_witness :
  fst (Sample.processSampleRow Sample.headings (Sample.dataRow "5/10/21" "1 MAIN ST" "  "))
  = None.
Proof.
  apply (@processRow_requires_street_and_suburb
           DidYouMean.didyoumean2 Moment.strict Sample.StreetNames
           Sample.StreetSuffixes Sample.SuburbNames Sample.today Sample.url
           Sample.headings (Sample.dataRow "5/10/21" "1 MAIN ST" "  ")).
  right. right. right. exists (Sample.cellWith "  " 200 (-80)).
  split; vm_compute; reflexivity.
Defined.

Lemma parsePdf_applications_witness :
  exists applications log,
    Sample.parse [Sample.textOnlyPage; Sample.page "1 MAIN ST" "CUMINS"]
    = Some (applications, log)
    /\ Forall (wellFormedApplication Sample.url Sample.today) applications.
Proof.
  destruct (Sample.parse [Sample.textOnlyPage; Sample.page "1 MAIN ST" "CUMINS"])
    as [[applications log]|] eqn:E; [|vm_compute in E; discriminate].
  exists applications, log. split; [reflexivity|].
  apply (proj1 (@parsePdf_applications
                  DidYouMean.didyoumean2 Moment.strict Sample.StreetNames
                  Sample.StreetSuffixes Sample.SuburbNames Sample.today Sample.url
                  [Sample.textOnlyPage; Sample.page "1 MAIN ST" "CUMINS"]
                  applications log E)).
Defined.

(** ** The address normaliser: exact hits, fallbacks and the last comma *)

(** X21.  When the tokens of a street text, the last one expanded, end
    in a known street name for one of the windows of 2 to 6 tokens, the
    street is returned in upper case with its last token expanded and
    everything before the street name kept; the fuzzy matcher is not
    consulted. *)
Theorem formatStreetName_exact
    (didyoumean2 didyoumean2' : string -> list string -> nat -> option string)
    (StreetNames : list (string * list string))
    (StreetSuffixes : list (string * string)) (text0 : string) (index : nat) :
  In index windowSizes ->
  In (Str.join " " (Arr.sliceLast index (streetTokens StreetSuffixes text0)))
     (Table.keys StreetNames) ->
  formatStreetName didyoumean2 StreetNames StreetSuffixes (Some text0)
  = Some (Str.join " " (streetTokens StreetSuffixes text0))
  /\ formatStreetName didyoumean2' StreetNames StreetSuffixes (Some text0)
     = formatStreetName didyoumean2 StreetNames StreetSuffixes (Some text0).
Proof.
  intros Hindex Hknown.
  assert (E : existsb (isKnownStreet StreetNames (streetTokens StreetSuffixes text0))
                windowSizes = true).
  { apply existsb_exists. exists index. split; [exact Hindex|].
    unfold isKnownStreet. apply lookup_key_present. exact Hknown. }
  unfold formatStreetName. rewrite E. split; reflexivity.
Qed.

Lemma formatStreetName_exact_witness :
  formatStreetName DidYouMean.didyoumean2 Sample.StreetNames Sample.StreetSuffixes
    (Some " unit 3 / 12 main st ")
  = Some "UNIT 3 / 12 MAIN STREET".
Proof.
  apply (@formatStreetName_exact DidYouMean.didyoumean2 DidYouMean.didyoumean2
           Sample.StreetNames Sample.StreetSuffixes " unit 3 / 12 main st " 2).
  - simpl. tauto.
  - simpl. tauto.
Defined.

Lemma fuzzyStreet_none
    (didyoumean2 : string -> list string -> nat -> option string)
    (StreetNames : list (string * list string)) (tokens : list string)
    (indexes : list nat) :
  (forall index, In index indexes ->
     didyoumean2 (Str.join " " (Arr.sliceLast index tokens))
       (Table.keys StreetNames) (7 - index) = None) ->
  fuzzyStreet didyoumean2 StreetNames tokens indexes = None.
Proof.
  induction indexes as [|index indexes IH]; intros H; cbn [fuzzyStreet]; [reflexivity|].
  rewrite (H index (or_introl eq_refl)). apply IH. intros i Hi. apply H. right. exact Hi.
Qed.

(** X22.  When no window of 2 to 6 tokens is a known street name and
    the fuzzy matcher finds nothing for any of them, the street text is
    returned exactly as it was given, neither trimmed nor put in upper
    case nor with its suffix expanded; and an undefined text stays
    undefined. *)
Theorem formatStreetName_fallback
    (didyoumean2 : string -> list string -> nat -> option string)
    (StreetNames : list (string * list string))
    (StreetSuffixes : list (string * string)) (text0 : string) :
  (forall index, In index windowSizes ->
     Table.lookup (Str.join " " (Arr.sliceLast index (streetTokens StreetSuffixes text0)))
       StreetNames = None) ->
  (forall index, In index windowSizes ->
     didyoumean2 (Str.join " " (Arr.sliceLast index (streetTokens StreetSuffixes text0)))
       (Table.keys StreetNames) (7 - index) = None) ->
  formatStreetName didyoumean2 StreetNames StreetSuffixes (Some text0) = Some text0
  /\ formatStreetName didyoumean2 StreetNames StreetSuffixes None = None.
Proof.
  intros Hexact Hfuzzy. split; [|reflexivity]. unfold formatStreetName.
  assert (E : existsb (isKnownStreet StreetNames (streetTokens StreetSuffixes text0))
                windowSizes = false).
  { apply not_true_is_false. intros H. apply existsb_exists in H as (index & Hi & Hk).
    unfold isKnownStreet in Hk. rewrite (Hexact index Hi) in Hk. discriminate. }
  rewrite E, (fuzzyStreet_none _ _ _ _ Hfuzzy). reflexivity.
Qed.

Lemma formatStreetName_fallback_witness :
  formatStreetName DidYouMean.didyoumean2 Sample.StreetNames Sample.StreetSuffixes
    (Some " zz ")
  = Some " zz ".
Proof.
  apply (@formatStreetName_fallback DidYouMean.didyoumean2 Sample.StreetNames
           Sample.StreetSuffixes " zz ").
  - intros index [<-|[<-|[<-|[<-|[<-|[]]]]]]; vm_compute; reflexivity.
  - intros index [<-|[<-|[<-|[<-|[<-|[]]]]]]; vm_compute; reflexivity.
Defined.

Lemma lastIndexOfFrom_absent (c : ascii) (s : string) :
  ~ In c (list_ascii_of_string s) ->
  forall i found, Str.lastIndexOfFrom c i found s = found.
Proof.
  induction s as [|d s IH]; intros Hno i found; simpl; [reflexivity|].
  simpl in Hno. destruct (Ascii.eqb_spec d c) as [->|_]; [tauto|].
  apply IH. tauto.
Qed.

Lemma lastIndexOfFrom_last (c : ascii) (a b : string) :
  ~ In c (list_ascii_of_string b) ->
  forall i found,
    Str.lastIndexOfFrom c i found (a ++ String c b)%string
    = (i + Z.of_nat (String.length a))%Z.
Proof.
  intros Hno. induction a as [|d a IH]; intros i found; simpl String.append.
  - cbn [Str.lastIndexOfFrom]. rewrite Ascii.eqb_refl.
    rewrite (@lastIndexOfFrom_absent c b Hno). simpl. lia.
  - cbn [Str.lastIndexOfFrom]. rewrite IH.
    cbn [String.length]. lia.
Qed.

Lemma substring_prefix (a rest : string) :
  String.substring 0 (String.length a) (a ++ rest)%string = a.
Proof.
  induction a as [|c a IH]; simpl.
  - destruct rest; reflexivity.
  - rewrite IH. reflexivity.
Qed.

Lemma substring_whole (b : string) : String.substring 0 (String.length b) b = b.
Proof.
  induction b as [|c b IH]; simpl; [reflexivity|]. rewrite IH. reflexivity.
Qed.

Lemma substring_skip (a rest : string) (m : nat) :
  String.substring (String.length a) m (a ++ rest)%string = String.substring 0 m rest.
Proof.
  induction a as [|c a IH]; simpl; [reflexivity|]. exact IH.
Qed.

Lemma string_length_append (a b : string) :
  String.length (a ++ b)%string = String.length a + String.length b.
Proof. induction a as [|c a IH]; simpl; [reflexivity|]. rewrite IH. reflexivity. Qed.

Lemma split_at_last_comma (a b : string) :
  ~ hasComma b ->
  Str.lastIndexOf "," (a ++ String "," b)%string = Z.of_nat (String.length a)
  /\ Str.substringTo (Z.of_nat (String.length a)) (a ++ String "," b)%string = a
  /\ Str.substringFrom (Z.of_nat (String.length a) + 1) (a ++ String "," b)%string = b.
Proof.
  intros Hno. split; [|split].
  - unfold Str.lastIndexOf. rewrite (@lastIndexOfFrom_last _ a b Hno). lia.
  - unfold Str.substringTo. rewrite Nat2Z.id. apply substring_prefix.
  - unfold Str.substringFrom.
    replace (Z.to_nat (Z.of_nat (String.length a) + 1)) with (String.length a + 1) by lia.
    rewrite string_length_append. cbn [String.length].
    replace (String.length a + S (String.length b) - (String.length a + 1))
      with (String.length b) by lia.
    replace (String.length a + 1) with (String.length (a ++ ",")%string)
      by (rewrite string_length_append; reflexivity).
    replace (a ++ String "," b)%string with ((a ++ ",") ++ b)%string
      by (rewrite string_append_assoc; reflexivity).
    rewrite substring_skip. apply substring_whole.
Qed.

(** X23.  [formatAddress] splits the address, once trimmed and with the
    terrace abbreviations expanded, at its last comma: when that text is
    [a], a comma and a comma-free [b], the suburb that is looked up is
    [b] and the street that is formatted is the whole of [a], commas
    included; without a match the text is returned as it is, with one the
    result is the formatted street, a comma and a space, and the entry of
    the matched suburb. *)
Theorem formatAddress_splits_at_last_comma
    (didyoumean2 : string -> list string -> nat -> option string)
    (StreetNames : list (string * list string))
    (StreetSuffixes SuburbNames : list (string * string))
    (address0 a b : string) :
  expandTerraces address0 = (a ++ String "," b)%string ->
  ~ hasComma b ->
  suburbPortion (expandTerraces address0) = b
  /\ formatAddress didyoumean2 StreetNames StreetSuffixes SuburbNames address0
     = match didyoumean2 b (Table.keys SuburbNames) 2 with
       | None => expandTerraces address0
       | Some suburbName =>
           (toStringOrUndefined
              (formatStreetName didyoumean2 StreetNames StreetSuffixes (Some a))
            ++ ", " ++ toStringOrUndefined (Table.lookup suburbName SuburbNames))%string
       end.
Proof.
  intros E Hno. destruct (@split_at_last_comma a b Hno) as (Hi & Hto & Hfrom).
  unfold suburbPortion, formatAddress. rewrite E, Hi, Hto, Hfrom.
  split; [reflexivity|].
  destruct (Z.ltb_spec (Z.of_nat (String.length a)) 0) as [L|_]; [lia|reflexivity].
Qed.

Lemma formatAddress_splits_at_last_comma_witness :
  formatAddress DidYouMean.didyoumean2 Sample.StreetNames Sample.StreetSuffixes
    Sample.SuburbNames "UNIT 3, 12 MAIN ST, CUMINS"
  = "UNIT 3, 12 MAIN STREET, CUMMINS SA 5631".
Proof.
  apply (proj2 (@formatAddress_splits_at_last_comma
                  DidYouMean.didyoumean2 Sample.StreetNames Sample.StreetSuffixes
                  Sample.SuburbNames "UNIT 3, 12 MAIN ST, CUMINS"
                  "UNIT 3, 12 MAIN ST" " CUMINS" eq_refl
                  ltac:(vm_compute; intuition discriminate))).
Defined.

Lemma trimStart_chars (c : ascii) (s : string) :
  In c (list_ascii_of_string (Str.trimStart s)) -> In c (list_ascii_of_string s).
Proof.
  induction s as [|d s IH]; simpl; [tauto|].
  destruct (Str.isWhitespace d); simpl; tauto.
Qed.

Lemma trimEnd_chars (c : ascii) (s : string) :
  In c (list_ascii_of_string (Str.trimEnd s)) -> In c (list_ascii_of_string s).
Proof.
  induction s as [|d s IH]; simpl; [tauto|].
  destruct (Str.isWhitespace d && Str.isEmpty (Str.trimEnd s)); simpl; tauto.
Qed.

Lemma replaceFrom_chars (c : ascii) (pat rep : string) (s : string) :
  forall skip,
    In c (list_ascii_of_string (Str.replaceFrom pat rep skip s)) ->
    In c (list_ascii_of_string s) \/ In c (list_ascii_of_string rep).
Proof.
  induction s as [|d s IH]; intros skip; cbn [Str.replaceFrom]; [simpl; tauto|].
  destruct skip as [|k].
  - destruct (String.prefix pat (String d s)).
    + rewrite list_ascii_of_string_app, in_app_iff. intros [H|H]; [tauto|].
      apply IH in H. simpl. tauto.
    + simpl. intros [H|H]; [tauto|]. apply IH in H. tauto.
  - intros H. apply IH in H. simpl. tauto.
Qed.

Lemma expandTerraces_comma (address0 : string) :
  hasComma (expandTerraces address0) -> hasComma address0.
Proof.
  unfold hasComma, expandTerraces, Str.replaceAll, Str.trim. intros H.
  repeat (apply replaceFrom_chars in H as [H|H];
          [|exfalso; vm_compute in H; intuition discriminate]).
  apply trimStart_chars, trimEnd_chars. exact H.
Qed.

(** X24.  An address without a comma is not looked up at all: whatever
    the matcher and the gazetteer, [formatAddress] returns it trimmed and
    with the terrace abbreviations expanded, and otherwise unchanged. *)
Theorem formatAddress_without_comma
    (didyoumean2 : string -> list string -> nat -> option string)
    (StreetNames : list (string * list string))
    (StreetSuffixes SuburbNames : list (string * string)) (address0 : string) :
  ~ hasComma address0 ->
  formatAddress didyoumean2 StreetNames StreetSuffixes SuburbNames address0
  = expandTerraces address0.
Proof.
  intros Hno. unfold formatAddress, Str.lastIndexOf.
  rewrite lastIndexOfFrom_absent; [reflexivity|].
  intros H. apply Hno. apply expandTerraces_comma. exact H.
Qed.

Lemma formatAddress_without_comma_witness :
  formatAddress DidYouMean.didyoumean2 Sample.StreetNames Sample.StreetSuffixes
    Sample.SuburbNames " 5 BAY TCE NTH CUMMINS "
  = "5 BAY TERRACE NORTH CUMMINS".
Proof.
  apply (@formatAddress_without_comma DidYouMean.didyoumean2 Sample.StreetNames
           Sample.StreetSuffixes Sample.SuburbNames " 5 BAY TCE NTH CUMMINS ").
  vm_compute. intuition discriminate.
Defined.

(** ** Reading the gazetteer *)

Lemma splitOn_absent (sep : ascii) (s : string) :
  ~ In sep (list_ascii_of_string s) -> Text.splitOn sep s = [s].
Proof.
  induction s as [|c s IH]; intros Hno; simpl; [reflexivity|].
  simpl in Hno. destruct (Ascii.eqb_spec c sep) as [->|_]; [tauto|].
  rewrite IH by tauto. reflexivity.
Qed.

Lemma upperChar_comma (d : ascii) : Str.upperChar d = ","%char -> d = ","%char.
Proof.
  destruct d as [[] [] [] [] [] [] [] []]; vm_compute; intros H;
    solve [reflexivity | discriminate].
Qed.

Lemma toUpperCase_comma (s : string) :
  hasComma (Str.toUpperCase s) -> hasComma s.
Proof.
  unfold hasComma, Str.toUpperCase. induction s as [|d s IH]; simpl; [tauto|].
  intros [H|H]; [left; apply upperChar_comma; exact H|right; apply IH; exact H].
Qed.

Lemma lineEntry_without_comma (line : string) :
  ~ hasComma line -> Gazetteer.lineEntry line = None.
Proof.
  intros Hno. unfold Gazetteer.lineEntry, Gazetteer.lineTokens.
  rewrite splitOn_absent; [reflexivity|].
  intros H. apply Hno. apply toUpperCase_comma. exact H.
Qed.

Lemma readStreetNames_fails (lines : list string) (line : string) :
  In line lines -> Gazetteer.lineEntry line = None ->
  forall table, Gazetteer.readStreetNames lines table = None.
Proof.
  intros Hin Hline. induction lines as [|l lines IH]; intros table; [destruct Hin|].
  simpl. destruct Hin as [->|Hin].
  - rewrite Hline. reflexivity.
  - destruct (Gazetteer.lineEntry l) as [[a b]|]; [apply IH; exact Hin|reflexivity].
Qed.

Lemma readStreetSuffixes_fails (lines : list string) (line : string) :
  In line lines -> Gazetteer.lineEntry line = None ->
  forall table, Gazetteer.readStreetSuffixes lines table = None.
Proof.
  intros Hin Hline. induction lines as [|l lines IH]; intros table; [destruct Hin|].
  simpl. destruct Hin as [->|Hin].
  - rewrite Hline. reflexivity.
  - destruct (Gazetteer.lineEntry l) as [[a b]|]; [apply IH; exact Hin|reflexivity].
Qed.

Lemma readSuburbNames_fails (lines : list string) (line : string) :
  In line lines -> Gazetteer.lineEntry line = None ->
  forall table, Gazetteer.readSuburbNames lines table = None.
Proof.
  intros Hin Hline. induction lines as [|l lines IH]; intros table; [destruct Hin|].
  simpl. destruct Hin as [->|Hin].
  - rewrite Hline. reflexivity.
  - destruct (Gazetteer.lineEntry l) as [[a b]|]; [apply IH; exact Hin|reflexivity].
Qed.

(** X25.  Reading the gazetteer fails as soon as one of the three files
    has a line without a comma, wherever the line stands: the second
    token of that line is undefined and cannot be trimmed.  An empty
    file is such a file, its only line being the empty one. *)
Theorem readAddressInformation_needs_commas
    (streetnames streetsuffixes suburbnames : string) :
  (exists line, In line (Gazetteer.fileLines streetnames) /\ ~ hasComma line)
  \/ (exists line, In line (Gazetteer.fileLines streetsuffixes) /\ ~ hasComma line)
  \/ (exists line, In line (Gazetteer.fileLines suburbnames) /\ ~ hasComma line) ->
  Gazetteer.readAddressInformation streetnames streetsuffixes suburbnames = None.
Proof.
  unfold Gazetteer.readAddressInformation.
  intros [(line & Hin & Hno)|[(line & Hin & Hno)|(line & Hin & Hno)]];
    apply lineEntry_without_comma in Hno.
  - rewrite (readStreetNames_fails _ _ Hin Hno). reflexivity.
  - destruct (Gazetteer.readStreetNames _ _); [|reflexivity].
    rewrite (readStreetSuffixes_fails _ _ Hin Hno). reflexivity.
  - destruct (Gazetteer.readStreetNames _ _); [|reflexivity].
    destruct (Gazetteer.readStreetSuffixes _ _); [|reflexivity].
    rewrite (readSuburbNames_fails _ _ Hin Hno). reflexivity.
Qed.

Lemma readAddressInformation_needs_commas_witness :
  Gazetteer.readAddressInformation
    ("Main Street,Cummins" ++ String "010" "Smyth Road,Coffin Bay")%string
    ""
    "Cummins,Cummins SA 5631"
  = None.
Proof.
  apply readAddressInformation_needs_commas.
  right. left. exists "". split; [left; reflexivity|].
  vm_compute. tauto.
Defined.

Lemma lookup_pushTo (key value : string) (table : list (string * list string))
    (k : string) :
  Table.lookup k (Gazetteer.pushTo key value table)
  = if String.eqb key k
    then Some (match Table.lookup k table with
               | Some values => values ++ [value]
               | None => [value]
               end)
    else Table.lookup k table.
Proof.
  induction table as [|[k0 values] table IH]; simpl.
  - reflexivity.
  - destruct (String.eqb_spec k0 key) as [->|Hne]; simpl.
    + destruct (String.eqb key k); reflexivity.
    + destruct (String.eqb_spec k0 k) as [->|Hne'].
      * destruct (String.eqb_spec key k) as [->|_]; [congruence|reflexivity].
      * exact IH.
Qed.

Lemma readStreetNames_lookup (lines : list string) :
  forall table table' k,
    Gazetteer.readStreetNames lines table = Some table' ->
    Table.lookup k table'
    = match Table.lookup k table, Gazetteer.suburbsOfStreet k lines with
      | None, [] => None
      | None, suburbs => Some suburbs
      | Some values, suburbs => Some (values ++ suburbs)
      end.
Proof.
  induction lines as [|line lines IH]; intros table table' k H; simpl in H.
  - inversion H; subst. simpl. destruct (Table.lookup k table'); [|reflexivity].
    rewrite app_nil_r. reflexivity.
  - unfold Gazetteer.suburbsOfStreet. simpl flat_map.
    fold (Gazetteer.suburbsOfStreet k lines).
    destruct (Gazetteer.lineEntry line) as [[street suburb]|]; [|discriminate].
    rewrite (IH _ _ k H), lookup_pushTo.
    destruct (String.eqb street k); simpl.
    + destruct (Table.lookup k table); [rewrite <- app_assoc|]; reflexivity.
    + reflexivity.
Qed.

(** X26.  After the street names are read, the entry of a street is the
    list of the suburbs of all the lines that name that street, in the
    order of the lines and with repetitions kept; a street that no line
    names has no entry. *)
Theorem readStreetNames_groups (lines : list string)
    (StreetNames : list (string * list string)) (streetName : string) :
  Gazetteer.readStreetNames lines [] = Some StreetNames ->
  Table.lookup streetName StreetNames
  = match Gazetteer.suburbsOfStreet streetName lines with
    | [] => None
    | suburbs => Some suburbs
    end.
Proof.
  intros H. rewrite (readStreetNames_lookup _ _ streetName H). reflexivity.
Qed.

Lemma readStreetNames_groups_witness :
  exists StreetNames,
    Gazetteer.readStreetNames
      (Gazetteer.fileLines
         ("Main Street,Cummins" ++ String "013" (String "010"
          "Smyth Road , Coffin Bay" ++ String "010" "main street, Edillilie"))%string) []
    = Some StreetNames
    /\ Table.lookup "MAIN STREET" StreetNames = Some ["CUMMINS"; "EDILLILIE"].
Proof.
  destruct (Gazetteer.readStreetNames _ []) as [StreetNames|] eqn:E;
    [|vm_compute in E; discriminate].
  exists StreetNames. split; [reflexivity|].
  apply (@readStreetNames_groups _ StreetNames "MAIN STREET" E).
Defined.

Lemma lookup_assign (V : Type) (key : string) (value : V) (table : list (string * V))
    (k : string) :
  Table.lookup k (Gazetteer.assign key value table)
  = if String.eqb key k then Some value else Table.lookup k table.
Proof.
  induction table as [|[k0 v] table IH]; simpl.
  - reflexivity.
  - destruct (String.eqb_spec k0 key) as [->|Hne]; simpl.
    + destruct (String.eqb key k); reflexivity.
    + destruct (String.eqb_spec k0 k) as [->|Hne'].
      * destruct (String.eqb_spec key k) as [->|_]; [congruence|reflexivity].
      * exact IH.
Qed.

Lemma lookup_addSuburb (suburbName canonical : string) (table : list (string * string))
    (k : string) :
  Table.lookup k (Gazetteer.addSuburb suburbName canonical table)
  = if existsb (fun key => String.eqb key k) (Gazetteer.suburbKeys suburbName)
    then Some canonical else Table.lookup k table.
Proof.
  unfold Gazetteer.addSuburb, Gazetteer.suburbKeys.
  destruct (String.prefix "MOUNT " suburbName); cbn [existsb];
    repeat rewrite lookup_assign.
  - destruct (String.eqb suburbName k);
      destruct (String.eqb ("MT " ++ Str.substringFrom 6 suburbName) k);
      destruct (String.eqb ("MT." ++ Str.substringFrom 6 suburbName) k);
      destruct (String.eqb ("MT. " ++ Str.substringFrom 6 suburbName) k);
      reflexivity.
  - destruct (String.eqb suburbName k); reflexivity.
Qed.

Lemma existsb_eqb_In (k : string) (keys : list string) :
  existsb (fun key => String.eqb key k) keys = true <-> In k keys.
Proof.
  rewrite existsb_exists. split.
  - intros (key & Hin & E). apply String.eqb_eq in E. subst. exact Hin.
  - intros Hin. exists k. split; [exact Hin|apply String.eqb_refl].
Qed.

Lemma readSuburbNames_untouched (lines : list string) (k : string) :
  (forall line name canonical,
     In line lines -> Gazetteer.lineEntry line = Some (name, canonical) ->
     ~ In k (Gazetteer.suburbKeys name)) ->
  forall table table',
    Gazetteer.readSuburbNames lines table = Some table' ->
    Table.lookup k table' = Table.lookup k table.
Proof.
  induction lines as [|line lines IH]; intros Hno table table' H; simpl in H.
  - inversion H; subst. reflexivity.
  - destruct (Gazetteer.lineEntry line) as [[name canonical]|] eqn:E; [|discriminate].
    rewrite (IH (fun l n c Hl => Hno l n c (or_intror Hl)) _ _ H).
    rewrite lookup_addSuburb.
    destruct (existsb (fun key => String.eqb key k) (Gazetteer.suburbKeys name)) eqn:X;
      [|reflexivity].
    exfalso. apply existsb_eqb_In in X.
    exact (Hno line name canonical (or_introl eq_refl) E X).
Qed.

Lemma readSuburbNames_app (before rest : list string) :
  forall table,
    Gazetteer.readSuburbNames (before ++ rest) table
    = match Gazetteer.readSuburbNames before table with
      | Some table' => Gazetteer.readSuburbNames rest table'
      | None => None
      end.
Proof.
  induction before as [|line before IH]; intros table; simpl; [reflexivity|].
  destruct (Gazetteer.lineEntry line) as [[name canonical]|]; [apply IH|reflexivity].
Qed.

(** X27.  A line of the suburb file files its canonical string under
    the suburb name and, for a name that starts with "MOUNT ", also
    under the three spellings "MT ", "MT." and "MT. " of it.  After the
    file is read, each of these keys yields the canonical string of the
    line, unless a later line files something under the same key. *)
Theorem readSuburbNames_keys
    (before after : list string) (line name canonical key : string)
    (SuburbNames0 SuburbNames : list (string * string)) :
  Gazetteer.readSuburbNames (before ++ line :: after) SuburbNames0 = Some SuburbNames ->
  Gazetteer.lineEntry line = Some (name, canonical) ->
  In key (Gazetteer.suburbKeys name) ->
  (forall later name' canonical',
     In later after -> Gazetteer.lineEntry later = Some (name', canonical') ->
     ~ In key (Gazetteer.suburbKeys name')) ->
  Table.lookup key SuburbNames = Some canonical.
Proof.
  intros H Hline Hkey Hlater. rewrite readSuburbNames_app in H.
  destruct (Gazetteer.readSuburbNames before SuburbNames0) as [table1|]; [|discriminate].
  simpl in H. rewrite Hline in H.
  rewrite (@readSuburbNames_untouched after key Hlater _ _ H), lookup_addSuburb.
  apply existsb_eqb_In in Hkey. rewrite Hkey. reflexivity.
Qed.

Lemma readSuburbNames_keys_witness :
  exists SuburbNames,
    Gazetteer.readSuburbNames
      (["Cummins,Cummins SA 5631"] ++ "Mount Hope,MOUNT HOPE SA 5607"
                                   :: ["Coffin Bay,Coffin Bay SA 5607"]) []
    = Some SuburbNames
    /\ Table.lookup "MT. HOPE" SuburbNames = Some "MOUNT HOPE SA 5607".
Proof.
  destruct (Gazetteer.readSuburbNames _ []) as [SuburbNames|] eqn:E;
    [|vm_compute in E; discriminate].
  exists SuburbNames. split; [reflexivity|].
  apply (@readSuburbNames_keys ["Cummins,Cummins SA 5631"]
           ["Coffin Bay,Coffin Bay SA 5607"] "Mount Hope,MOUNT HOPE SA 5607"
           "MOUNT HOPE" "MOUNT HOPE SA 5607" "MT. HOPE" [] SuburbNames E eq_refl).
  - vm_compute. tauto.
  - intros later name' canonical' [<-|[]] Hentry. vm_compute in Hentry.
    inversion Hentry; subst. vm_compute. intuition discriminate.
Defined.

(** ** Choosing the documents *)

Lemma getRandom_bounds (random minimum maximum : Q) :
  (0 <= random)%Q -> (random < 1)%Q ->
  (Qceiling minimum < Qfloor maximum)%Z ->
  (Qceiling minimum <= getRandom random minimum maximum < Qfloor maximum)%Z.
Proof.
  intros H0 H1 Hrange. unfold getRandom.
  set (n := (Qfloor maximum - Qceiling minimum)%Z).
  assert (Hn : (0 < inject_Z n)%Q).
  { change 0%Q with (inject_Z 0). rewrite <- Zlt_Qlt. unfold n. lia. }
  assert (Hlo : (0 <= Qfloor (random * inject_Z n))%Z).
  { rewrite <- (Qfloor_Z 0). apply Qfloor_resp_le. change (inject_Z 0) with 0%Q.
    apply Qmult_le_0_compat; lra. }
  assert (Hhi : (Qfloor (random * inject_Z n) < n)%Z).
  { rewrite Zlt_Qlt. eapply Qle_lt_trans; [apply Qfloor_le|].
    assert (L : (random * inject_Z n < 1 * inject_Z n)%Q)
      by (apply Qmult_lt_compat_r; assumption).
    lra. }
  unfold n in *. lia.
Qed.

(** X28.  For a random number in [[0, 1)] and bounds that leave room for
    an integer, [getRandom] returns an integer that is at least the
    minimum and less than the maximum.  When the bounds leave no room
    ([floor(maximum)] equals [ceil(minimum)]) it returns that integer,
    whatever the random number. *)
Theorem getRandom_range (random minimum maximum : Q) :
  ((0 <= random)%Q -> (random < 1)%Q ->
   (Qceiling minimum < Qfloor maximum)%Z ->
   (minimum <= inject_Z (getRandom random minimum maximum))%Q
   /\ (inject_Z (getRandom random minimum maximum) < maximum)%Q)
  /\ (Qfloor maximum = Qceiling minimum ->
      getRandom random minimum maximum = Qceiling minimum).
Proof.
  split.
  - intros H0 H1 Hrange.
    destruct (getRandom_bounds minimum maximum H0 H1 Hrange) as [Hlo Hhi].
    split.
    + eapply Qle_trans; [apply Qle_ceiling|]. rewrite <- Zle_Qle. exact Hlo.
    + eapply Qlt_le_trans; [|apply Qfloor_le]. rewrite <- Zlt_Qlt. exact Hhi.
  - intros E. unfold getRandom. rewrite E, Z.sub_diag.
    assert (Z : (random * inject_Z 0 == inject_Z 0)%Q) by (simpl; ring).
    rewrite (Qfloor_comp _ _ Z), Qfloor_Z. lia.
Qed.

Lemma getRandom_range_witness :
  (0 <= inject_Z (getRandom (7 # 10) 0 5))%Q /\ (inject_Z (getRandom (7 # 10) 0 5) < 5)%Q.
Proof.
  apply (proj1 (getRandom_range (7 # 10) 0 5)); vm_compute;
    first [reflexivity | discriminate].
Defined.

Lemma elementAt_random (A : Type) (l : list A) (random : Q) :
  (0 <= random)%Q -> (random < 1)%Q -> l <> [] ->
  exists a,
    elementAt l (getRandom random 0 (inject_Z (Z.of_nat (List.length l)))) = Some a
    /\ In a l.
Proof.
  intros H0 H1 Hne.
  assert (Hlen : 0 < List.length l) by (destruct l; [congruence|simpl; lia]).
  destruct (@getRandom_bounds random 0 (inject_Z (Z.of_nat (List.length l))) H0 H1)
    as [Hlo Hhi].
  { rewrite Qfloor_Z. change (Qceiling 0) with 0%Z. lia. }
  rewrite Qfloor_Z in Hhi. change (Qceiling 0) with 0%Z in Hlo.
  unfold elementAt.
  destruct (Z.ltb_spec (getRandom random 0 (inject_Z (Z.of_nat (List.length l)))) 0)
    as [L|_]; [lia|].
  destruct (nth_error l (Z.to_nat (getRandom random 0
                                     (inject_Z (Z.of_nat (List.length l)))))) as [a|] eqn:E.
  - exists a. split; [reflexivity|]. eapply nth_error_In. exact E.
  - apply nth_error_None in E. lia.
Qed.

Lemma selectPdfUrls_nonempty (pdfUrls : list string) (random1 random2 : Q) :
  pdfUrls <> [] ->
  selectPdfUrls pdfUrls random1 random2
  = Some (if (getRandom random2 0 2 =? 0)%Z
          then rev (if 0 <? List.length (removelast pdfUrls)
                    then [Some (last pdfUrls "")]
                         ++ [elementAt (removelast pdfUrls)
                               (getRandom random1 0
                                  (inject_Z (Z.of_nat (List.length (removelast pdfUrls)))))]
                    else [Some (last pdfUrls "")])
          else (if 0 <? List.length (removelast pdfUrls)
                then [Some (last pdfUrls "")]
                     ++ [elementAt (removelast pdfUrls)
                           (getRandom random1 0
                              (inject_Z (Z.of_nat (List.length (removelast pdfUrls)))))]
                else [Some (last pdfUrls "")])).
Proof.
  intros Hne. destruct pdfUrls as [|u us]; [congruence|]. reflexivity.
Qed.

(** X29.  When the page lists at least one document and the random
    numbers lie in [[0, 1)], [main] selects the most recent document,
    which is the last of the list, and, when there are others, one of
    the others: one or two documents in all, each from the list, never
    an undefined one, and never the same document twice when the list
    has no repetition.  With no document nothing is selected. *)
Theorem selectPdfUrls_selection (pdfUrls : list string) (random1 random2 : Q) :
  (pdfUrls <> [] ->
   (0 <= random1)%Q -> (random1 < 1)%Q ->
   exists selected,
     selectPdfUrls pdfUrls random1 random2 = Some (map Some selected)
     /\ In (last pdfUrls "") selected
     /\ List.length selected = Nat.min 2 (List.length pdfUrls)
     /\ (forall pdfUrl, In pdfUrl selected -> In pdfUrl pdfUrls)
     /\ (NoDup pdfUrls -> NoDup selected))
  /\ selectPdfUrls [] random1 random2 = None.
Proof.
  split; [|reflexivity]. intros Hne H0 H1.
  rewrite (selectPdfUrls_nonempty random1 random2 Hne).
  pose proof (app_removelast_last "" Hne) as Hsplit.
  remember (removelast pdfUrls) as others eqn:Eo.
  remember (last pdfUrls "") as recent eqn:Er.
  clear Eo Er Hne. subst pdfUrls. rewrite length_app. cbn [List.length].
  destruct others as [|o os].
  - cbn [List.length Nat.ltb Nat.leb app rev].
    exists [recent]. split.
    + destruct (getRandom random2 0 2 =? 0)%Z; reflexivity.
    + split; [left; reflexivity|]. split; [reflexivity|]. split.
      * intros p Hp. exact Hp.
      * intros _. repeat constructor. intros [].
  - assert (Hpos : (0 <? List.length (o :: os)) = true) by reflexivity.
    rewrite Hpos.
    destruct (@elementAt_random _ (o :: os) random1 H0 H1) as (other & Hother & Hin);
      [discriminate|].
    rewrite Hother.
    assert (Hboth : forall p, In p [recent; other] -> In p ((o :: os) ++ [recent])).
    { intros p [<-|[<-|[]]]; apply in_or_app;
        [right; left; reflexivity|left; exact Hin]. }
    assert (Hdup : NoDup ((o :: os) ++ [recent]) -> recent <> other).
    { intros Hnd E. apply NoDup_remove_2 in Hnd.
      rewrite app_nil_r in Hnd. apply Hnd. rewrite E. exact Hin. }
    assert (Hmin : 2 = Nat.min 2 (List.length (o :: os) + 1)).
    { simpl. destruct (List.length os); reflexivity. }
    destruct (getRandom random2 0 2 =? 0)%Z.
    + exists [other; recent]. split; [reflexivity|].
      split; [right; left; reflexivity|]. split; [exact Hmin|]. split.
      * intros p [<-|[<-|[]]]; apply Hboth; simpl; tauto.
      * intros Hnd. specialize (Hdup Hnd). repeat constructor; simpl; intuition congruence.
    + exists [recent; other]. split; [reflexivity|].
      split; [left; reflexivity|]. split; [exact Hmin|]. split; [exact Hboth|].
      intros Hnd. specialize (Hdup Hnd). repeat constructor; simpl; intuition congruence.
Qed.

Lemma selectPdfUrls_selection_witness :
  exists selected,
    selectPdfUrls ["a/register1.pdf"; "a/register2.pdf"; "a/register3.pdf"] (7 # 10) (1 # 4)
    = Some (map Some selected)
    /\ In "a/register3.pdf" selected.
Proof.
  destruct (proj1 (selectPdfUrls_selection
                     ["a/register1.pdf"; "a/register2.pdf"; "a/register3.pdf"]
                     (7 # 10) (1 # 4)))
    as (selected & E & Hin & _).
  - discriminate.
  - vm_compute. discriminate.
  - vm_compute. reflexivity.
  - exists selected. split; assumption.
Defined.

Lemma existsb_eqb_string (u : string) (l : list string) :
  existsb (String.eqb u) l = true <-> In u l.
Proof.
  rewrite existsb_exists. split.
  - intros (v & Hin & E). apply String.eqb_eq in E. subst. exact Hin.
  - intros Hin. exists u. split; [exact Hin|apply String.eqb_refl].
Qed.

Lemma collectPdfUrls_fold (hrefs : list string) :
  forall pdfUrls,
    NoDup pdfUrls ->
    NoDup (fold_left addPdfUrl hrefs pdfUrls)
    /\ forall u,
         In u (fold_left addPdfUrl hrefs pdfUrls) <->
         In u pdfUrls
         \/ (In u hrefs
             /\ Text.includes "register" (Str.toLowerCase u) = true
             /\ Text.includes ".pdf" (Str.toLowerCase u) = true).
Proof.
  induction hrefs as [|href hrefs IH]; intros pdfUrls Hnd; simpl.
  - split; [exact Hnd|]. intros u. split; [auto|]. intros [H|[[] _]]; exact H.
  - assert (Hstep : NoDup (addPdfUrl pdfUrls href)
                    /\ forall u, In u (addPdfUrl pdfUrls href) <->
                                 In u pdfUrls
                                 \/ (u = href
                                     /\ Text.includes "register" (Str.toLowerCase u) = true
                                     /\ Text.includes ".pdf" (Str.toLowerCase u) = true)).
    { unfold addPdfUrl.
      destruct (Text.includes "register" (Str.toLowerCase href)) eqn:R;
        destruct (Text.includes ".pdf" (Str.toLowerCase href)) eqn:P; cbn [andb];
        try (split; [exact Hnd|]; intros u; split; [auto|];
             intros [H|(-> & H1 & H2)]; [exact H|congruence]).
      destruct (existsb (String.eqb href) pdfUrls) eqn:X; cbn [negb].
      - apply existsb_eqb_string in X. split; [exact Hnd|].
        intros u. split; [auto|]. intros [H|(-> & _)]; assumption.
      - assert (Hnot : ~ In href pdfUrls).
        { intros H. apply existsb_eqb_string in H. congruence. }
        split.
        + apply NoDup_app; [exact Hnd|repeat constructor; intros []|].
          intros a Ha [<-|[]]. exact (Hnot Ha).
        + intros u. rewrite in_app_iff. simpl. split.
          * intros [H|[<-|[]]]; auto.
          * intros [H|(-> & _)]; auto. }
    destruct Hstep as [Hnd' Hin']. destruct (IH _ Hnd') as [IH1 IH2].
    split; [exact IH1|]. intros u. rewrite IH2, Hin'. split.
    + intros [[H|(-> & H)]|(H & H')]; auto.
    + intros [H|([<-|H] & H')]; auto.
Qed.

(** X30.  The list of documents that [main] gathers from the links of
    the page has no repetition, and it holds exactly the link addresses
    that contain "register" and ".pdf" when put in lower case. *)
Theorem collectPdfUrls_distinct (hrefs : list string) :
  NoDup (collectPdfUrls hrefs)
  /\ forall pdfUrl,
       In pdfUrl (collectPdfUrls hrefs) <->
       In pdfUrl hrefs
       /\ Text.includes "register" (Str.toLowerCase pdfUrl) = true
       /\ Text.includes ".pdf" (Str.toLowerCase pdfUrl) = true.
Proof.
  unfold collectPdfUrls. destruct (collectPdfUrls_fold hrefs (NoDup_nil _)) as [H1 H2].
  split; [exact H1|]. intros u. rewrite H2. simpl. tauto.
Qed.

(** ** Projecting a row onto a heading *)

Lemma horizontal_overlap_same_span (r1 r2 : Rectangle) :
  (x r1 == x r2)%Q -> (width r1 == width r2)%Q -> (0 < width r2)%Q ->
  (getHorizontalOverlapPercentage (Some r1) (Some r2) == 100)%Q.
Proof.
  intros Ex Ew P.
  pose proof (Q.max_spec (x r1 + width r1) (x r2 + width r2)) as Me.
  pose proof (Q.min_spec (x r1 + width r1) (x r2 + width r2)) as me.
  pose proof (Q.max_spec (x r1) (x r2)) as Ms.
  pose proof (Q.min_spec (x r1) (x r2)) as ms.
  destruct (horizontal_overlap_cases r1 r2) as [[E Hno]|(E & L1 & L2 & N1 & N2)];
    rewrite E; [exfalso; lra|].
  apply Qle_antisym.
  - apply Qle_shift_div_r; lra.
  - apply Qle_shift_div_l; lra.
Qed.

(** X20.  When a row has a cell that spans the same horizontal interval
    as a heading cell, of positive width, the lookup of the data cell
    under that heading finds a cell of the row, and the cell found
    overlaps the heading by more than 90 percent. *)
Theorem findDataCell_same_column (heading : Cell) (row : list Cell) (cell : Cell) :
  In cell row ->
  (x cell == x heading)%Q -> (width cell == width heading)%Q ->
  (0 < width heading)%Q ->
  exists found,
    findDataCell (Some heading) row = Some found
    /\ In found row
    /\ (90 < getHorizontalOverlapPercentage (Some (cellBounds found))
               (Some (cellBounds heading)))%Q.
Proof.
  intros Hin Ex Ew P. unfold findDataCell. cbn [option_map].
  destruct (find _ row) as [found|] eqn:F.
  - apply find_some in F as [Hf Hp]. exists found.
    split; [reflexivity|]. split; [exact Hf|]. apply NumFacts.gtb_gt. exact Hp.
  - exfalso. pose proof (find_none _ _ F cell Hin) as Hp. cbv beta in Hp.
    apply NumFacts.gtb_false in Hp.
    pose proof (@horizontal_overlap_same_span cell heading Ex Ew P). lra.
Qed.

Lemma findDataCell_same_column_witness :
  exists found,
    findDataCell (Some (Sample.cellWith "Town" 200 (-100)))
      (Sample.dataRow "5/10/21" "1 MAIN ST" "CUMMINS") = Some found
    /\ In found (Sample.dataRow "5/10/21" "1 MAIN ST" "CUMMINS").
Proof.
  destruct (@findDataCell_same_column (Sample.cellWith "Town" 200 (-100))
              (Sample.dataRow "5/10/21" "1 MAIN ST" "CUMMINS")
              (Sample.cellWith "CUMMINS" 200 (-80)))
    as (found & E & Hin & _).
  - right. right. left. reflexivity.
  - reflexivity.
  - reflexivity.
  - reflexivity.
  - exists found. split; assumption.
Defined.

(** ** Where a classified line comes from *)

Lemma constructPath_provenance (ops : list PathOp) (args : list Q)
    (tr : option Transform) :
  forall i0 p q,
    constructPath ops args tr i0 p = Some q ->
    q = p
    \/ exists t before after,
         tr = Some t
         /\ ops = before ++ RectangleOp :: after
         /\ q = Some (readRectangle args (i0 + argumentIndexAfter before) t).
Proof.
  induction ops as [|op ops IH]; intros i0 p q H; simpl in H.
  - inversion H. left. reflexivity.
  - destruct op.
    + apply IH in H as [->|(t & before & after & Et & Eo & Eq)]; [left; reflexivity|].
      right. exists t, (MoveTo :: before), after. subst. repeat split.
      replace (i0 + argumentIndexAfter (MoveTo :: before))
        with (i0 + 2 + argumentIndexAfter before) by (simpl; lia).
      reflexivity.
    + apply IH in H as [->|(t & before & after & Et & Eo & Eq)]; [left; reflexivity|].
      right. exists t, (LineTo :: before), after. subst. repeat split.
      replace (i0 + argumentIndexAfter (LineTo :: before))
        with (i0 + 2 + argumentIndexAfter before) by (simpl; lia).
      reflexivity.
    + destruct tr as [t|]; [|discriminate].
      apply IH in H as [->|(t' & before & after & Et & Eo & Eq)].
      * right. exists t, [], ops. repeat split.
        replace (i0 + argumentIndexAfter []) with i0 by (simpl; lia). reflexivity.
      * inversion Et; subst.
        right. exists t', (RectangleOp :: before), after. repeat split.
        replace (i0 + argumentIndexAfter (RectangleOp :: before))
          with (i0 + 4 + argumentIndexAfter before) by (simpl; lia).
        reflexivity.
    + apply IH in H as [->|(t & before & after & Et & Eo & Eq)]; [left; reflexivity|].
      right. exists t, (OtherPathOp :: before), after. subst. repeat split.
Qed.

Lemma readRectangle_Rect (args : list Q) (i : nat) (t : Transform) (r : Rectangle) :
  readRectangle args i t = Rect r ->
  exists x1 y1 w h,
    nth_error args i = Some x1 /\ nth_error args (i + 1) = Some y1
    /\ nth_error args (i + 2) = Some w /\ nth_error args (i + 3) = Some h
    /\ r = {| x := fst (applyTransform (x1, y1) t);
              y := snd (applyTransform (x1, y1) t);
              width := (fst (applyTransform ((x1 + w)%Q, (y1 + h)%Q) t)
                        - fst (applyTransform (x1, y1) t))%Q;
              height := (snd (applyTransform ((x1 + w)%Q, (y1 + h)%Q) t)
                         - snd (applyTransform (x1, y1) t))%Q |}.
Proof.
  unfold readRectangle.
  destruct (nth_error args i) as [x1|]; [|discriminate].
  destruct (nth_error args (i + 1)) as [y1|]; [|discriminate].
  destruct (nth_error args (i + 2)) as [w|]; [|discriminate].
  destruct (nth_error args (i + 3)) as [h|]; [|discriminate].
  intros E. inversion E. exists x1, y1, w, h. repeat split.
Qed.

Lemma recordedAs_extend (done more : list Operator) (r : Rectangle) (c1 c2 : Q * Q) :
  recordedAs done r c1 c2 -> recordedAs (done ++ more) r c1 c2.
Proof.
  intros (k & ops & args & s & t & before & after & x1 & y1 & w & h
          & Hk & Hrun & Ht & Hops & H1 & H2 & H3 & H4 & Hc1 & Hc2 & Hr).
  assert (Hlt : k < List.length done) by (apply nth_error_Some; congruence).
  exists k, ops, args, s, t, before, after, x1, y1, w, h.
  split; [rewrite nth_error_app1 by exact Hlt; exact Hk|].
  split; [|repeat split; assumption].
  rewrite firstn_app. replace (k - List.length done) with 0 by lia.
  simpl. rewrite app_nil_r. exact Hrun.
Qed.

Lemma stepOperator_recorded (done : list Operator) (s s' : LineState) (op : Operator) :
  runOperators initialLineState done = Some s ->
  allRecorded done s ->
  stepOperator s op = Some s' ->
  allRecorded (done ++ [op]) s'.
Proof.
  intros Hrun Hall Hstep r Hr.
  assert (Hold : In (Rect r) (lines s) \/ previousRectangle s = Some (Rect r) ->
                 exists c1 c2, recordedAs (done ++ [op]) r c1 c2).
  { intros H. destruct (Hall r H) as (c1 & c2 & Hrec).
    exists c1, c2. apply recordedAs_extend. exact Hrec. }
  destruct s as [ls prev stack t]. destruct op; simpl in Hstep.
  - inversion Hstep; subst. apply Hold. exact Hr.
  - destruct stack; inversion Hstep; subst; apply Hold; exact Hr.
  - destruct t; inversion Hstep; subst. apply Hold. exact Hr.
  - destruct (constructPath ops args t 0 prev) as [q|] eqn:E; inversion Hstep; subst.
    simpl in Hr. destruct Hr as [Hr|Hr]; [apply Hold; left; exact Hr|].
    apply constructPath_provenance in E as [->|(t0 & before & after & Et & Eo & Eq)];
      [apply Hold; right; exact Hr|].
    rewrite Eq in Hr. inversion Hr as [Hread].
    apply readRectangle_Rect in Hread as (x1 & y1 & w & h & H1 & H2 & H3 & H4 & Er).
    exists (applyTransform (x1, y1) t0), (applyTransform ((x1 + w)%Q, (y1 + h)%Q) t0).
    exists (List.length done), ops, args,
      {| lines := ls; previousRectangle := prev; transformStack := stack; transform := t |},
      t0, before, after, x1, y1, w, h.
    split; [rewrite nth_error_app2, Nat.sub_diag by lia; reflexivity|].
    split; [rewrite firstn_app, firstn_all, Nat.sub_diag; simpl;
            rewrite app_nil_r; exact Hrun|].
    repeat split; assumption.
  - destruct prev as [p|]; inversion Hstep; subst; simpl in Hr.
    + destruct Hr as [Hr|Hr]; [|discriminate]. apply in_app_or in Hr as [Hr|[Hr|[]]].
      * apply Hold. left. exact Hr.
      * apply Hold. right. simpl. congruence.
    + apply Hold. exact Hr.
  - destruct prev as [p|]; inversion Hstep; subst; simpl in Hr.
    + destruct Hr as [Hr|Hr]; [|discriminate]. apply in_app_or in Hr as [Hr|[Hr|[]]].
      * apply Hold. left. exact Hr.
      * apply Hold. right. simpl. congruence.
    + apply Hold. exact Hr.
  - inversion Hstep; subst. apply Hold. exact Hr.
Qed.

Lemma runOperators_recorded (rest : list Operator) :
  forall done s s',
    runOperators initialLineState done = Some s ->
    allRecorded done s ->
    runOperators s rest = Some s' ->
    allRecorded (done ++ rest) s'.
Proof.
  induction rest as [|op rest IH]; intros done s s' Hrun Hall Hrest; simpl in Hrest.
  - inversion Hrest; subst. rewrite app_nil_r. exact Hall.
  - destruct (stepOperator s op) as [s1|] eqn:E; [|discriminate].
    replace (done ++ op :: rest) with ((done ++ [op]) ++ rest)
      by (rewrite <- app_assoc; reflexivity).
    apply (IH (done ++ [op]) s1 s'); [|exact (@stepOperator_recorded done s s1 op Hrun Hall E)|exact Hrest].
    rewrite runOperators_app, Hrun. simpl. rewrite E. reflexivity.
Qed.

Lemma committed_line_recorded (operators : list Operator) (ls : list Shape)
    (line : Rectangle) :
  parseLines operators = Some ls -> In (Rect line) ls ->
  exists corner1 corner2, recordedAs operators line corner1 corner2.
Proof.
  unfold parseLines. intros H Hin.
  destruct (runOperators initialLineState operators) as [s|] eqn:E; [|discriminate].
  inversion H; subst.
  apply (@runOperators_recorded operators [] initialLineState s eq_refl); [|exact E|].
  - intros r [[]|Hr]; discriminate.
  - left. exact Hin.
Qed.

Lemma recordedAs_signs (operators : list Operator) (line : Rectangle) (c1 c2 : Q * Q) :
  recordedAs operators line c1 c2 ->
  x line = fst c1 /\ y line = snd c1
  /\ width line = (fst c2 - fst c1)%Q /\ height line = (snd c2 - snd c1)%Q
  /\ ((width line < 0)%Q <-> (fst c2 < fst c1)%Q)
  /\ ((height line < 0)%Q <-> (snd c2 < snd c1)%Q).
Proof.
  intros (k & ops & args & s & t & before & after & x1 & y1 & w & h
          & _ & _ & _ & _ & _ & _ & _ & _ & _ & _ & ->).
  simpl. repeat split; intros; lra.
Qed.

(** C5, amended.  For every operator stream that the extractor walks to
    the end, every rectangle classified as a horizontal or a vertical
    line was recorded by a rectangle sub-operation of the stream, under
    the transform current at that operator: its position is the
    transformed first corner and its width and height are the plain
    differences between the transformed second corner and the first,
    without any normalisation.  A horizontal line has a width of at least
    200, hence non-negative, and a height of at most 2; a vertical line
    has a height of at least 10, hence non-negative, and a width of at
    most 2.  Nothing bounds the thin dimension from below: it is negative
    exactly when the transformed second corner lies before the first on
    that axis, as under a transform with a negative scale. *)
Theorem classified_line_dimensions (operators : list Operator) (ls : list Shape) :
  parseLines operators = Some ls ->
  (forall line, In line (horizontalLinesOf ls) ->
     (200 <= width line)%Q /\ (0 <= width line)%Q /\ (height line <= 2)%Q
     /\ exists corner1 corner2,
          recordedAs operators line corner1 corner2
          /\ width line = (fst corner2 - fst corner1)%Q
          /\ height line = (snd corner2 - snd corner1)%Q
          /\ ((height line < 0)%Q <-> (snd corner2 < snd corner1)%Q))
  /\ (forall line, In line (verticalLinesOf ls) ->
        (10 <= height line)%Q /\ (0 <= height line)%Q /\ (width line <= 2)%Q
        /\ exists corner1 corner2,
             recordedAs operators line corner1 corner2
             /\ width line = (fst corner2 - fst corner1)%Q
             /\ height line = (snd corner2 - snd corner1)%Q
             /\ ((width line < 0)%Q <-> (fst corner2 < fst corner1)%Q)).
Proof.
  intros Hparse. destruct (classified_line_thresholds ls) as [Hh Hv].
  split; intros line Hin.
  - destruct (Hh line Hin) as (Hc & H0 & Hw & Hheight).
    destruct (@committed_line_recorded operators ls line Hparse Hc) as (c1 & c2 & Hrec).
    destruct (@recordedAs_signs operators line c1 c2 Hrec) as (_ & _ & Ew & Eh & _ & Sh).
    repeat split; try assumption. exists c1, c2. repeat split; try assumption; apply Sh.
  - destruct (Hv line Hin) as (Hc & H0 & Hheight & Hw).
    destruct (@committed_line_recorded operators ls line Hparse Hc) as (c1 & c2 & Hrec).
    destruct (@recordedAs_signs operators line c1 c2 Hrec) as (_ & _ & Ew & Eh & Sw & _).
    repeat split; try assumption. exists c1, c2. repeat split; try assumption; apply Sw.
Qed.

Lemma classified_line_dimensions_witness :
  exists corner1 corner2,
    recordedAs Sample.flippedOperators Sample.flippedLine corner1 corner2
    /\ width Sample.flippedLine = (fst corner2 - fst corner1)%Q
    /\ height Sample.flippedLine = (snd corner2 - snd corner1)%Q
    /\ ((height Sample.flippedLine < 0)%Q <-> (snd corner2 < snd corner1)%Q).
Proof.
  destruct (@classified_line_dimensions Sample.flippedOperators
              [Rect Sample.flippedLine]) as [Hh _].
  - vm_compute. reflexivity.
  - destruct (Hh Sample.flippedLine) as (_ & _ & _ & Hrec).
    + left. reflexivity.
    + exact Hrec.
Defined.

(** ** Pages that are skipped, and a page on which the extractor fails *)

(** C3, as the claim states it, fails: the page [Sample.brokenPage] has
    no classified line at all (up to its third operator nothing is
    committed), yet on its third operator the extractor fails for want
    of a current transform; the page yields no diagnostic, and the
    document is lost together with the register page that follows, which
    alone yields its record. *)
Lemma unmatched_restores_abort_the_document :
  parseLines (firstn 2 (operators Sample.brokenPage)) = Some []
  /\ parseLines (operators Sample.brokenPage) = None
  /\ parsePage DidYouMean.didyoumean2 Moment.strict Sample.StreetNames
       Sample.StreetSuffixes Sample.SuburbNames Sample.today Sample.url
       Sample.brokenPage = None
  /\ Sample.parse [Sample.brokenPage; Sample.page "1 MAIN ST" "CUMMINS"] = None
  /\ option_map fst (Sample.parse [Sample.page "1 MAIN ST" "CUMMINS"])
     = Some [Sample.application "5/10/21" "1 MAIN STREET, CUMMINS SA 5631"].
Proof. repeat split; vm_compute; reflexivity. Qed.

Section SkippedPages.
Variable didyoumean2 : string -> list string -> nat -> option string.
Variable momentStrict : string -> option string.
Variable StreetNames : list (string * list string).
Variable StreetSuffixes : list (string * string).
Variable SuburbNames : list (string * string).
Variable today : string.

Local Abbreviation parsePageE :=
  (parsePage didyoumean2 momentStrict StreetNames StreetSuffixes SuburbNames today).
Local Abbreviation parsePagesE :=
  (parsePages didyoumean2 momentStrict StreetNames StreetSuffixes SuburbNames today).

(** C3, amended.  The extractor walks the operator list of a page to
    the end whenever every restore of the list finds a transform on the
    stack.  For every page that it walks to the end: with fewer than 2
    horizontal or fewer than 2 vertical classified lines the grid builder
    makes no cell and the grouping no row; such a page, and a page on
    which the heading cell of the identifier, street or suburb column is
    absent, yields no record and exactly one diagnostic message, as a
    value and not as a failure, and the loop goes on with the pages that
    follow. *)
Theorem page_without_grid_or_heading_is_skipped (url : string) (page : Page) :
  (restoresMatched 1 (operators page) = true ->
   exists lines, parseLines (operators page) = Some lines)
  /\ (forall lines,
        parseLines (operators page) = Some lines ->
        (List.length (horizontalLinesOf lines) < 2
         \/ List.length (verticalLinesOf lines) < 2 ->
         buildCells lines = []
         /\ groupRows (boundCells (buildCells lines) (pageElements page)) = [])
        /\ ((List.length (horizontalLinesOf lines) < 2
             \/ List.length (verticalLinesOf lines) < 2)
            \/ findHeadingCell "d/anumber"
                 (boundCells (buildCells lines) (pageElements page)) = None
            \/ findHeadingCell "streetname"
                 (boundCells (buildCells lines) (pageElements page)) = None
            \/ findHeadingCell "town"
                 (boundCells (buildCells lines) (pageElements page)) = None ->
            exists message,
              In message (skipMessages (pageElements page))
              /\ parsePageE url page = Some ([], [message])
              /\ forall numPages pageIndex rest,
                   parsePagesE url numPages pageIndex (page :: rest)
                   = match parsePagesE url numPages (S pageIndex) rest with
                     | None => None
                     | Some (developmentApplications, logs) =>
                         Some (developmentApplications,
                               readingPageMessage pageIndex numPages
                               :: message :: logs)
                     end)).
Proof.
  split.
  - intros Hm. unfold parseLines.
    destruct (runOperators initialLineState (operators page)) as [s|] eqn:E.
    + eexists. reflexivity.
    + exfalso.
      apply (@runOperators_defined (operators page) initialLineState 1); auto.
      * repeat constructor. discriminate.
      * discriminate.
  - intros lines Hlines.
    apply (walked_page_is_skipped didyoumean2 momentStrict StreetNames StreetSuffixes
             SuburbNames today url page Hlines).
Qed.

End SkippedPages.

Lemma page_without_grid_or_heading_is_skipped_witness :
  (exists lines, parseLines (operators Sample.textOnlyPage) = Some lines)
  /\ (exists message,
        In message (skipMessages (pageElements Sample.textOnlyPage))
        /\ parsePage DidYouMean.didyoumean2 Moment.strict Sample.StreetNames
             Sample.StreetSuffixes Sample.SuburbNames Sample.today Sample.url
             Sample.textOnlyPage
           = Some ([], [message])).
Proof.
  split.
  - apply (proj1 (@page_without_grid_or_heading_is_skipped
                    DidYouMean.didyoumean2 Moment.strict Sample.StreetNames
                    Sample.StreetSuffixes Sample.SuburbNames Sample.today Sample.url
                    Sample.textOnlyPage)).
    reflexivity.
  - destruct (proj2 (proj2 (@page_without_grid_or_heading_is_skipped
                    DidYouMean.didyoumean2 Moment.strict Sample.StreetNames
                    Sample.StreetSuffixes Sample.SuburbNames Sample.today Sample.url
                    Sample.textOnlyPage) [] eq_refl))
      as (message & Hin & Hpage & _).
    + left. left. simpl. lia.
    + exists message. split; assumption.
Defined.
